(** * SkillDuels real-time match engine (src/socket/socketHandler.js)

    A shallow embedding of the socket handler: the in-memory room registry
    [gameRooms], the room objects it aliases under two keys, the persistent
    collections the handlers read and write, the armed timers and the
    emitted socket events.  Every handler is a function from [World] to
    [World]: a request is handled alone, its awaited store calls and the
    [endMatch] it starts included, before the next event is taken.

    Conventions.
    - Requests that overlap at an [await] are not modelled.  What is stated
      about one handler describes that request handled alone; what is stated
      over all sequences of events is kept to facts that no overlap can
      break (a number that only grows, a field that nothing writes, a step
      that the source takes without awaiting).
    - JavaScript numbers that the handlers receive or compute are integers
      ([Z]); [undefined] fields are [None].  The payload fields that the
      handlers use without checking their type ([numberOfQuestions],
      [timePerQuestion], [questionIndex], [selectedOptionId]) are raw
      primitive values ([jsval]), coerced the way the operators of the
      handlers coerce them; ids, names and codes are strings.
    - [gameRooms] (a [Map]) and the plain objects [room.scores] and
      [room.answers] keep insertion order, so they are association lists
      with the update-in-place behaviour of [Map.set].  For the two plain
      objects this is so as long as no key is an array index or the name of
      a property of [Object.prototype]; the keys are user ids, and no such
      key is the 24 hexadecimal digits of a stored user.
    - Room objects live in a heap and are referred to by address: both the
      match id key and the match code key of [gameRooms] hold the same
      address, and timer callbacks capture the address.
    - [Date.now()] reads the [clock] field.
    - The store is a set of document lists.  Casting a string that is not
      24 hexadecimal digits to an object id throws, as the driver does; the
      handler's [catch] then answers with its generic error.  Two strings
      are the same object id when they are equal up to the case of their
      hexadecimal digits.  Events that reach [endMatch] say which of its
      store calls, if any, rejects ([StoreRun]); the calls before that one
      have been committed.
    - [setTimeout] arms a callback under a fresh handle; the event
      [EvTimer] fires an armed handle.  Delays are not modelled: a timer may
      fire at any turn after it was armed, so what holds for every order of
      events holds for the timed ones.
    - An exception that no handler catches (the callback of the question
      deadline can throw) ends the process, as server.js arranges: the world
      is marked [crashed] and no further event is handled.
    - The sync-timer handler only reads the room and is left out. *)

From Stdlib Require Import ZArith String Ascii List Bool Lia DecimalString.
From stdpp Require Import base list.
Import ListNotations.
Local Open Scope string_scope.
Local Open Scope list_scope.
Local Open Scope Z_scope.

(** ** Configuration constants *)

Definition QUESTION_TIME_LIMIT : Z := 30.
Definition QUESTIONS_PER_MATCH : Z := 5.
Definition RECONNECT_GRACE_PERIOD : Z := 30000.
Definition XP_PER_CORRECT : Z := 10.
Definition PERFECT_MATCH_BONUS : Z := 50.
Definition FORFEIT_BONUS : Z := 50.

(** ** JavaScript values and strings *)

(** A payload field of unknown type, as [selectedOptionId] is: one of the
    primitive values of JSON, or [undefined] for a missing field. *)
Inductive jsval : Type :=
| JUndefined
| JNull
| JBool (b : bool)
| JNum (n : Z)
| JStr (s : string).

(** [a === b] *)
Definition strict_eq (a b : jsval) : bool :=
  match a, b with
  | JUndefined, JUndefined => true
  | JNull, JNull => true
  | JBool x, JBool y => Bool.eqb x y
  | JNum x, JNum y => Z.eqb x y
  | JStr x, JStr y => String.eqb x y
  | _, _ => false
  end.

(** Truthiness of a string: only the empty string is falsy. *)
Definition truthy_str (s : string) : bool :=
  match s with EmptyString => false | _ => true end.

(** Truthiness of a value: [undefined], [null], [false], [0] and the empty
    string are falsy. *)
Definition js_truthy (v : jsval) : bool :=
  match v with
  | JUndefined | JNull => false
  | JBool b => b
  | JNum n => negb (Z.eqb n 0)
  | JStr s => truthy_str s
  end.

(** [a || b] *)
Definition js_or (a b : jsval) : jsval := if js_truthy a then a else b.

(** *** Conversion to a number

    [Number(v)], as the relational operators apply it to an operand that is
    compared with a number.  The result is not a number, an infinity, or the
    decimal [m * 10 ^ e]; a string is read by the grammar of numeric string
    literals.  The value of a literal is its mathematical value: its
    rounding to a double, which shows only beyond fifteen significant
    digits, is not modelled. *)
Inductive jsnum : Type :=
| NotANumber
| PlusInfinity
| MinusInfinity
| Decimal (m e : Z).

(** White space and line terminators, among the first 256 code points. *)
Definition is_space (c : ascii) : bool :=
  let n := nat_of_ascii c in
  ((Nat.leb 9 n && Nat.leb n 13) || Nat.eqb n 32 || Nat.eqb n 160)%bool.

(** The value of a digit in a base up to 16. *)
Definition digit_of (base : Z) (c : ascii) : option Z :=
  let n := Z.of_nat (nat_of_ascii c) in
  let d :=
    if (48 <=? n) && (n <=? 57) then Some (n - 48)
    else if (97 <=? n) && (n <=? 102) then Some (n - 87)
    else if (65 <=? n) && (n <=? 70) then Some (n - 55)
    else None in
  match d with
  | Some v => if v <? base then Some v else None
  | None => None
  end.

(** The longest prefix of digits of [s]: the number read (continuing
    [acc]), how many digits it has, and what follows. *)
Fixpoint read_digits (base : Z) (s : list ascii) (acc : Z) (count : nat)
  : Z * nat * list ascii :=
  match s with
  | c :: r =>
      match digit_of base c with
      | Some d => read_digits base r (acc * base + d) (S count)
      | None => (acc, count, s)
      end
  | [] => (acc, count, [])
  end.

(** [0x], [0o] and [0b] literals: [None] when [s] has no such prefix. *)
Definition read_radix (s : list ascii) : option jsnum :=
  match s with
  | "0"%char :: p :: r =>
      let base :=
        if Ascii.eqb p "x" || Ascii.eqb p "X" then Some 16
        else if Ascii.eqb p "o" || Ascii.eqb p "O" then Some 8
        else if Ascii.eqb p "b" || Ascii.eqb p "B" then Some 2
        else None in
      match base with
      | Some b =>
          Some (match read_digits b r 0 0 with
                | (v, S _, []) => Decimal v 0
                | _ => NotANumber
                end)
      | None => None
      end
  | _ => None
  end.

(** The exponent that follows [e] or [E]: an optional sign and digits up to
    the end. *)
Definition read_exponent (s : list ascii) : option Z :=
  let '(negative, digits) :=
    match s with
    | "+"%char :: r => (false, r)
    | "-"%char :: r => (true, r)
    | _ => (false, s)
    end in
  match read_digits 10 digits 0 0 with
  | (v, S _, []) => Some (if negative then - v else v)
  | _ => None
  end.

(** An unsigned decimal literal: [Infinity], or digits with an optional
    fraction and an optional exponent, at least one digit before the
    exponent. *)
Definition read_unsigned_decimal (s : list ascii) : jsnum :=
  if String.eqb (string_of_list_ascii s) "Infinity" then PlusInfinity
  else
    let '(i, ni, r1) := read_digits 10 s 0 0 in
    let '(m, nf, r2) :=
      match r1 with
      | "."%char :: r => read_digits 10 r i 0
      | _ => (i, 0%nat, r1)
      end in
    if Nat.eqb (ni + nf) 0 then NotANumber
    else
      match r2 with
      | [] => Decimal m (- Z.of_nat nf)
      | c :: r =>
          if Ascii.eqb c "e" || Ascii.eqb c "E" then
            match read_exponent r with
            | Some x => Decimal m (x - Z.of_nat nf)
            | None => NotANumber
            end
          else NotANumber
      end.

Fixpoint drop_spaces (s : list ascii) : list ascii :=
  match s with
  | c :: r => if is_space c then drop_spaces r else s
  | [] => []
  end.

Definition num_opp (x : jsnum) : jsnum :=
  match x with
  | NotANumber => NotANumber
  | PlusInfinity => MinusInfinity
  | MinusInfinity => PlusInfinity
  | Decimal m e => Decimal (- m) e
  end.

(** [Number(s)] for a string: white space around the literal is dropped,
    the empty string is 0, and anything that is not a numeric literal is
    not a number. *)
Definition string_to_number (s : string) : jsnum :=
  match List.rev (drop_spaces (List.rev (drop_spaces (list_ascii_of_string s)))) with
  | [] => Decimal 0 0
  | t =>
      match read_radix t with
      | Some n => n
      | None =>
          match t with
          | "+"%char :: r => read_unsigned_decimal r
          | "-"%char :: r => num_opp (read_unsigned_decimal r)
          | _ => read_unsigned_decimal t
          end
      end
  end.

Definition to_number (v : jsval) : jsnum :=
  match v with
  | JUndefined => NotANumber
  | JNull => Decimal 0 0
  | JBool b => Decimal (if b then 1 else 0) 0
  | JNum n => Decimal n 0
  | JStr s => string_to_number s
  end.

(** [x < b], [x > b] and [x >= b] for an integer [b]: false when [x] is not
    a number. *)
Definition num_lt (x : jsnum) (b : Z) : bool :=
  match x with
  | NotANumber | PlusInfinity => false
  | MinusInfinity => true
  | Decimal m e => if 0 <=? e then m * 10 ^ e <? b else m <? b * 10 ^ (- e)
  end.

Definition num_gt (x : jsnum) (b : Z) : bool :=
  match x with
  | NotANumber | MinusInfinity => false
  | PlusInfinity => true
  | Decimal m e => if 0 <=? e then m * 10 ^ e >? b else m >? b * 10 ^ (- e)
  end.

Definition num_ge (x : jsnum) (b : Z) : bool :=
  match x with
  | NotANumber | MinusInfinity => false
  | PlusInfinity => true
  | Decimal m e => if 0 <=? e then m * 10 ^ e >=? b else m >=? b * 10 ^ (- e)
  end.

(** [v < b] and [v > b] for a raw value and a number. *)
Definition js_lt (v : jsval) (b : Z) : bool := num_lt (to_number v) b.
Definition js_gt (v : jsval) (b : Z) : bool := num_gt (to_number v) b.

(** [v + 1 >= b]: on a string [+] appends ["1"]. *)
Definition js_succ_ge (v : jsval) (b : Z) : bool :=
  match v with
  | JStr s => num_ge (string_to_number (s ++ "1")) b
  | JUndefined => false
  | JNull => 1 >=? b
  | JBool x => (if x then 2 else 1) >=? b
  | JNum n => n + 1 >=? b
  end.

Definition truthy_ostr (s : option string) : bool :=
  match s with Some s => truthy_str s | None => false end.

(** A possibly undefined value used as a property key: [obj[undefined]] is
    the property named ["undefined"]. *)
Definition uid_key (u : option string) : string :=
  match u with Some s => s | None => "undefined" end.

(** [p.userId === u] where [p.userId] is a string. *)
Definition uid_is (u : option string) (s : string) : bool :=
  match u with Some v => String.eqb s v | None => false end.

Definition upper_ascii (c : ascii) : ascii :=
  let n := nat_of_ascii c in
  if (Nat.leb 97 n && Nat.leb n 122)%bool then ascii_of_nat (n - 32) else c.

(** [s.toUpperCase()] on ASCII text. *)
Fixpoint toUpperCase (s : string) : string :=
  match s with
  | EmptyString => EmptyString
  | String c r => String (upper_ascii c) (toUpperCase r)
  end.

Definition lower_ascii (c : ascii) : ascii :=
  let n := nat_of_ascii c in
  if (Nat.leb 65 n && Nat.leb n 90)%bool then ascii_of_nat (n + 32) else c.

Fixpoint toLowerCase (s : string) : string :=
  match s with
  | EmptyString => EmptyString
  | String c r => String (lower_ascii c) (toLowerCase r)
  end.

(** [s.substring(0, n)] *)
Definition substring0 (n : nat) (s : string) : string := String.substring 0 n s.

(** [s.startsWith(p)] *)
Definition startsWith (s p : string) : bool := String.prefix p s.

Definition is_hex (c : ascii) : bool :=
  let n := nat_of_ascii c in
  ((Nat.leb 48 n && Nat.leb n 57) || (Nat.leb 97 n && Nat.leb n 102)
   || (Nat.leb 65 n && Nat.leb n 70))%bool.

Fixpoint all_hex (s : string) : bool :=
  match s with
  | EmptyString => true
  | String c r => is_hex c && all_hex r
  end.

(** Whether the store can cast a string to an object id (24 hex digits);
    a cast of anything else throws. *)
Definition isObjectId (s : string) : bool :=
  (Nat.eqb (String.length s) 24 && all_hex s)%bool.

(** Whether two strings are cast to the same object id: the case of the
    hexadecimal digits does not count. *)
Definition oid_eqb (a b : string) : bool :=
  String.eqb (toLowerCase a) (toLowerCase b).

(** ** Insertion-ordered maps with string keys *)

Definition JsMap (V : Type) : Type := list (string * V).

Fixpoint map_get {V} (k : string) (m : JsMap V) : option V :=
  match m with
  | [] => None
  | (k', v) :: r => if String.eqb k' k then Some v else map_get k r
  end.

(** [Map.set]: an existing key keeps its position. *)
Fixpoint map_set {V} (k : string) (v : V) (m : JsMap V) : JsMap V :=
  match m with
  | [] => [(k, v)]
  | (k', v') :: r =>
      if String.eqb k' k then (k, v) :: r else (k', v') :: map_set k v r
  end.

Fixpoint map_delete {V} (k : string) (m : JsMap V) : JsMap V :=
  match m with
  | [] => []
  | (k', v') :: r =>
      if String.eqb k' k then map_delete k r else (k', v') :: map_delete k r
  end.

(** [arr.find(f)] together with the index of the element found. *)
Fixpoint find_index {A} (f : A -> bool) (l : list A) : option nat :=
  match l with
  | [] => None
  | x :: r => if f x then Some 0%nat else option_map S (find_index f r)
  end.

(** [arr[i]] for an integer index: [undefined] out of range. *)
Definition at_index {A} (l : list A) (i : Z) : option A :=
  if Z.ltb i 0 then None else l !! Z.to_nat i.

(** The decimal writing of an array index. *)
Definition dec_string (n : nat) : string :=
  NilEmpty.string_of_uint (Nat.to_uint n).

(** The names every array answers to besides its indices and [length]:
    the methods and accessors inherited from [Array.prototype] and
    [Object.prototype] (ECMAScript 2023). *)
Definition inherited_names : list string :=
  ["at"; "concat"; "constructor"; "copyWithin"; "entries"; "every"; "fill";
   "filter"; "find"; "findIndex"; "findLast"; "findLastIndex"; "flat";
   "flatMap"; "forEach"; "includes"; "indexOf"; "join"; "keys";
   "lastIndexOf"; "map"; "pop"; "push"; "reduce"; "reduceRight"; "reverse";
   "shift"; "slice"; "some"; "sort"; "splice"; "toLocaleString";
   "toReversed"; "toSorted"; "toSpliced"; "toString"; "unshift"; "values";
   "with"; "hasOwnProperty"; "isPrototypeOf"; "propertyIsEnumerable";
   "valueOf"; "__proto__"; "__defineGetter__"; "__defineSetter__";
   "__lookupGetter__"; "__lookupSetter__"].

(** What [arr[v]] is for a raw value [v], as far as [!arr[v]] and a read of
    its properties can tell: an element, a truthy value that is no element
    (the length, an inherited method), or a falsy value. *)
Inductive Indexed (A : Type) : Type :=
| Elem (x : A)
| Member
| Absent.
Arguments Elem {A} x.
Arguments Member {A}.
Arguments Absent {A}.

(** [arr[v]]: a number indexes the elements; a string is a property name,
    which names an element when it is the decimal writing of its index;
    [undefined], [null] and booleans name no property of an array. *)
Definition js_index {A} (l : list A) (v : jsval) : Indexed A :=
  match v with
  | JNum n =>
      match at_index l n with Some x => Elem x | None => Absent end
  | JStr s =>
      match List.find (fun i => String.eqb (dec_string i) s)
              (List.seq 0 (length l)) with
      | Some i =>
          match l !! i with Some x => Elem x | None => Absent end
      | None =>
          if String.eqb s "length" then
            if Nat.eqb (length l) 0 then Absent else Member
          else if List.existsb (String.eqb s) inherited_names then Member
          else Absent
      end
  | JUndefined | JNull | JBool _ => Absent
  end.

(** ** Data model *)

Record QOption : Type := mkOption {
  opt_id : Z;
  opt_text : string
}.

(** A question snapshot, as projected by the aggregation. *)
Record Question : Type := mkQuestion {
  q_id : string;
  q_text : string;
  q_options : list QOption;
  correctOptionId : Z;
  q_difficulty : string;
  q_category : string
}.

Record Player : Type := mkPlayer {
  userId : string;
  socketId : string;
  username : option string;
  answered : bool;
  disconnected : bool;
  finishReady : bool
}.

Record Answer : Type := mkAnswer {
  a_questionIndex : jsval;
  selectedOptionId : jsval;
  isCorrect : bool;
  xpAwarded : Z
}.

Inductive MatchState : Type := Waiting | Active | Finished.

Definition MatchState_eqb (a b : MatchState) : bool :=
  match a, b with
  | Waiting, Waiting | Active, Active | Finished, Finished => true
  | _, _ => false
  end.

Record Room : Type := mkRoom {
  matchId : string;
  matchCode : string;
  categoryId : string;
  categoryName : string;
  numberOfQuestions : Z;
  questionTimeLimit : jsval;
  players : list Player;
  questionsData : list Question;
  currentQuestionIndex : Z;
  scores : JsMap Z;
  answers : JsMap Answer;
  state : MatchState;
  startTime : option Z;
  timerInterval : option nat;
  gracePeriodTimeout : option nat;
  createdAt : Z
}.

(** *** Persistent collections *)

Record CategoryDoc : Type := mkCategory {
  cat_id : string;
  cat_name : string
}.

Record QuestionDoc : Type := mkQuestionDoc {
  qd_question : Question;
  qd_isActive : option bool;
  qd_isApproved : bool
}.

Record MatchDoc : Type := mkMatchDoc {
  m_id : string;
  m_players : list (string * string);
  m_category : string;
  m_questions : list string;
  m_scores : list (string * Z);
  m_state : MatchState
}.

Record UserDoc : Type := mkUser {
  u_id : string;
  u_xp : Z;
  u_weeklyXp : Z;
  u_rank : string;
  u_badges : list string
}.

(** *** Sockets, timers, emitted events *)

Record Socket : Type := mkSocket {
  s_userId : option string;
  s_username : option string;
  s_matchId : option string
}.

Definition fresh_socket : Socket := mkSocket None None None.

(** How the store calls of one [endMatch] go: all of them succeed, the
    update of the match document rejects, or a call made for the score
    entry number [i] (the lookup of its user, or the save) rejects. *)
Inductive StoreRun : Type :=
| AllSucceed
| FailsAtMatch
| FailsAtEntry (i : nat).

(** The callbacks handed to [setTimeout]; each records what its closure
    captures. *)
Inductive Timer : Type :=
| TStartMatch (mid : string)
| TDeliverFirst (mid : string)
| TQuestionTimeout (mid : string) (room : nat) (qi : Z)
| TEndAllAnswered (mid : string)
| TGracePeriod (mid : string) (room : nat) (uid : string).

Inductive Target : Type :=
| ToSocket (sid : string)
| ToRoom (mid : string)
| ToRoomExcept (mid : string) (sid : string)
| ToAll.

Inductive Msg : Type :=
| MError (code : string)
| MUserJoinedSuccess (uid uname : string)
| MUserOnline (uid uname : string)
| MMatchCreated (mid code : string)
| MMatchAvailable (mid : string)
| MMatchReady (mid : string) (uids : list string)
| MMatchJoined (mid : string) (uids : list string)
| MMatchRemovedFromLobby (mid : string)
| MStartBattle (mid : string) (totalQuestions : nat) (questionDuration : jsval)
| MQuestionDisplay (qi : Z) (q : Question) (timeLimit : jsval) (total : nat)
| MAnswerValidated (qi : jsval) (selected : jsval) (correct : bool)
    (correctId : Z) (xp : Z) (totalScore : Z)
| MOpponentAnswered (uid : option string) (qi : jsval)
| MQuestionTimeout (qi : Z)
| MQuestionResults (qi : jsval) (correctId : Z) (sc : JsMap Z)
    (playerAnswers : JsMap Answer)
| MOpponentFinishReady
| MOpponentDisconnected (uid : string)
| MOpponentReconnected (uid : string)
| MMatchStateRestored (mid : string) (qi : Z) (currentQuestion : option Question)
    (sc : JsMap Z) (st : MatchState) (ps : list (string * bool))
| MMatchEnded (mid : string) (winnerId : option string) (finalScores : JsMap Z)
    (leaderboard : list (string * Z)) (reason : string).

Definition Emit : Type := (Target * Msg)%type.

Record World : Type := mkWorld {
  gameRooms : JsMap nat;
  heap : list Room;
  sockets : JsMap Socket;
  db_categories : list CategoryDoc;
  db_questions : list QuestionDoc;
  db_matches : list MatchDoc;
  db_users : list UserDoc;
  timers : list (nat * Timer);
  nextTimer : nat;
  clock : Z;
  outbox : list Emit;
  crashed : bool
}.

(** ** World and room updates *)

Definition set_gameRooms (g : JsMap nat) (w : World) : World :=
  mkWorld g (heap w) (sockets w) (db_categories w) (db_questions w)
    (db_matches w) (db_users w) (timers w) (nextTimer w) (clock w)
    (outbox w) (crashed w).

Definition set_heap (h : list Room) (w : World) : World :=
  mkWorld (gameRooms w) h (sockets w) (db_categories w) (db_questions w)
    (db_matches w) (db_users w) (timers w) (nextTimer w) (clock w)
    (outbox w) (crashed w).

Definition set_sockets (s : JsMap Socket) (w : World) : World :=
  mkWorld (gameRooms w) (heap w) s (db_categories w) (db_questions w)
    (db_matches w) (db_users w) (timers w) (nextTimer w) (clock w)
    (outbox w) (crashed w).

Definition set_db_matches (m : list MatchDoc) (w : World) : World :=
  mkWorld (gameRooms w) (heap w) (sockets w) (db_categories w) (db_questions w)
    m (db_users w) (timers w) (nextTimer w) (clock w) (outbox w) (crashed w).

Definition set_db_users (u : list UserDoc) (w : World) : World :=
  mkWorld (gameRooms w) (heap w) (sockets w) (db_categories w) (db_questions w)
    (db_matches w) u (timers w) (nextTimer w) (clock w) (outbox w) (crashed w).

Definition set_timers (t : list (nat * Timer)) (n : nat) (w : World) : World :=
  mkWorld (gameRooms w) (heap w) (sockets w) (db_categories w) (db_questions w)
    (db_matches w) (db_users w) t n (clock w) (outbox w) (crashed w).

Definition set_clock (t : Z) (w : World) : World :=
  mkWorld (gameRooms w) (heap w) (sockets w) (db_categories w) (db_questions w)
    (db_matches w) (db_users w) (timers w) (nextTimer w) t (outbox w)
    (crashed w).

Definition set_crashed (w : World) : World :=
  mkWorld (gameRooms w) (heap w) (sockets w) (db_categories w) (db_questions w)
    (db_matches w) (db_users w) (timers w) (nextTimer w) (clock w) (outbox w)
    true.

(** [socket.emit], [io.to(..).emit], [io.emit]: appended to the outbox. *)
Definition emit (t : Target) (m : Msg) (w : World) : World :=
  mkWorld (gameRooms w) (heap w) (sockets w) (db_categories w) (db_questions w)
    (db_matches w) (db_users w) (timers w) (nextTimer w) (clock w)
    (outbox w ++ [(t, m)]) (crashed w).

Definition set_players (ps : list Player) (r : Room) : Room :=
  mkRoom (matchId r) (matchCode r) (categoryId r) (categoryName r)
    (numberOfQuestions r) (questionTimeLimit r) ps (questionsData r)
    (currentQuestionIndex r) (scores r) (answers r) (state r) (startTime r)
    (timerInterval r) (gracePeriodTimeout r) (createdAt r).

Definition set_currentQuestionIndex (i : Z) (r : Room) : Room :=
  mkRoom (matchId r) (matchCode r) (categoryId r) (categoryName r)
    (numberOfQuestions r) (questionTimeLimit r) (players r) (questionsData r)
    i (scores r) (answers r) (state r) (startTime r)
    (timerInterval r) (gracePeriodTimeout r) (createdAt r).

Definition set_scores (s : JsMap Z) (r : Room) : Room :=
  mkRoom (matchId r) (matchCode r) (categoryId r) (categoryName r)
    (numberOfQuestions r) (questionTimeLimit r) (players r) (questionsData r)
    (currentQuestionIndex r) s (answers r) (state r) (startTime r)
    (timerInterval r) (gracePeriodTimeout r) (createdAt r).

Definition set_answers (a : JsMap Answer) (r : Room) : Room :=
  mkRoom (matchId r) (matchCode r) (categoryId r) (categoryName r)
    (numberOfQuestions r) (questionTimeLimit r) (players r) (questionsData r)
    (currentQuestionIndex r) (scores r) a (state r) (startTime r)
    (timerInterval r) (gracePeriodTimeout r) (createdAt r).

Definition set_state (s : MatchState) (r : Room) : Room :=
  mkRoom (matchId r) (matchCode r) (categoryId r) (categoryName r)
    (numberOfQuestions r) (questionTimeLimit r) (players r) (questionsData r)
    (currentQuestionIndex r) (scores r) (answers r) s (startTime r)
    (timerInterval r) (gracePeriodTimeout r) (createdAt r).

Definition set_startTime (t : option Z) (r : Room) : Room :=
  mkRoom (matchId r) (matchCode r) (categoryId r) (categoryName r)
    (numberOfQuestions r) (questionTimeLimit r) (players r) (questionsData r)
    (currentQuestionIndex r) (scores r) (answers r) (state r) t
    (timerInterval r) (gracePeriodTimeout r) (createdAt r).

Definition set_timerInterval (t : option nat) (r : Room) : Room :=
  mkRoom (matchId r) (matchCode r) (categoryId r) (categoryName r)
    (numberOfQuestions r) (questionTimeLimit r) (players r) (questionsData r)
    (currentQuestionIndex r) (scores r) (answers r) (state r) (startTime r)
    t (gracePeriodTimeout r) (createdAt r).

Definition set_gracePeriodTimeout (t : option nat) (r : Room) : Room :=
  mkRoom (matchId r) (matchCode r) (categoryId r) (categoryName r)
    (numberOfQuestions r) (questionTimeLimit r) (players r) (questionsData r)
    (currentQuestionIndex r) (scores r) (answers r) (state r) (startTime r)
    (timerInterval r) t (createdAt r).

Definition set_answered (b : bool) (p : Player) : Player :=
  mkPlayer (userId p) (socketId p) (username p) b (disconnected p)
    (finishReady p).

Definition set_disconnected (b : bool) (p : Player) : Player :=
  mkPlayer (userId p) (socketId p) (username p) (answered p) b
    (finishReady p).

Definition set_finishReady (b : bool) (p : Player) : Player :=
  mkPlayer (userId p) (socketId p) (username p) (answered p)
    (disconnected p) b.

Definition set_socketId (s : string) (p : Player) : Player :=
  mkPlayer (userId p) s (username p) (answered p) (disconnected p)
    (finishReady p).

(** Mutation of the room object at address [a]. *)
Definition update_room (a : nat) (f : Room -> Room) (w : World) : World :=
  set_heap (alter f a (heap w)) w.

(** [gameRooms.get(key)]: the address and the current contents of the room
    object stored under [key]. *)
Definition get_room (key : string) (w : World) : option (nat * Room) :=
  match map_get key (gameRooms w) with
  | Some a => match heap w !! a with Some r => Some (a, r) | None => None end
  | None => None
  end.

Definition get_socket (sid : string) (w : World) : Socket :=
  match map_get sid (sockets w) with Some s => s | None => fresh_socket end.

Definition put_socket (sid : string) (s : Socket) (w : World) : World :=
  set_sockets (map_set sid s (sockets w)) w.

(** [setTimeout(cb, delay)]: arms [cb] and returns its handle. *)
Definition setTimeout (cb : Timer) (w : World) : nat * World :=
  (nextTimer w, set_timers (timers w ++ [(nextTimer w, cb)]) (S (nextTimer w)) w).

Definition drop_timer (id : nat) (l : list (nat * Timer)) : list (nat * Timer) :=
  List.filter (fun e => negb (Nat.eqb (fst e) id)) l.

(** [if (h) clearTimeout(h)] *)
Definition clearTimeout (h : option nat) (w : World) : World :=
  match h with
  | Some id => set_timers (drop_timer id (timers w)) (nextTimer w) w
  | None => w
  end.

(** [room.scores[k] || 0] *)
Definition score_of (k : string) (s : JsMap Z) : Z :=
  match map_get k s with Some v => v | None => 0 end.

(** ** Store queries *)

(** [Category.findById(id)], then the [$or] query on id and name. *)
Definition find_category (cid : string) (cats : list CategoryDoc)
  : option CategoryDoc :=
  match List.find (fun c => oid_eqb (cat_id c) cid) cats with
  | Some c => Some c
  | None =>
      List.find (fun c => oid_eqb (cat_id c) cid || String.eqb (cat_name c) cid)
        cats
  end.

(** The [$match] stage of create-match:
    [{ category: ObjectId(categoryId), isActive: { $ne: false } }]. *)
Definition match_stage (cid : string) (d : QuestionDoc) : bool :=
  oid_eqb (q_category (qd_question d)) cid
  && negb (match qd_isActive d with Some false => true | _ => false end).

(** The [$match] stage of the sibling REST path
    (questionController.getRandomQuestions):
    [{ category, isApproved: true, isActive: true }]. *)
Definition match_stage_controller (cid : string) (d : QuestionDoc) : bool :=
  oid_eqb (q_category (qd_question d)) cid
  && qd_isApproved d
  && (match qd_isActive d with Some true => true | _ => false end).

(** [$sample: { size: n }]: [n] documents drawn without replacement, or all
    of them when fewer exist.  The random choices are the [seed]. *)
Fixpoint sample {A} (seed : list nat) (n : nat) (pool : list A) : list A :=
  match n with
  | O => []
  | S n' =>
      let i := (List.hd 0%nat seed mod length pool)%nat in
      match pool !! i with
      | Some x => x :: sample (List.tl seed) n' (delete i pool)
      | None => []
      end
  end.

(** [Question.aggregate([$match, $sample, $project])] *)
Definition aggregate_questions (cid : string) (size : Z) (seed : list nat)
    (docs : list QuestionDoc) : list Question :=
  List.map qd_question
    (sample seed (Z.to_nat size) (List.filter (match_stage cid) docs)).

Definition find_match (mid : string) (ms : list MatchDoc) : option MatchDoc :=
  List.find (fun m => oid_eqb (m_id m) mid) ms.

Definition update_match (mid : string) (f : MatchDoc -> MatchDoc)
    (ms : list MatchDoc) : list MatchDoc :=
  List.map (fun m => if oid_eqb (m_id m) mid then f m else m) ms.

(** ** Connection and match creation *)

(** [socket.on("user-join")] *)
Definition user_join (sid uid uname : string) (w : World) : World :=
  if negb (isObjectId uid) then
    emit (ToSocket sid) (MError "JOIN_FAILED") w
  else
    match List.find (fun u => oid_eqb (u_id u) uid) (db_users w) with
    | None => emit (ToSocket sid) (MError "USER_NOT_FOUND") w
    | Some u =>
        let s := get_socket sid w in
        let w := put_socket sid (mkSocket (Some uid) (Some uname) (s_matchId s)) w in
        let w := emit (ToSocket sid) (MUserJoinedSuccess uid uname) w in
        emit ToAll (MUserOnline uid uname) w
    end.

(** [socket.on("create-match")].  [newId] is the id the store gives the new
    match document, [seed] the random choices of the sample.  The two
    counts are compared as they arrive; the sample stage of the aggregation
    takes a number only. *)
Definition create_match (sid cid uid : string)
    (numberOfQuestions' timePerQuestion : jsval)
    (newId : string) (seed : list nat) (w : World) : World :=
  let questionsCount := js_or numberOfQuestions' (JNum QUESTIONS_PER_MATCH) in
  let questionTimeLimit' := js_or timePerQuestion (JNum QUESTION_TIME_LIMIT) in
  if js_lt questionsCount 3 || js_gt questionsCount 20 then
    emit (ToSocket sid) (MError "INVALID_QUESTION_COUNT") w
  else if js_lt questionTimeLimit' 15 || js_gt questionTimeLimit' 300 then
    emit (ToSocket sid) (MError "INVALID_TIME_LIMIT") w
  else if negb (isObjectId cid) then
    emit (ToSocket sid) (MError "CATEGORY_LOOKUP_ERROR") w
  else
    match find_category cid (db_categories w) with
    | None => emit (ToSocket sid) (MError "CATEGORY_NOT_FOUND") w
    | Some category =>
        match questionsCount with
        | JNum size =>
            let questions :=
              aggregate_questions cid size seed (db_questions w) in
            if Nat.eqb (length questions) 0 then
              emit (ToSocket sid) (MError "INSUFFICIENT_QUESTIONS") w
            else if Z.of_nat (length questions) <? size then
              emit (ToSocket sid) (MError "INSUFFICIENT_QUESTIONS") w
            else if negb (isObjectId uid) then
              emit (ToSocket sid) (MError "CREATE_MATCH_FAILED") w
            else
              let doc := mkMatchDoc newId [(uid, sid)] cid
                           (List.map q_id questions) [(uid, 0)] Waiting in
              let w := set_db_matches (db_matches w ++ [doc]) w in
              let matchId' := newId in
              let matchCode' := toUpperCase (substring0 12 matchId') in
              let s := get_socket sid w in
              let room :=
                mkRoom matchId' matchCode' cid (cat_name category) size
                  questionTimeLimit'
                  [mkPlayer uid sid (s_username s) false false false]
                  questions 0 [(uid, 0)] [] Waiting None None None (clock w) in
              let a := length (heap w) in
              let w := set_heap (heap w ++ [room]) w in
              let w := set_gameRooms (map_set matchId' a (gameRooms w)) w in
              let w :=
                match map_get matchId' (gameRooms w) with
                | Some a' => set_gameRooms (map_set matchCode' a' (gameRooms w)) w
                | None => w
                end in
              let w := put_socket sid (mkSocket (s_userId s) (s_username s) (Some matchId')) w in
              let w := emit (ToSocket sid) (MMatchCreated matchId' matchCode') w in
              emit ToAll (MMatchAvailable matchId') w
        | _ =>
            (* [$sample] refuses a size that is not a number *)
            emit (ToSocket sid) (MError "QUESTIONS_FETCH_ERROR") w
        end
    end.

(** ** Room resolution and join *)

(** The third lookup of join-match: the first entry of [gameRooms] whose
    room has [matchCode === codeUpper]. *)
Fixpoint scan_matchCode (codeUpper : string) (h : list Room)
    (entries : JsMap nat) : option (nat * Room) :=
  match entries with
  | [] => None
  | (_, a) :: r =>
      match h !! a with
      | Some room =>
          if String.eqb (matchCode room) codeUpper then Some (a, room)
          else scan_matchCode codeUpper h r
      | None => scan_matchCode codeUpper h r
      end
  end.

(** The fourth lookup: the first key that, in upper case, starts with
    [codeUpper]; the target id is [value.matchId || key]. *)
Fixpoint scan_prefix (codeUpper : string) (h : list Room)
    (entries : JsMap nat) : option (nat * Room * string) :=
  match entries with
  | [] => None
  | (key, a) :: r =>
      if truthy_str key && startsWith (toUpperCase key) codeUpper then
        match h !! a with
        | Some room =>
            Some (a, room, if truthy_str (matchId room) then matchId room else key)
        | None => scan_prefix codeUpper h r
        end
      else scan_prefix codeUpper h r
  end.

(** The room lookup of join-match: exact match id, exact code key, scan by
    stored code, prefix of a key.  Returns the room and [targetMatchId]. *)
Definition resolve (mid code : option string) (w : World)
  : option (nat * Room * option string) :=
  let codeUpper :=
    match code with
    | Some c => if truthy_str c then Some (toUpperCase c) else None
    | None => None
    end in
  let first :=
    match mid with
    | Some m =>
        if truthy_str m then
          match get_room m w with
          | Some (a, room) => Some (a, room, mid)
          | None => None
          end
        else None
    | None => None
    end in
  match first with
  | Some r => Some r
  | None =>
      match codeUpper with
      | None => None
      | Some cu =>
          match get_room cu w with
          | Some (a, room) =>
              Some (a, room,
                    if truthy_str (matchId room) then Some (matchId room) else mid)
          | None =>
              match scan_matchCode cu (heap w) (gameRooms w) with
              | Some (a, room) => Some (a, room, Some (matchId room))
              | None =>
                  if Nat.leb 8 (String.length cu) then
                    match scan_prefix cu (heap w) (gameRooms w) with
                    | Some (a, room, t) => Some (a, room, Some t)
                    | None => None
                    end
                  else None
              end
          end
      end
  end.

(** [socket.on("join-match")] *)
Definition join_match (sid : string) (mid code : option string) (uid : string)
    (w : World) : World :=
  if negb (truthy_ostr mid) && negb (truthy_ostr code) then
    emit (ToSocket sid) (MError "MATCH_ID_REQUIRED") w
  else
    match resolve mid code w with
    | None => emit (ToSocket sid) (MError "MATCH_NOT_FOUND") w
    | Some (a, room, target) =>
        if negb (MatchState_eqb (state room) Waiting)
           || Nat.leb 2 (length (players room)) then
          emit (ToSocket sid) (MError "MATCH_UNAVAILABLE") w
        else
          match target with
          | None => emit (ToSocket sid) (MError "MATCH_NOT_FOUND") w
          | Some targetMatchId =>
              if negb (isObjectId targetMatchId) then
                emit (ToSocket sid) (MError "JOIN_MATCH_FAILED") w
              else
                match find_match targetMatchId (db_matches w) with
                | None => emit (ToSocket sid) (MError "MATCH_NOT_FOUND") w
                | Some m =>
                    if negb (MatchState_eqb (m_state m) Waiting)
                       || Nat.leb 2 (length (m_players m)) then
                      emit (ToSocket sid) (MError "MATCH_UNAVAILABLE") w
                    else if negb (isObjectId uid) then
                      emit (ToSocket sid) (MError "JOIN_MATCH_FAILED") w
                    else
                      let w :=
                        set_db_matches
                          (update_match targetMatchId
                             (fun m =>
                                mkMatchDoc (m_id m) (m_players m ++ [(uid, sid)])
                                  (m_category m) (m_questions m)
                                  (m_scores m ++ [(uid, 0)]) Active)
                             (db_matches w)) w in
                      let s := get_socket sid w in
                      let w :=
                        update_room a
                          (fun r =>
                             set_state Active
                               (set_players
                                  (players r ++
                                   [mkPlayer uid sid (s_username s) false false false])
                                  r)) w in
                      let w :=
                        put_socket sid
                          (mkSocket (s_userId s) (s_username s) (Some targetMatchId)) w in
                      let uids :=
                        match heap w !! a with
                        | Some r => List.map userId (players r)
                        | None => []
                        end in
                      let w := emit (ToRoom targetMatchId) (MMatchReady targetMatchId uids) w in
                      let w := emit (ToSocket sid) (MMatchJoined targetMatchId uids) w in
                      let w := emit ToAll (MMatchRemovedFromLobby targetMatchId) w in
                      snd (setTimeout (TStartMatch targetMatchId) w)
                end
          end
    end.

(** ** Question delivery and results *)

(** [startMatch(io, matchId)] *)
Definition startMatch (mid : string) (w : World) : World :=
  match get_room mid w with
  | None => w
  | Some (a, room) =>
      let w := update_room a (set_state Active) w in
      let w :=
        emit (ToRoom mid)
          (MStartBattle mid (length (questionsData room))
             (js_or (questionTimeLimit room) (JNum QUESTION_TIME_LIMIT))) w in
      snd (setTimeout (TDeliverFirst mid) w)
  end.

(** [deliverQuestion(io, matchId, questionIndex)] *)
Definition deliverQuestion (mid : string) (qi : Z) (w : World) : World :=
  match get_room mid w with
  | None => w
  | Some (a, room) =>
      match at_index (questionsData room) qi with
      | None => w
      | Some question =>
          let timeLimit :=
            js_or (questionTimeLimit room) (JNum QUESTION_TIME_LIMIT) in
          let w :=
            update_room a
              (fun r =>
                 set_startTime (Some (clock w))
                   (set_players (List.map (set_answered false) (players r)) r)) w in
          let w :=
            emit (ToRoom mid)
              (MQuestionDisplay qi question timeLimit (length (questionsData room))) w in
          let '(timeoutId, w) := setTimeout (TQuestionTimeout mid a qi) w in
          update_room a (set_timerInterval (Some timeoutId)) w
      end
  end.

(** [question.options.find(opt => opt.id === question.correctOptionId)] *)
Definition correctOption (q : Question) : option QOption :=
  List.find (fun o => Z.eqb (opt_id o) (correctOptionId q)) (q_options q).

(** [displayQuestionResults(io, matchId, questionIndex)].  [None] is the
    [TypeError] that reading [correctOption.text] raises when no option has
    the correct id, or that reading [question.options.find] raises when
    [questionsData[questionIndex]] is no question. *)
Definition displayQuestionResults (mid : string) (qi : jsval) (w : World)
  : option World :=
  match get_room mid w with
  | None => Some w
  | Some (a, room) =>
      match js_index (questionsData room) qi with
      | Absent => Some w
      | Member => None
      | Elem question =>
          match correctOption question with
          | None => None
          | Some _ =>
              let w :=
                emit (ToRoom mid)
                  (MQuestionResults qi (correctOptionId question) (scores room)
                     (answers room)) w in
              Some (update_room a (set_answers []) w)
          end
      end
  end.

(** ** Finalization *)

(** [calculateRank] of utils/calculateXP.js: the last tier whose threshold
    is reached. *)
Definition rankTiers : list (Z * string) :=
  [(0, "Novice"); (100, "Bronze"); (500, "Silver"); (1000, "Gold");
   (2500, "Platinum"); (5000, "Diamond"); (10000, "Master");
   (20000, "Grandmaster")].

Definition calculateRank (totalXP : Z) : string :=
  List.fold_left
    (fun cur tier => if totalXP >=? fst tier then snd tier else cur)
    rankTiers "Novice".

Definition includes (b : string) (l : list string) : bool :=
  List.existsb (String.eqb b) l.

Definition push_badge (cond : bool) (b : string) (l : list string)
  : list string :=
  if cond && negb (includes b l) then l ++ [b] else l.

(** The profile update of one participant at the end of a match. *)
Definition award_user (score : Z) (u : UserDoc) : UserDoc :=
  let xp := u_xp u + score in
  let b := push_badge (score >=? PERFECT_MATCH_BONUS) "Perfect Match" (u_badges u) in
  let b := push_badge (xp >=? 100) "Novice" b in
  let b := push_badge (xp >=? 1000) "Pro Gamer" b in
  let b := push_badge (xp >=? 5000) "Master" b in
  mkUser (u_id u) xp (u_weeklyXp u + score) (calculateRank xp) b.

Definition update_profiles (finalScores : JsMap Z) (us : list UserDoc)
  : list UserDoc :=
  List.fold_left
    (fun us e =>
       List.map
         (fun u => if oid_eqb (u_id u) (fst e) then award_user (snd e) u else u)
         us)
    finalScores us.

(** [arr.sort((a, b) => b.score - a.score)]: stable, descending. *)
Fixpoint insert_desc (x : string * Z) (l : list (string * Z))
  : list (string * Z) :=
  match l with
  | [] => [x]
  | y :: r => if snd x >=? snd y then x :: y :: r else y :: insert_desc x r
  end.

Definition sort_desc (l : list (string * Z)) : list (string * Z) :=
  List.fold_right insert_desc [] l.

(** The winner of [endMatch]: the first player other than the forfeiter, or
    the first of the highest scores. *)
Definition pick_winner (forfeiter : option string) (room : Room)
  : option string :=
  if truthy_ostr forfeiter then
    option_map userId
      (List.find (fun p => negb (uid_is forfeiter (userId p))) (players room))
  else
    match sort_desc (scores room) with
    | [] => None
    | (k, _) :: _ => Some k
    end.

Definition build_leaderboard (room : Room) : list (string * Z) :=
  sort_desc
    (List.filter
       (fun e =>
          List.existsb (fun p => String.eqb (userId p) (fst e)) (players room))
       (scores room)).

(** [endReason.reason || "Match completed"] *)
Definition reason_text (reason : option string) : string :=
  match reason with
  | Some r => if truthy_str r then r else "Match completed"
  | None => "Match completed"
  end.

(** The score entry at which the store run fails, if it reaches one. *)
Definition failing_entry (store : StoreRun) (entries : nat) : option nat :=
  match store with
  | FailsAtEntry i => if Nat.ltb i entries then Some i else None
  | _ => None
  end.

(** [endMatch(io, matchId, endReason)].  The casts of the score keys throw
    before the first store call, the cast of the match id inside it.  When a
    later store call rejects, the match document and the profiles of the
    entries before the failing one have been written; in every case of
    failure the [catch] only tells the room, which stays as it is. *)
Definition endMatch (mid : string) (forfeiter reason : option string)
    (store : StoreRun) (w : World) : World :=
  match get_room mid w with
  | None => w
  | Some (a, room) =>
      let finalScores := scores room in
      let winnerId := pick_winner forfeiter room in
      if List.forallb (fun e => isObjectId (fst e)) finalScores
         && isObjectId mid then
        match store with
        | FailsAtMatch => emit (ToRoom mid) (MError "END_MATCH_ERROR") w
        | _ =>
            let w :=
              set_db_matches
                (update_match mid
                   (fun m =>
                      mkMatchDoc (m_id m) (m_players m) (m_category m)
                        (m_questions m) finalScores Finished)
                   (db_matches w)) w in
            match failing_entry store (length finalScores) with
            | Some i =>
                let w :=
                  set_db_users
                    (update_profiles (List.firstn i finalScores) (db_users w))
                    w in
                emit (ToRoom mid) (MError "END_MATCH_ERROR") w
            | None =>
                let w :=
                  set_db_users (update_profiles finalScores (db_users w)) w in
                let leaderboard := build_leaderboard room in
                let w :=
                  emit (ToRoom mid)
                    (MMatchEnded mid winnerId finalScores leaderboard
                       (reason_text reason)) w in
                let w := clearTimeout (gracePeriodTimeout room) w in
                let w := clearTimeout (timerInterval room) w in
                set_gameRooms (map_delete mid (gameRooms w)) w
            end
        end
      else
        emit (ToRoom mid) (MError "END_MATCH_ERROR") w
  end.

(** ** Answer handling *)

Definition mark_first {A} (f : A -> bool) (g : A -> A) (l : list A) : list A :=
  match find_index f l with
  | Some i => alter g i l
  | None => l
  end.

(** [socket.on("submit-answer")].  [questionIndex] is used as it arrives:
    it indexes [questionsData] as a property name, and the score is written
    before the handler reads anything that only a question has. *)
Definition submit_answer (sid mid : string) (questionIndex : jsval)
    (selected : jsval) (w : World) : World :=
  let uid := s_userId (get_socket sid w) in
  match get_room mid w with
  | None => emit (ToSocket sid) (MError "MATCH_NOT_FOUND") w
  | Some (a, room) =>
      match js_index (questionsData room) questionIndex with
      | Absent => emit (ToSocket sid) (MError "QUESTION_NOT_FOUND") w
      | Member =>
          (* [question.correctOptionId] is undefined, and
             [question.options.find] throws once the score is written *)
          let correct := strict_eq selected JUndefined in
          let xp := if correct then XP_PER_CORRECT else 0 in
          let total := score_of (uid_key uid) (scores room) + xp in
          let w :=
            update_room a
              (fun r =>
                 set_answers
                   (map_set (uid_key uid)
                      (mkAnswer questionIndex selected correct xp) (answers r))
                   (set_scores (map_set (uid_key uid) total (scores r)) r)) w in
          emit (ToSocket sid) (MError "ANSWER_FAILED") w
      | Elem question =>
          let correct := strict_eq selected (JNum (correctOptionId question)) in
          let xp := if correct then XP_PER_CORRECT else 0 in
          let total := score_of (uid_key uid) (scores room) + xp in
          let w :=
            update_room a
              (fun r =>
                 set_answers
                   (map_set (uid_key uid)
                      (mkAnswer questionIndex selected correct xp) (answers r))
                   (set_scores (map_set (uid_key uid) total (scores r)) r)) w in
          match correctOption question, correct with
          | None, false => emit (ToSocket sid) (MError "ANSWER_FAILED") w
          | _, _ =>
              let w :=
                emit (ToSocket sid)
                  (MAnswerValidated questionIndex selected correct
                     (correctOptionId question) xp total) w in
              let w :=
                update_room a
                  (fun r =>
                     set_players
                       (mark_first (fun p => uid_is uid (userId p))
                          (set_answered true) (players r)) r) w in
              let w := emit (ToRoomExcept mid sid) (MOpponentAnswered uid questionIndex) w in
              let everyone :=
                match heap w !! a with
                | Some r => List.forallb answered (players r)
                | None => false
                end in
              if everyone then
                match displayQuestionResults mid questionIndex w with
                | None => emit (ToSocket sid) (MError "ANSWER_FAILED") w
                | Some w =>
                    if js_succ_ge questionIndex
                         (Z.of_nat (length (questionsData room))) then
                      snd (setTimeout (TEndAllAnswered mid) w)
                    else w
                end
              else w
          end
      end
  end.

(** [socket.on("finish-quiz")] *)
Definition finish_quiz (sid mid uid : string) (store : StoreRun) (w : World)
  : World :=
  match get_room mid w with
  | None => emit (ToSocket sid) (MError "MATCH_NOT_FOUND") w
  | Some (a, _) =>
      let w :=
        update_room a
          (fun r =>
             set_players
               (mark_first (fun p => String.eqb (userId p) uid)
                  (set_finishReady true) (players r)) r) w in
      let ready :=
        match heap w !! a with
        | Some r =>
            Nat.leb 2 (length (players r)) && List.forallb finishReady (players r)
        | None => false
        end in
      if ready then endMatch mid None (Some "Both players finished quiz") store w
      else emit (ToRoomExcept mid sid) MOpponentFinishReady w
  end.

(** [socket.on("next-question")] *)
Definition next_question (sid mid : string) (store : StoreRun) (w : World)
  : World :=
  match get_room mid w with
  | None => emit (ToSocket sid) (MError "MATCH_NOT_FOUND") w
  | Some (a, room) =>
      let i := currentQuestionIndex room + 1 in
      let w := update_room a (set_currentQuestionIndex i) w in
      if i >=? Z.of_nat (length (questionsData room)) then
        endMatch mid None None store w
      else deliverQuestion mid i w
  end.

(** ** Match control *)

(** [socket.on("forfeit-match")] *)
Definition forfeit_match (sid mid : string) (store : StoreRun) (w : World)
  : World :=
  let uid := s_userId (get_socket sid w) in
  let w :=
    match get_room mid w with
    | Some (a, room) =>
        match List.find (fun p => negb (uid_is uid (userId p))) (players room) with
        | Some opponent =>
            update_room a
              (fun r =>
                 set_scores
                   (map_set (userId opponent)
                      (score_of (userId opponent) (scores r) + FORFEIT_BONUS)
                      (scores r)) r) w
        | None => w
        end
    | None => w
    end in
  endMatch mid uid (Some "Player forfeited") store w.

(** [socket.on("reconnect-match")] *)
Definition reconnect_match (sid mid uid : string) (w : World) : World :=
  match get_room mid w with
  | None => emit (ToSocket sid) (MError "MATCH_NOT_FOUND") w
  | Some (a, _) =>
      let s := get_socket sid w in
      let w := put_socket sid (mkSocket (Some uid) (s_username s) (Some mid)) w in
      let w :=
        update_room a
          (fun r =>
             set_players
               (mark_first (fun p => String.eqb (userId p) uid)
                  (fun p => set_socketId sid (set_disconnected false p))
                  (players r)) r) w in
      let w := emit (ToRoomExcept mid sid) (MOpponentReconnected uid) w in
      match heap w !! a with
      | Some room =>
          emit (ToSocket sid)
            (MMatchStateRestored mid (currentQuestionIndex room)
               (at_index (questionsData room) (currentQuestionIndex room))
               (scores room) (state room)
               (List.map (fun p => (userId p, answered p)) (players room))) w
      | None => w
      end
  end.

(** [socket.on("disconnect")] *)
Definition disconnect (sid : string) (w : World) : World :=
  match s_matchId (get_socket sid w) with
  | None => w
  | Some mid =>
      if negb (truthy_str mid) then w
      else
        match get_room mid w with
        | None => w
        | Some (a, room) =>
            match find_index (fun p => String.eqb (socketId p) sid) (players room) with
            | None => w
            | Some i =>
                match players room !! i with
                | None => w
                | Some player =>
                    let w :=
                      update_room a
                        (fun r =>
                           set_players (alter (set_disconnected true) i (players r)) r)
                        w in
                    let w :=
                      emit (ToRoomExcept mid sid)
                        (MOpponentDisconnected (userId player)) w in
                    let '(gracePeriodTimeout', w) :=
                      setTimeout (TGracePeriod mid a (userId player)) w in
                    update_room a
                      (set_gracePeriodTimeout (Some gracePeriodTimeout')) w
                end
            end
        end
  end.

(** ** Timer callbacks *)

(** The body of a callback, run when its timer fires.  The callbacks of
    [deliverQuestion] and of [disconnect] read the room object they
    captured, not the registry. *)
Definition run_timer (cb : Timer) (store : StoreRun) (w : World) : World :=
  match cb with
  | TStartMatch mid => startMatch mid w
  | TDeliverFirst mid => deliverQuestion mid 0 w
  | TQuestionTimeout mid a qi =>
      match heap w !! a with
      | Some room =>
          if currentQuestionIndex room =? qi then
            let w := emit (ToRoom mid) (MQuestionTimeout qi) w in
            match displayQuestionResults mid (JNum qi) w with
            | Some w => w
            | None => set_crashed w
            end
          else w
      | None => w
      end
  | TEndAllAnswered mid =>
      endMatch mid None (Some "All questions answered") store w
  | TGracePeriod mid a uid =>
      match heap w !! a with
      | Some room =>
          if List.existsb
               (fun p => String.eqb (userId p) uid && disconnected p)
               (players room)
          then endMatch mid (Some uid) (Some "Did not reconnect in time") store w
          else w
      | None => w
      end
  end.

Definition timer_get (id : nat) (l : list (nat * Timer)) : option Timer :=
  option_map snd (List.find (fun e => Nat.eqb (fst e) id) l).

(** An armed timer fires: it is disarmed and its callback runs.  A handle
    that is not armed (never set, already fired, or cleared) does nothing. *)
Definition fire_timer (id : nat) (store : StoreRun) (w : World) : World :=
  match timer_get id (timers w) with
  | None => w
  | Some cb =>
      run_timer cb store (set_timers (drop_timer id (timers w)) (nextTimer w) w)
  end.

(** ** The event loop *)

Inductive Event : Type :=
| EvUserJoin (sid uid uname : string)
| EvCreateMatch (sid cid uid : string) (numberOfQuestions' timePerQuestion : jsval)
    (newId : string) (seed : list nat)
| EvJoinMatch (sid : string) (mid code : option string) (uid : string)
| EvSubmitAnswer (sid mid : string) (questionIndex : jsval) (selected : jsval)
| EvFinishQuiz (sid mid uid : string) (store : StoreRun)
| EvNextQuestion (sid mid : string) (store : StoreRun)
| EvForfeitMatch (sid mid : string) (store : StoreRun)
| EvReconnectMatch (sid mid uid : string)
| EvDisconnect (sid : string)
| EvTimer (id : nat) (store : StoreRun)
| EvClock (now : Z).

(** One turn of the event loop.  After an uncaught exception the process
    has exited and nothing runs any more. *)
Definition step (w : World) (e : Event) : World :=
  if crashed w then w
  else
    match e with
    | EvUserJoin sid uid uname => user_join sid uid uname w
    | EvCreateMatch sid cid uid n t newId seed =>
        create_match sid cid uid n t newId seed w
    | EvJoinMatch sid mid code uid => join_match sid mid code uid w
    | EvSubmitAnswer sid mid qi sel => submit_answer sid mid qi sel w
    | EvFinishQuiz sid mid uid store => finish_quiz sid mid uid store w
    | EvNextQuestion sid mid store => next_question sid mid store w
    | EvForfeitMatch sid mid store => forfeit_match sid mid store w
    | EvReconnectMatch sid mid uid => reconnect_match sid mid uid w
    | EvDisconnect sid => disconnect sid w
    | EvTimer id store => fire_timer id store w
    | EvClock now => set_clock now w
    end.

Definition run (w : World) (es : list Event) : World := List.fold_left step es w.

(** The server at start-up, over a given store. *)
Definition boot (cats : list CategoryDoc) (qs : list QuestionDoc)
    (us : list UserDoc) : World :=
  mkWorld [] [] [] cats qs [] us [] 0%nat 0 [] false.

(** ** Observations on the outbox *)

Definition is_results_for (qi : Z) (e : Emit) : bool :=
  match snd e with
  | MQuestionResults i _ _ _ => strict_eq i (JNum qi)
  | _ => false
  end.

(** Number of question-results broadcasts for index [qi] sent to room [mid]. *)
Definition results_count (mid : string) (qi : Z) (out : list Emit) : nat :=
  length
    (List.filter
       (fun e =>
          match fst e with
          | ToRoom m => String.eqb m mid && is_results_for qi e
          | _ => false
          end) out).

(** The events emitted by a step: what the outbox gained. *)
Definition emitted (w w' : World) : list Emit :=
  List.skipn (length (outbox w)) (outbox w').

(** The stored scores of the room object at address [a]. *)
Definition room_scores (a : nat) (w : World) : JsMap Z :=
  match heap w !! a with Some r => scores r | None => [] end.



(** What an answer-validated event must report. *)
Definition reports (xp total : Z) (e : Emit) : Prop :=
  match snd e with
  | MAnswerValidated _ _ _ _ x t => x = xp /\ t = total
  | _ => True
  end.

(** [xpAwarded] of the submit-answer handler. *)
Definition awarded (selected : jsval) (q : Question) : Z :=
  if strict_eq selected (JNum (correctOptionId q)) then XP_PER_CORRECT else 0.

(** Whether an event is a question-results broadcast. *)
Definition is_results (e : Emit) : bool :=
  match snd e with MQuestionResults _ _ _ _ => true | _ => false end.

(** ** A sample store and a match between two users *)

Module Demo.

Definition cidA : string := "aaaaaaaaaaaaaaaaaaaaaaaa".
Definition alice : string := "111111111111111111111111".
Definition bob : string := "222222222222222222222222".
Definition midA : string := "64b7f0c2a1d3e4f5a6b7c8d9".
Definition codeA : string := "64B7F0C2A1D3".

Definition four_options : list QOption :=
  [mkOption 1 "a"; mkOption 2 "b"; mkOption 3 "c"; mkOption 4 "d"].

Definition question (id : string) (correct : Z) : Question :=
  mkQuestion id "Which option is right?" four_options correct "medium" cidA.

Definition approved_questions : list QuestionDoc :=
  [mkQuestionDoc (question "q1" 1) (Some true) true;
   mkQuestionDoc (question "q2" 2) (Some true) true;
   mkQuestionDoc (question "q3" 3) (Some true) true].

(** The same questions, none of them approved yet. *)
Definition unapproved_questions : list QuestionDoc :=
  [mkQuestionDoc (question "q1" 1) (Some true) false;
   mkQuestionDoc (question "q2" 2) (Some true) false;
   mkQuestionDoc (question "q3" 3) (Some true) false].

Definition users : list UserDoc :=
  [mkUser alice 0 0 "Novice" []; mkUser bob 0 0 "Novice" []].

Definition server (qs : list QuestionDoc) : World :=
  boot [mkCategory cidA "Math"] qs users.

(** Both users connect, alice creates a three-question match, bob joins by
    code, the match starts (timers 0 and 1) and question 0 is delivered
    (arming timer 2, its deadline). *)
Definition opening : list Event :=
  [EvUserJoin "s1" alice "alice"; EvUserJoin "s2" bob "bob";
   EvCreateMatch "s1" cidA alice (JNum 3) (JNum 30) midA [0; 0; 0]%nat;
   EvJoinMatch "s2" None (Some codeA) bob;
   EvTimer 0 AllSucceed; EvTimer 1 AllSucceed].

Definition started : World :=
  Eval vm_compute in run (server approved_questions) opening.

(** The room of the match once started, and its first question. *)
Definition room0 : Room :=
  mkRoom midA codeA cidA "Math" 3 (JNum 30)
    [mkPlayer alice "s1" (Some "alice") false false false;
     mkPlayer bob "s2" (Some "bob") false false false]
    [question "q1" 1; question "q2" 2; question "q3" 3]
    0 [(alice, 0)] [] Active (Some 0) (Some 2%nat) None 0.

Definition first_question : Question := question "q1" 1.

(** Both players answer question 0; nobody asks for the next question. *)
Definition both_answered : World :=
  Eval vm_compute in
    run started
      [EvSubmitAnswer "s1" midA (JNum 0) (JNum 1);
       EvSubmitAnswer "s2" midA (JNum 0) (JNum 2)].

Definition room_answered : Room :=
  Eval vm_compute in
    match heap both_answered !! 0%nat with
    | Some r => r
    | None => room0
    end.

(** Instead, a player asks for the next question at once: question 1 is
    delivered (arming timer 3) while the deadline of question 0 is still
    armed. *)
Definition second_question : World :=
  Eval vm_compute in run started [EvNextQuestion "s1" midA AllSucceed].

(** Alice forfeits the started match, which finalizes it. *)
Definition finalized : World :=
  Eval vm_compute in forfeit_match "s1" midA AllSucceed started.

Definition carol : string := "333333333333333333333333".

(** A match created over a store whose questions are all unapproved. *)
Definition created_unapproved : World :=
  Eval vm_compute in
    create_match "s1" cidA alice (JNum 3) (JNum 30) midA [0; 0; 0]%nat
      (server unapproved_questions).

End Demo.

(** ** Orderings used to state what [endMatch] computes *)

(** A list of scored entries in descending order of score. *)
Fixpoint descending (l : list (string * Z)) : Prop :=
  match l with
  | [] => True
  | x :: r => (forall y, In y r -> snd y <= snd x) /\ descending r
  end.

(** The entries of the final scores [fs] whose key is the id of [u]. *)
Definition entries_of (fs : JsMap Z) (u : UserDoc) : JsMap Z :=
  List.filter (fun e => oid_eqb (u_id u) (fst e)) fs.

(** The profile of one user after a match with final scores [fs]: one
    award for each entry that is theirs, in the order of the entries. *)
Definition profile_after (fs : JsMap Z) (u : UserDoc) : UserDoc :=
  List.fold_left (fun u e => award_user (snd e) u) (entries_of fs u) u.

(** Whether a store run fails for a room with [entries] score entries. *)
Definition store_fails (store : StoreRun) (entries : nat) : bool :=
  match store with
  | AllSucceed => false
  | FailsAtMatch => true
  | FailsAtEntry i => Nat.ltb i entries
  end.

(** ** Well-formed worlds *)

(** A room has a player, is never marked finished, is active as soon as it
    has a second player, and its score object has distinct keys. *)
Definition room_ok (r : Room) : Prop :=
  (1 <= length (players r))%nat /\
  state r <> Finished /\
  ((2 <= length (players r))%nat -> state r = Active) /\
  List.NoDup (List.map fst (scores r)).

(** Every entry of the registry holds an allocated room, of which its key
    is the match id or the match code. *)
Definition registry_ok (w : World) : Prop :=
  forall key a, In (key, a) (gameRooms w) ->
    exists room, heap w !! a = Some room /\
                 (matchId room = key \/ matchCode room = key).

(** The armed handles are distinct and below the next handle to be given
    (a bookkeeping fact of the table of timers, used to keep the invariant
    inductive). *)
Definition timers_ok (w : World) : Prop :=
  (forall id cb, In (id, cb) (timers w) -> (id < nextTimer w)%nat) /\
  List.NoDup (List.map fst (timers w)).

Definition well_formed (w : World) : Prop :=
  registry_ok w /\
  (forall a r, heap w !! a = Some r -> room_ok r) /\
  timers_ok w.

(** ** How a room object changes over time *)

Definition is_next_question (e : Event) : bool :=
  match e with EvNextQuestion _ _ _ => true | _ => false end.

(** [r'] is a later state of the room object [r], its question index having
    moved forward by at most [n]. *)
Definition room_evolves (n : Z) (r r' : Room) : Prop :=
  matchId r' = matchId r /\ matchCode r' = matchCode r /\
  categoryId r' = categoryId r /\ categoryName r' = categoryName r /\
  numberOfQuestions r' = numberOfQuestions r /\
  questionTimeLimit r' = questionTimeLimit r /\
  questionsData r' = questionsData r /\ createdAt r' = createdAt r /\
  currentQuestionIndex r <= currentQuestionIndex r' <= currentQuestionIndex r + n /\
  (exists more, List.map userId (players r') = List.map userId (players r) ++ more) /\
  (state r = Active -> state r' = Active) /\
  incl (List.map fst (scores r)) (List.map fst (scores r')).

Definition heap_evolves (n : Z) (w w' : World) : Prop :=
  forall a r, heap w !! a = Some r ->
    exists r', heap w' !! a = Some r' /\ room_evolves n r r'.

(** ** A store whose questions lack the option named as correct *)

Module Lacking.

(** The schema bounds option ids and [correctOptionId] to 1..4 but does not
    ask that an option with the correct id exists. *)
Definition question (id : string) : Question :=
  mkQuestion id "Which option is right?"
    [mkOption 1 "one"; mkOption 2 "two"] 3 "medium" Demo.cidA.

Definition questions : list QuestionDoc :=
  [mkQuestionDoc (question "q1") (Some true) true;
   mkQuestionDoc (question "q2") (Some true) true;
   mkQuestionDoc (question "q3") (Some true) true].

(** The match of [Demo.opening] over this store: question 0 is on display
    and its deadline is timer 2. *)
Definition started : World :=
  Eval vm_compute in run (Demo.server questions) Demo.opening.

Definition room0 : Room :=
  Eval vm_compute in
    match heap started !! 0%nat with
    | Some r => r
    | None =>
        mkRoom "" "" "" "" 0 JUndefined [] [] 0 [] [] Waiting None None None 0
    end.

End Lacking.

(** ** The question-display event of a room *)

(** What [deliverQuestion] sends to the room for question [j], if there is
    such a question. *)
Definition display_of (mid : string) (room : Room) (j : Z) : list Emit :=
  match at_index (questionsData room) j with
  | Some q =>
      [(ToRoom mid,
        MQuestionDisplay j q
          (js_or (questionTimeLimit room) (JNum QUESTION_TIME_LIMIT))
          (length (questionsData room)))]
  | None => []
  end.

(** ** Levels and badges (utils/calculateXP.js) *)

(** A parameter with default value [d]: the default replaces a missing
    argument. *)
Definition param_default (d : Z) (x : option Z) : Z :=
  match x with Some v => v | None => d end.

(** [calculateLevel(totalXP = 0)]:
    [Math.min(Math.floor(totalXP / 500) + 1, 100)], on integers. *)
Definition calculateLevel (totalXP : option Z) : Z :=
  let totalXP := param_default 0 totalXP in
  let level := totalXP / 500 + 1 in
  Z.min level 100.

(** [[...new Set(badges)]]: the first occurrence of each element, in order. *)
Definition dedupe (l : list string) : list string :=
  List.fold_left (fun acc b => if includes b acc then acc else acc ++ [b]) l [].

(** [if (c) badges.push(b)] *)
Definition push_if (c : bool) (b : string) (badges : list string) : list string :=
  if c then badges ++ [b] else badges.

(** The badges collected by [checkBadges] before duplicates are removed. *)
Definition collected_badges (totalXP score streak : Z) : list string :=
  let badges := [] in
  let badges := push_if (totalXP >=? 100) "First Steps" badges in
  let badges := push_if (totalXP >=? 500) "Rising Star" badges in
  let badges := push_if (totalXP >=? 1000) "Pro Gamer" badges in
  let badges := push_if (totalXP >=? 5000) "Elite Player" badges in
  let badges := push_if (totalXP >=? 10000) "Legend" badges in
  let badges := push_if (score =? 100) "Perfect Match" badges in
  let badges := push_if (score >=? 90) "Expert" badges in
  let badges := push_if (score >=? 80) "Skilled" badges in
  let badges := push_if (streak >=? 5) "On Fire" badges in
  let badges := push_if (streak >=? 10) "Unstoppable" badges in
  let badges := push_if (streak >=? 25) "Dominator" badges in
  badges.

(** [checkBadges(totalXP = 0, score = 0, streak = 0)] *)
Definition checkBadges (totalXP score streak : option Z) : list string :=
  dedupe
    (collected_badges (param_default 0 totalXP) (param_default 0 score)
       (param_default 0 streak)).

(** ** The sample match on its last question *)

Module LastQuestion.

(** The match of [Demo.started] after two next-question requests: question
    2, the last of three, is on display. *)
Definition reached : World :=
  Eval vm_compute in
    run Demo.started (List.repeat (EvNextQuestion "s1" Demo.midA AllSucceed) 2).

Definition room2 : Room :=
  Eval vm_compute in
    match heap reached !! 0%nat with
    | Some r => r
    | None => Demo.room0
    end.

End LastQuestion.

(** The conditions of [checkBadges] and their badges, in program order. *)
Definition badge_table (totalXP score streak : Z) : list (bool * string) :=
  [(totalXP >=? 100, "First Steps"); (totalXP >=? 500, "Rising Star");
   (totalXP >=? 1000, "Pro Gamer"); (totalXP >=? 5000, "Elite Player");
   (totalXP >=? 10000, "Legend"); (score =? 100, "Perfect Match");
   (score >=? 90, "Expert"); (score >=? 80, "Skilled");
   (streak >=? 5, "On Fire"); (streak >=? 10, "Unstoppable");
   (streak >=? 25, "Dominator")].

(** The badges of the table whose condition holds. *)
Definition held_badges (t : list (bool * string)) : list string :=
  List.flat_map (fun p : bool * string => if fst p then [snd p] else []) t.

(** ** The sample match just after the join *)

Module Joined.

(** Both users have connected, alice has created the match and bob has
    joined it: the start timer (handle 0) is armed. *)
Definition reached : World :=
  Eval vm_compute in
    run (Demo.server Demo.approved_questions)
      [EvUserJoin "s1" Demo.alice "alice"; EvUserJoin "s2" Demo.bob "bob";
       EvCreateMatch "s1" Demo.cidA Demo.alice (JNum 3) (JNum 30) Demo.midA
         [0; 0; 0]%nat;
       EvJoinMatch "s2" None (Some Demo.codeA) Demo.bob].

Definition room : Room :=
  Eval vm_compute in
    match heap reached !! 0%nat with
    | Some r => r
    | None => Demo.room0
    end.

End Joined.

(** ** Validation of a question payload (middleware/validationMiddleware.js) *)

(** The loop of [validateQuestion] over the options: the message of the
    first option that is refused.  An id of 0 and an empty text are falsy. *)
Fixpoint first_bad_option (options : list QOption) : option string :=
  match options with
  | [] => None
  | o :: r =>
      if (opt_id o =? 0) || negb (truthy_str (opt_text o)) then
        Some "Each option must have id (1-4) and text"
      else if (opt_id o <? 1) || (opt_id o >? 4) then
        Some "Option ids must be 1-4"
      else first_bad_option r
  end.

(** [validateQuestion(req, res, next)] on a body whose [text] is a string,
    whose [options] is an array of options with an integer id and a string
    text, and whose [correctOptionId] is an integer: the message of the 400
    answer, or [None] when [next()] is called. *)
Definition validateQuestion (text : string) (options : list QOption)
    (correctOptionId : Z) (difficulty : option string) : option string :=
  if negb (truthy_str text) || Nat.ltb (String.length text) 10 then
    Some "Question text is required and must be at least 10 characters"
  else if negb (Nat.eqb (length options) 4) then
    Some "Question must have exactly 4 options"
  else
    match first_bad_option options with
    | Some message => Some message
    | None =>
        if (correctOptionId =? 0) || (correctOptionId <? 1)
           || (correctOptionId >? 4) then
          Some "Correct option ID must be between 1-4"
        else if match difficulty with
                | Some d =>
                    truthy_str d && negb (includes d ["easy"; "medium"; "hard"])
                | None => false
                end then
          Some "Difficulty must be easy, medium, or hard"
        else None
    end.

(** ** Rank of a user (controllers/leaderboardController.js) *)





(** * Properties *)

(** ** Basic facts *)

Ltac wsimpl :=
  cbn [gameRooms heap sockets db_categories db_questions db_matches db_users
       timers nextTimer clock outbox crashed set_gameRooms set_heap
       set_sockets set_db_matches set_db_users set_timers set_clock
       set_crashed emit update_room put_socket setTimeout fst snd] in *.

(** Reduces [emitted w w'] once the outbox of [w'] is that of [w] with
    events appended. *)
Ltac emitted_norm :=
  unfold emitted; wsimpl;
  rewrite <- ?List.app_assoc, List.skipn_app, List.skipn_all, Nat.sub_diag;
  cbn [List.skipn List.app].

Lemma strict_eq_num (v : jsval) (n : Z) :
  strict_eq v (JNum n) = true <-> v = JNum n.
Proof.
  destruct v; simpl; split; try discriminate; try congruence.
  - intros H. apply Z.eqb_eq in H. congruence.
  - intros H. inversion H. apply Z.eqb_refl.
Qed.

Lemma map_get_set_eq {V} (k : string) (v : V) (m : JsMap V) :
  map_get k (map_set k v m) = Some v.
Proof.
  induction m as [|[k' v'] r IH]; simpl.
  - now rewrite String.eqb_refl.
  - destruct (String.eqb k' k) eqn:E; simpl.
    + now rewrite String.eqb_refl.
    + now rewrite E.
Qed.

Lemma map_get_set_ne {V} (k k0 : string) (v : V) (m : JsMap V) :
  k <> k0 -> map_get k0 (map_set k v m) = map_get k0 m.
Proof.
  intros Hne. induction m as [|[k' v'] r IH]; simpl.
  - destruct (String.eqb k k0) eqn:E;
      [apply String.eqb_eq in E; congruence | reflexivity].
  - destruct (String.eqb k' k) eqn:E; simpl.
    + apply String.eqb_eq in E; subst k'.
      destruct (String.eqb k k0) eqn:E2;
        [apply String.eqb_eq in E2; congruence | reflexivity].
    + destruct (String.eqb k' k0); [reflexivity | apply IH].
Qed.

Lemma map_get_delete_eq {V} (k : string) (m : JsMap V) :
  map_get k (map_delete k m) = None.
Proof.
  induction m as [|[k' v'] r IH]; simpl; [reflexivity|].
  destruct (String.eqb k' k) eqn:E; simpl; [exact IH | now rewrite E].
Qed.

Lemma map_get_delete_ne {V} (k k0 : string) (m : JsMap V) :
  k <> k0 -> map_get k0 (map_delete k m) = map_get k0 m.
Proof.
  intros Hne. induction m as [|[k' v'] r IH]; simpl; [reflexivity|].
  destruct (String.eqb k' k) eqn:E; simpl.
  - apply String.eqb_eq in E; subst k'.
    destruct (String.eqb k k0) eqn:E2;
      [apply String.eqb_eq in E2; congruence | exact IH].
  - destruct (String.eqb k' k0); [reflexivity | exact IH].
Qed.

Lemma score_of_set_eq (k : string) (v : Z) (m : JsMap Z) :
  score_of k (map_set k v m) = v.
Proof. unfold score_of. now rewrite map_get_set_eq. Qed.

Lemma score_of_set_ne (k k0 : string) (v : Z) (m : JsMap Z) :
  k <> k0 -> score_of k0 (map_set k v m) = score_of k0 m.
Proof. intros H. unfold score_of. now rewrite map_get_set_ne. Qed.

Lemma get_room_inv (k : string) (w : World) (a : nat) (r : Room) :
  get_room k w = Some (a, r) <->
  map_get k (gameRooms w) = Some a /\ heap w !! a = Some r.
Proof.
  unfold get_room.
  destruct (map_get k (gameRooms w)) as [a'|];
    [|split; [discriminate | intros [? _]; discriminate]].
  destruct (heap w !! a') as [r'|] eqn:E.
  - split.
    + intros H. inversion H; subst. auto.
    + intros [H1 H2]. inversion H1; subst. rewrite E in H2.
      inversion H2; subst. reflexivity.
  - split; [discriminate|]. intros [H1 H2]. inversion H1; subst. congruence.
Qed.

Lemma get_room_update (k : string) (w : World) (a : nat) (r : Room)
    (f : Room -> Room) :
  get_room k w = Some (a, r) -> get_room k (update_room a f w) = Some (a, f r).
Proof.
  intros H. apply get_room_inv in H as [H1 H2]. apply get_room_inv.
  split; [exact H1|]. cbn. rewrite list_lookup_alter_eq, H2. reflexivity.
Qed.

Lemma get_room_none (k : string) (w : World) :
  map_get k (gameRooms w) = None -> get_room k w = None.
Proof. intros H. unfold get_room. now rewrite H. Qed.

Lemma emitted_app (w w' : World) (l : list Emit) :
  outbox w' = outbox w ++ l -> emitted w w' = l.
Proof.
  intros H. unfold emitted. rewrite H.
  rewrite List.skipn_app, List.skipn_all, Nat.sub_diag. reflexivity.
Qed.

Lemma room_scores_at (a : nat) (w : World) (r : Room) :
  heap w !! a = Some r -> room_scores a w = scores r.
Proof. intros H. unfold room_scores. now rewrite H. Qed.

(** ** Answer validation and scoring *)

(** What [displayQuestionResults] does when it returns: nothing, or one
    broadcast followed by the reset of the answer log. *)
Lemma displayQuestionResults_inv (mid : string) (qi : jsval) (w w' : World) :
  displayQuestionResults mid qi w = Some w' ->
  w' = w \/
  exists a room q,
    get_room mid w = Some (a, room) /\
    js_index (questionsData room) qi = Elem q /\
    w' = update_room a (set_answers [])
           (emit (ToRoom mid)
              (MQuestionResults qi (correctOptionId q) (scores room) (answers room))
              w).
Proof.
  unfold displayQuestionResults. intros H.
  destruct (get_room mid w) as [[a room]|] eqn:Hg; [|left; congruence].
  destruct (js_index (questionsData room) qi) as [q| |] eqn:Hq;
    [|discriminate|left; congruence].
  destruct (correctOption q); [|discriminate].
  right. exists a, room, q. inversion H. auto.
Qed.

Lemma submit_answer_room (sid mid : string) (qi : jsval) (sel : jsval)
    (w : World) (a : nat) (room : Room) (q : Question) :
  get_room mid w = Some (a, room) ->
  js_index (questionsData room) qi = Elem q ->
  let key := uid_key (s_userId (get_socket sid w)) in
  let total := score_of key (scores room) + awarded sel q in
  let w' := submit_answer sid mid qi sel w in
  gameRooms w' = gameRooms w /\
  sockets w' = sockets w /\
  (exists room',
     heap w' !! a = Some room' /\
     questionsData room' = questionsData room /\
     scores room' = map_set key total (scores room)) /\
  Forall (reports (awarded sel q) total) (emitted w w').
Proof.
  intros Hg Hq key total w'. subst w'. unfold submit_answer. rewrite Hg, Hq.
  fold key. fold (awarded sel q). fold total.
  pose proof Hg as Hg'. apply get_room_inv in Hg' as [Hk Hh].
  repeat match goal with
  | |- context [match correctOption q with _ => _ end] => destruct (correctOption q)
  | |- context [if strict_eq ?x ?y then _ else _] => destruct (strict_eq x y)
  | |- context [if ?b then _ else _] => destruct b
  | |- context [match displayQuestionResults ?m ?i ?w1 with _ => _ end] =>
      let Hd := fresh "Hd" in
      destruct (displayQuestionResults m i w1) eqn:Hd;
      [apply displayQuestionResults_inv in Hd
         as [->|(a' & room' & q' & Hg' & Hq' & ->)];
       [|apply get_room_inv in Hg' as [Hk' Hh']; wsimpl;
         rewrite Hk in Hk'; inversion Hk'; subst a';
         rewrite !list_lookup_alter_eq, Hh in Hh'; inversion Hh'; subst room']|]
  end.
  all: split; [reflexivity|]; split; [reflexivity|]; split;
    [ eexists; split;
      [ wsimpl; rewrite !list_lookup_alter_eq, Hh; reflexivity
      | split; reflexivity ]
    | emitted_norm; repeat constructor ].
Qed.

Lemma started_resolves :
  get_room Demo.midA Demo.started = Some (0%nat, Demo.room0).
Proof. vm_compute. reflexivity. Qed.

(** C3: the guard of submit-answer lets through an index that names no
    question.  On the started sample match alice sends the index [length]
    and no [selectedOptionId]: [questionsData.length] is 3, which passes the
    test for a missing question, the missing option equals the missing
    [correctOptionId] of the number 3, and alice's score grows by 10 and the
    answer is logged as correct before the handler fails on the options of a
    question that is none.  The caller is told ANSWER_FAILED, not
    QUESTION_NOT_FOUND. *)
Theorem C3_length_index_awards :
  let w' := submit_answer "s1" Demo.midA (JStr "length") JUndefined
              Demo.started in
  js_index (questionsData Demo.room0) (JStr "length") = Member /\
  room_scores 0 Demo.started = [(Demo.alice, 0)] /\
  room_scores 0 w' = [(Demo.alice, 10)] /\
  (exists room,
     heap w' !! 0%nat = Some room /\
     answers room
     = [(Demo.alice, mkAnswer (JStr "length") JUndefined true 10)]) /\
  emitted Demo.started w' = [(ToSocket "s1", MError "ANSWER_FAILED")].
Proof.
  vm_compute. repeat split. eexists. split; reflexivity.
Qed.

(** C9: submit-answer is not idempotent per question.  On any room, for an
    index that names a question (a number in range, or the decimal writing
    of one), each submission of the correct option adds 10 to the
    submitter's running score whatever the submitter's [answered] flag is:
    two such submissions in a row add 20. *)
Theorem C9_resubmission_scores_again (sid mid : string) (qi : jsval) (w : World)
    (a : nat) (room : Room) (q : Question) :
  get_room mid w = Some (a, room) ->
  js_index (questionsData room) qi = Elem q ->
  let key := uid_key (s_userId (get_socket sid w)) in
  let sel := JNum (correctOptionId q) in
  let w1 := submit_answer sid mid qi sel w in
  let w2 := submit_answer sid mid qi sel w1 in
  score_of key (room_scores a w1) = score_of key (room_scores a w) + 10 /\
  score_of key (room_scores a w2) = score_of key (room_scores a w) + 20.
Proof.
  intros Hg Hq key sel w1 w2.
  destruct (submit_answer_room sid mid qi sel w a room q Hg Hq)
    as (Hr1 & Hs1 & (room1 & Hh1 & Hq1 & Hsc1) & _).
  fold w1 in Hr1, Hs1, Hh1. fold key in Hsc1.
  assert (Hg1 : get_room mid w1 = Some (a, room1)).
  { apply get_room_inv. apply get_room_inv in Hg as [Hk _].
    rewrite Hr1. auto. }
  assert (Hq1' : js_index (questionsData room1) qi = Elem q) by now rewrite Hq1.
  destruct (submit_answer_room sid mid qi sel w1 a room1 q Hg1 Hq1')
    as (_ & _ & (room2 & Hh2 & _ & Hsc2) & _).
  fold w2 in Hh2.
  assert (Hkey : uid_key (s_userId (get_socket sid w1)) = key).
  { unfold key, get_socket. now rewrite Hs1. }
  rewrite Hkey in Hsc2.
  assert (Haw : awarded sel q = 10).
  { unfold awarded, sel. rewrite (proj2 (strict_eq_num _ _) eq_refl). reflexivity. }
  rewrite Haw in Hsc1, Hsc2.
  apply get_room_inv in Hg as [_ Hh].
  rewrite (room_scores_at _ _ _ Hh), (room_scores_at _ _ _ Hh1),
    (room_scores_at _ _ _ Hh2), Hsc2, Hsc1.
  rewrite !score_of_set_eq. lia.
Qed.

Lemma C9_resubmission_scores_again_witness :
    get_room Demo.midA Demo.started = Some (0%nat, Demo.room0) /\
    js_index (questionsData Demo.room0) (JNum 0) = Elem Demo.first_question /\
    let w1 := submit_answer "s1" Demo.midA (JNum 0) (JNum 1) Demo.started in
    let w2 := submit_answer "s1" Demo.midA (JNum 0) (JNum 1) w1 in
    score_of Demo.alice (room_scores 0 w1)
    = score_of Demo.alice (room_scores 0 Demo.started) + 10 /\
    score_of Demo.alice (room_scores 0 w2)
    = score_of Demo.alice (room_scores 0 Demo.started) + 20.
Proof.
  split; [exact started_resolves|]. split; [reflexivity|].
  exact (C9_resubmission_scores_again "s1" Demo.midA (JNum 0) Demo.started
           0%nat Demo.room0 Demo.first_question started_resolves eq_refl).
Defined.


(** ** Scores never decrease *)



























(** ** Validation of create-match *)

Lemma js_lt_num (x b : Z) : js_lt (JNum x) b = (x <? b).
Proof. unfold js_lt, to_number, num_lt. simpl. now rewrite Z.mul_1_r. Qed.

Lemma js_gt_num (x b : Z) : js_gt (JNum x) b = (x >? b).
Proof. unfold js_gt, to_number, num_gt. simpl. now rewrite Z.mul_1_r. Qed.

(** For numbers the two range checks do what their messages say: the
    effective count is [numberOfQuestions || 5], the effective time limit
    [timePerQuestion || 30]; a count outside [3,20] is answered
    INVALID_QUESTION_COUNT, and with the count in range a time limit
    outside [15,300] is answered INVALID_TIME_LIMIT, the error being the
    only effect. *)
Lemma create_match_numeric_bounds (sid cid uid : string) (n t : Z)
    (newId : string) (seed : list nat) (w : World) :
  let questionsCount := if n =? 0 then QUESTIONS_PER_MATCH else n in
  let timeLimit := if t =? 0 then QUESTION_TIME_LIMIT else t in
  let w' := create_match sid cid uid (JNum n) (JNum t) newId seed w in
  (questionsCount < 3 \/ 20 < questionsCount ->
     w' = emit (ToSocket sid) (MError "INVALID_QUESTION_COUNT") w) /\
  (3 <= questionsCount <= 20 -> timeLimit < 15 \/ 300 < timeLimit ->
     w' = emit (ToSocket sid) (MError "INVALID_TIME_LIMIT") w).
Proof.
  intros qc tl w'. subst w'. unfold create_match, js_or, js_truthy.
  assert (Hqc : (if negb (n =? 0) then JNum n else JNum QUESTIONS_PER_MATCH)
                = JNum qc) by (subst qc; now destruct (n =? 0)).
  assert (Htl : (if negb (t =? 0) then JNum t else JNum QUESTION_TIME_LIMIT)
                = JNum tl) by (subst tl; now destruct (t =? 0)).
  rewrite Hqc, Htl, !js_lt_num, !js_gt_num.
  destruct ((qc <? 3) || (qc >? 20)) eqn:Ec.
  - split; [reflexivity|]. intros Hr.
    apply orb_true_iff in Ec as [E|E]; [apply Z.ltb_lt in E; lia|].
    rewrite Z.gtb_ltb in E. apply Z.ltb_lt in E. lia.
  - apply orb_false_elim in Ec as [E1 E2].
    apply Z.ltb_ge in E1. rewrite Z.gtb_ltb in E2. apply Z.ltb_ge in E2.
    split; [intros; lia|]. intros _ Ht.
    destruct ((tl <? 15) || (tl >? 300)) eqn:Et; [reflexivity|].
    apply orb_false_elim in Et as [E3 E4].
    apply Z.ltb_ge in E3. rewrite Z.gtb_ltb in E4. apply Z.ltb_ge in E4.
    lia.
Qed.

(** C4: the range checks compare the payload values as they arrive.  A
    [timePerQuestion] that is not a number, here the string [abc], is
    neither below 15 nor above 300 for the two comparisons, so the request
    is not refused: alice's create-match for three questions registers a
    room under the match id and the join code, with [abc] as its time
    limit, and creates the match document. *)
Theorem C4_time_limit_not_a_number :
  let w := run (Demo.server Demo.approved_questions)
             [EvUserJoin "s1" Demo.alice "alice"] in
  let w' := create_match "s1" Demo.cidA Demo.alice (JNum 3) (JStr "abc")
              Demo.midA [0; 0; 0]%nat w in
  to_number (JStr "abc") = NotANumber /\
  js_lt (JStr "abc") 15 = false /\ js_gt (JStr "abc") 300 = false /\
  List.map fst (gameRooms w) = [] /\ db_matches w = [] /\
  List.map fst (gameRooms w') = [Demo.midA; Demo.codeA] /\
  (exists room,
     get_room Demo.codeA w' = Some (0%nat, room) /\
     questionTimeLimit room = JStr "abc" /\
     numberOfQuestions room = 3 /\
     state room = Waiting) /\
  List.map m_id (db_matches w') = [Demo.midA] /\
  emitted w w'
  = [(ToSocket "s1", MMatchCreated Demo.midA Demo.codeA);
     (ToAll, MMatchAvailable Demo.midA)].
Proof.
  vm_compute. repeat split. eexists. repeat split.
Qed.

(** ** Reconnection *)

Lemma mark_first_cons {A} (f : A -> bool) (g : A -> A) (x : A) (l : list A) :
  mark_first f g (x :: l) = if f x then g x :: l else x :: mark_first f g l.
Proof.
  unfold mark_first. simpl. destruct (f x); [reflexivity|].
  destruct (find_index f l); reflexivity.
Qed.

Lemma find_mark_first {A} (f : A -> bool) (g : A -> A) (l : list A) :
  (forall x, f (g x) = f x) ->
  List.find f (mark_first f g l) = option_map g (List.find f l).
Proof.
  intros Hfg. induction l as [|x l IH]; [reflexivity|].
  rewrite mark_first_cons. simpl. destruct (f x) eqn:E; simpl.
  - now rewrite Hfg, E.
  - now rewrite E.
Qed.

Lemma mark_first_none {A} (f : A -> bool) (g : A -> A) (l : list A) :
  List.find f l = None -> mark_first f g l = l.
Proof.
  induction l as [|x l IH]; [reflexivity|].
  rewrite mark_first_cons. simpl. destruct (f x); [discriminate|].
  intros H. now rewrite IH.
Qed.

(** C10: reconnect-match answers MATCH_NOT_FOUND exactly when
    [gameRooms.get(matchId)] finds no room.  When a room is found the
    request succeeds for any [userId]: the first player with that id (if
    there is one; nothing requires it) gets [disconnected = false] and the
    caller's socket id, the opponent is notified, and the caller receives
    the room state, whose current question is the stored snapshot, with its
    [correctOptionId]. *)
Theorem C10_reconnect_match (sid mid uid : string) (w : World) :
  let w' := reconnect_match sid mid uid w in
  (get_room mid w = None <->
   In (ToSocket sid, MError "MATCH_NOT_FOUND") (emitted w w')) /\
  (get_room mid w = None ->
   w' = emit (ToSocket sid) (MError "MATCH_NOT_FOUND") w) /\
  (forall a room, get_room mid w = Some (a, room) ->
     exists room',
       heap w' !! a = Some room' /\
       players room' =
         mark_first (fun p => String.eqb (userId p) uid)
           (fun p => set_socketId sid (set_disconnected false p)) (players room) /\
       (forall p,
          List.find (fun p => String.eqb (userId p) uid) (players room') = Some p ->
          disconnected p = false /\ socketId p = sid) /\
       (List.find (fun p => String.eqb (userId p) uid) (players room) = None ->
          players room' = players room) /\
       emitted w w' =
         [(ToRoomExcept mid sid, MOpponentReconnected uid);
          (ToSocket sid,
           MMatchStateRestored mid (currentQuestionIndex room)
             (at_index (questionsData room) (currentQuestionIndex room))
             (scores room) (state room)
             (List.map (fun p => (userId p, answered p)) (players room')))]).
Proof.
  intros w'. subst w'. unfold reconnect_match.
  destruct (get_room mid w) as [[a room]|] eqn:Hg.
  - apply get_room_inv in Hg as [Hk Hh].
    assert (Hh' : heap (update_room a
                    (fun r => set_players
                       (mark_first (fun p => String.eqb (userId p) uid)
                          (fun p => set_socketId sid (set_disconnected false p))
                          (players r)) r)
                    (put_socket sid
                       (mkSocket (Some uid) (s_username (get_socket sid w)) (Some mid))
                       w)) !! a
                  = Some (set_players
                            (mark_first (fun p => String.eqb (userId p) uid)
                               (fun p => set_socketId sid (set_disconnected false p))
                               (players room)) room)).
    { wsimpl. now rewrite list_lookup_alter_eq, Hh. }
    wsimpl. rewrite list_lookup_alter_eq, Hh. cbn [fmap option_fmap option_map].
    split; [|split].
    + split; [discriminate|]. emitted_norm. intros [H|[H|[]]]; discriminate.
    + discriminate.
    + intros a0 room0 H0. inversion H0; subst a0 room0. eexists.
      split; [wsimpl; rewrite list_lookup_alter_eq, Hh; reflexivity|].
      split; [reflexivity|]. split; [|split].
      * intros p. cbn [players set_players].
        rewrite find_mark_first by reflexivity.
        destruct (List.find _ (players room)); [|discriminate].
        intros H. inversion H; subst. split; reflexivity.
      * intros H. cbn [players set_players]. now apply mark_first_none.
      * emitted_norm. reflexivity.
  - split; [|split].
    + split; [|reflexivity]. intros _. emitted_norm. now left.
    + reflexivity.
    + intros a room H. discriminate.
Qed.

Lemma C10_reconnect_match_witness :
  get_room "nowhere" Demo.started = None /\
  reconnect_match "s9" "nowhere" "stranger" Demo.started
  = emit (ToSocket "s9") (MError "MATCH_NOT_FOUND") Demo.started /\
  get_room Demo.midA Demo.started = Some (0%nat, Demo.room0) /\
  emitted Demo.started (reconnect_match "s9" Demo.midA "stranger" Demo.started)
  = [(ToRoomExcept Demo.midA "s9", MOpponentReconnected "stranger");
     (ToSocket "s9",
      MMatchStateRestored Demo.midA 0 (Some Demo.first_question)
        [(Demo.alice, 0)] Active [(Demo.alice, false); (Demo.bob, false)])].
Proof.
  assert (H0 : get_room "nowhere" Demo.started = None)
    by (vm_compute; reflexivity).
  split; [exact H0|]. split.
  - exact (proj1 (proj2 (C10_reconnect_match "s9" "nowhere" "stranger" Demo.started))
             H0).
  - split; [exact started_resolves|].
    destruct (proj2 (proj2 (C10_reconnect_match "s9" Demo.midA "stranger"
                              Demo.started)) 0%nat Demo.room0 started_resolves)
      as (room' & _ & Hp & _ & _ & He).
    rewrite He, Hp. vm_compute. reflexivity.
Defined.

(** ** Finalization and forfeiture *)

Lemma isObjectId_truthy (s : string) : isObjectId s = true -> truthy_str s = true.
Proof. destruct s; [discriminate | reflexivity]. Qed.

Lemma forallb_map_set {V} (P : string * V -> bool) (k : string) (v : V)
    (m : JsMap V) :
  List.forallb P m = true -> P (k, v) = true ->
  List.forallb P (map_set k v m) = true.
Proof.
  intros Hm Hk. induction m as [|[k' v'] r IH]; simpl.
  - now rewrite Hk.
  - simpl in Hm. apply andb_true_iff in Hm as [H1 H2].
    destruct (String.eqb k' k); simpl.
    + now rewrite Hk, H2.
    + now rewrite H1, IH.
Qed.

(** A finalization whose store calls succeed: one match-ended event, and
    the key it was called with is removed from the registry. *)
Lemma endMatch_ok (mid : string) (forfeiter reason : option string) (w : World)
    (a : nat) (room : Room) :
  get_room mid w = Some (a, room) ->
  isObjectId mid = true ->
  List.forallb (fun e => isObjectId (fst e)) (scores room) = true ->
  let w' := endMatch mid forfeiter reason AllSucceed w in
  emitted w w' =
    [(ToRoom mid,
      MMatchEnded mid (pick_winner forfeiter room) (scores room)
        (build_leaderboard room) (reason_text reason))] /\
  gameRooms w' = map_delete mid (gameRooms w) /\
  heap w' = heap w /\
  get_room mid w' = None.
Proof.
  intros Hg Hm Hs w'. subst w'. unfold endMatch. rewrite Hg, Hm, Hs.
  cbn [andb failing_entry].
  assert (Hgr : forall h1 h2 x,
            gameRooms (clearTimeout h1 (clearTimeout h2 x)) = gameRooms x).
  { intros [?|] [?|] x; reflexivity. }
  assert (Hhp : forall h1 h2 x,
            heap (clearTimeout h1 (clearTimeout h2 x)) = heap x).
  { intros [?|] [?|] x; reflexivity. }
  assert (Hob : forall h1 h2 x,
            outbox (clearTimeout h1 (clearTimeout h2 x)) = outbox x).
  { intros [?|] [?|] x; reflexivity. }
  split; [|split; [|split]].
  - unfold emitted. cbn [outbox set_gameRooms]. rewrite Hob. wsimpl.
    rewrite List.skipn_app, List.skipn_all, Nat.sub_diag. reflexivity.
  - cbn [gameRooms set_gameRooms]. now rewrite Hgr.
  - cbn [heap set_gameRooms]. now rewrite Hhp.
  - apply get_room_none. cbn [gameRooms set_gameRooms].
    apply map_get_delete_eq.
Qed.

(** A forfeit-match sent from a socket that carries the id of one of the
    two (distinct) players of a room finalizes the match in the same turn:
    the key no longer resolves, the single event emitted is match-ended
    naming the other player as winner, and the final scores it carries hold
    the other player's score plus exactly 50, every other score being
    unchanged.  The ids involved are store object ids and the store calls
    succeed. *)
Lemma forfeit_match_by_identified_player (sid mid : string) (w : World)
    (a : nat) (room : Room) (p1 p2 : Player) (u : string) :
  get_room mid w = Some (a, room) ->
  players room = [p1; p2] ->
  userId p1 <> userId p2 ->
  s_userId (get_socket sid w) = Some u ->
  u = userId p1 \/ u = userId p2 ->
  isObjectId mid = true ->
  isObjectId (userId p1) = true ->
  isObjectId (userId p2) = true ->
  List.forallb (fun e => isObjectId (fst e)) (scores room) = true ->
  let opponent := if String.eqb u (userId p1) then userId p2 else userId p1 in
  let w' := forfeit_match sid mid AllSucceed w in
  get_room mid w' = None /\
  exists finalScores leaderboard,
    emitted w w' =
      [(ToRoom mid,
        MMatchEnded mid (Some opponent) finalScores leaderboard "Player forfeited")] /\
    score_of opponent finalScores = score_of opponent (scores room) + 50 /\
    (forall k, k <> opponent -> score_of k finalScores = score_of k (scores room)).
Proof.
  intros Hg Hp Hne Hu Hin Hm H1 H2 Hs opponent w'.
  subst w'. unfold forfeit_match. rewrite Hu, Hg, Hp.
  assert (Hopp : List.find (fun p => negb (uid_is (Some u) (userId p))) [p1; p2]
                 = Some (if String.eqb u (userId p1) then p2 else p1)
                 /\ opponent <> u /\ isObjectId opponent = true
                 /\ opponent = userId (if String.eqb u (userId p1) then p2 else p1)).
  { subst opponent. simpl. destruct Hin as [->| ->].
    - rewrite String.eqb_refl. simpl.
      destruct (String.eqb (userId p2) (userId p1)) eqn:E;
        [apply String.eqb_eq in E; congruence|]. simpl. auto.
    - destruct (String.eqb (userId p1) (userId p2)) eqn:E;
        [apply String.eqb_eq in E; congruence|]. simpl.
      rewrite String.eqb_sym, E. auto. }
  destruct Hopp as (Hf & Hou & Hoid & Hoeq). rewrite Hf, <- Hoeq.
  cbv beta iota.
  set (bonus := fun r : Room => set_scores _ r).
  pose proof (get_room_update mid w a room bonus Hg) as Hg1.
  assert (Hs1 : List.forallb (fun e => isObjectId (fst e)) (scores (bonus room)) = true).
  { subst bonus. cbn [scores set_scores]. now apply forallb_map_set. }
  destruct (endMatch_ok mid (Some u) (Some "Player forfeited") _ a _ Hg1 Hm Hs1)
    as (He & _ & _ & Hn).
  split; [exact Hn|].
  exists (scores (bonus room)), (build_leaderboard (bonus room)). split; [|split].
  - unfold emitted in *. cbn [outbox update_room set_heap] in He. rewrite He.
    unfold pick_winner. cbn [truthy_ostr].
    rewrite (isObjectId_truthy u)
      by (destruct Hin as [->| ->]; assumption).
    subst bonus. cbn [players set_scores]. rewrite Hp, Hf.
    cbn [option_map]. rewrite <- Hoeq. reflexivity.
  - subst bonus. cbn [scores set_scores]. rewrite score_of_set_eq.
    unfold FORFEIT_BONUS. reflexivity.
  - intros k Hk. subst bonus. cbn [scores set_scores].
    now apply score_of_set_ne.
Qed.

(** C7: the forfeiter is the user id held by the socket, which only
    user-join and reconnect-match set.  Alice creates the match from a
    socket that never sent user-join, bob joins and the match starts; alice
    then sends forfeit-match.  Her socket has no user id, so the first
    player whose id differs from it is alice herself: the 50 points go to
    the forfeiting player, and the finalization, knowing no forfeiter, names
    the highest score, alice, as the winner. *)
Theorem C7_forfeiter_without_identity_wins :
  let w :=
    run (Demo.server Demo.approved_questions)
      [EvCreateMatch "s1" Demo.cidA Demo.alice (JNum 3) (JNum 30) Demo.midA
         [0; 0; 0]%nat;
       EvUserJoin "s2" Demo.bob "bob";
       EvJoinMatch "s2" None (Some Demo.codeA) Demo.bob;
       EvTimer 0 AllSucceed; EvTimer 1 AllSucceed] in
  let w' := forfeit_match "s1" Demo.midA AllSucceed w in
  s_userId (get_socket "s1" w) = None /\
  (exists room,
     get_room Demo.midA w = Some (0%nat, room) /\
     List.map userId (players room) = [Demo.alice; Demo.bob] /\
     state room = Active /\
     scores room = [(Demo.alice, 0)]) /\
  get_room Demo.midA w' = None /\
  emitted w w'
  = [(ToRoom Demo.midA,
      MMatchEnded Demo.midA (Some Demo.alice) [(Demo.alice, 50)]
        [(Demo.alice, 50)] "Player forfeited")].
Proof.
  vm_compute. repeat split. eexists. repeat split.
Qed.


(** ** Disconnection and the grace period *)

Lemma map_userId_alter (d : Player -> Player) (i : nat) (l : list Player) :
  (forall p, userId (d p) = userId p) ->
  List.map userId (alter d i l) = List.map userId l.
Proof.
  intros Hd. revert i. induction l as [|x l IH]; intros [|i]; simpl; try reflexivity.
  - now rewrite Hd.
  - f_equal. apply IH.
Qed.

Lemma timer_get_app_fresh (id : nat) (cb : Timer) (l : list (nat * Timer)) :
  timer_get id l = None -> timer_get id (l ++ [(id, cb)]) = Some cb.
Proof.
  unfold timer_get. induction l as [|[j t] l IH]; simpl.
  - now rewrite Nat.eqb_refl.
  - destruct (Nat.eqb j id); [discriminate | exact IH].
Qed.

Lemma timer_get_drop (id j : nat) (l : list (nat * Timer)) :
  timer_get id l = None \/ j = id -> timer_get id (drop_timer j l) = None.
Proof.
  unfold timer_get, drop_timer. induction l as [|[n t] l IH]; simpl; [reflexivity|].
  intros H. destruct (Nat.eqb n j) eqn:E; simpl.
  - apply IH. destruct H as [H| ->]; [|now right].
    left. destruct (Nat.eqb n id); [discriminate | exact H].
  - destruct (Nat.eqb n id) eqn:E2; simpl.
    + apply Nat.eqb_eq in E2; subst n. destruct H as [H| ->]; [discriminate|].
      rewrite Nat.eqb_refl in E. discriminate.
    + apply IH. destruct H as [H|H]; [left; exact H | now right].
Qed.

Lemma timer_get_clearTimeout (id : nat) (h : option nat) (w : World) :
  timer_get id (timers w) = None ->
  timer_get id (timers (clearTimeout h w)) = None.
Proof.
  intros H. destruct h as [j|]; [|exact H]. cbn. apply timer_get_drop. now left.
Qed.

Lemma pick_winner_forfeit (uid : string) (room : Room) :
  truthy_str uid = true ->
  pick_winner (Some uid) room
  = List.find (fun v => negb (String.eqb v uid)) (List.map userId (players room)).
Proof.
  intros Ht. unfold pick_winner. cbn [truthy_ostr]. rewrite Ht.
  cbn [uid_is]. induction (players room) as [|p l IH]; [reflexivity|].
  simpl. destruct (String.eqb (userId p) uid); simpl; [exact IH | reflexivity].
Qed.

(** C6: reconnect-match clears the flag but leaves the grace timer armed,
    and the handle kept [for potential cancellation] is never used.  On the
    started sample match alice's socket drops (grace timer 3 is armed), she
    reconnects from a new socket before it fires, and that socket drops in
    turn (grace timer 4 is armed).  When timer 3 expires, the callback of
    the first disconnection, which tests only the flag, finds alice marked
    and finalizes the match with her as forfeiter, although she did
    reconnect within its period and the period of her second disconnection
    has just begun. *)
Theorem C6_expiry_after_reconnect_finalizes :
  let w1 := run Demo.started
              [EvDisconnect "s1"; EvReconnectMatch "s1b" Demo.midA Demo.alice] in
  let w2 := step w1 (EvDisconnect "s1b") in
  let w3 := step w2 (EvTimer 3 AllSucceed) in
  (exists room,
     heap w1 !! 0%nat = Some room /\
     List.map (fun p => (userId p, socketId p, disconnected p)) (players room)
     = [(Demo.alice, "s1b", false); (Demo.bob, "s2", false)]) /\
  timer_get 3 (timers w1) = Some (TGracePeriod Demo.midA 0 Demo.alice) /\
  timer_get 3 (timers w2) = Some (TGracePeriod Demo.midA 0 Demo.alice) /\
  timer_get 4 (timers w2) = Some (TGracePeriod Demo.midA 0 Demo.alice) /\
  emitted w2 w3
  = [(ToRoom Demo.midA,
      MMatchEnded Demo.midA (Some Demo.bob) [(Demo.alice, 0)]
        [(Demo.alice, 0)] "Did not reconnect in time")] /\
  get_room Demo.midA w3 = None.
Proof.
  vm_compute. repeat split. eexists. split; reflexivity.
Qed.

(** ** Question-results broadcasts *)

(** A deadline timer that fires when the current question index of its
    room is no longer the index it was armed for only leaves the table of
    timers. *)
Lemma timeout_stale (id : nat) (store : StoreRun) (w : World) (mid : string)
    (a : nat) (qi : Z) (room : Room) :
  timer_get id (timers w) = Some (TQuestionTimeout mid a qi) ->
  heap w !! a = Some room ->
  currentQuestionIndex room <> qi ->
  fire_timer id store w = set_timers (drop_timer id (timers w)) (nextTimer w) w.
Proof.
  intros Ht Hh Hne. unfold fire_timer. rewrite Ht. unfold run_timer.
  cbn [heap set_timers]. rewrite Hh.
  destruct (Z.eqb_spec (currentQuestionIndex room) qi); [contradiction | reflexivity].
Qed.

(** C1: the deadline callback tests only that the current question index is
    still the one it was armed for, not that somebody has yet to answer.
    In [Demo.both_answered] both players have answered question 0, the
    results of question 0 have been broadcast once, and the index is still
    0 (no next-question has arrived).  The deadline timer of question 0
    (handle 2) then fires: it announces the timeout and broadcasts the
    results of question 0 a second time, with the answer log already
    emptied by the first broadcast.  (In [Demo.second_question], where a
    next-question has moved the index to 1, the same timer does nothing.) *)
Theorem C1_deadline_after_both_answered :
  let w := Demo.both_answered in
  let w' := fire_timer 2 AllSucceed w in
  results_count Demo.midA 0 (outbox w) = 1%nat /\
  (exists room,
     heap w !! 0%nat = Some room /\
     currentQuestionIndex room = 0 /\
     List.forallb answered (players room) = true) /\
  timer_get 2 (timers w) = Some (TQuestionTimeout Demo.midA 0 0) /\
  emitted w w'
  = [(ToRoom Demo.midA, MQuestionTimeout 0);
     (ToRoom Demo.midA,
      MQuestionResults (JNum 0) 1 [(Demo.alice, 10); (Demo.bob, 0)] [])] /\
  results_count Demo.midA 0 (outbox w') = 2%nat /\
  timer_get 2 (timers Demo.second_question)
  = Some (TQuestionTimeout Demo.midA 0 0) /\
  emitted Demo.second_question (fire_timer 2 AllSucceed Demo.second_question)
  = [].
Proof.
  vm_compute. repeat split. eexists. repeat split.
Qed.

(** ** The registry after finalization *)

(** [endMatch] removes from the registry the key it was called with and no
    other. *)
Lemma endMatch_keeps_other_keys (mid key : string) (f r : option string)
    (ok : StoreRun) (w : World) :
  key <> mid ->
  map_get key (gameRooms (endMatch mid f r ok w)) = map_get key (gameRooms w).
Proof.
  intros Hne. unfold endMatch.
  destruct (get_room mid w) as [[a room]|]; [|reflexivity].
  destruct (_ && _); [|reflexivity].
  destruct ok; cbn [failing_entry]; try reflexivity.
  2: destruct (Nat.ltb _ _); [reflexivity|].
  all: cbn [gameRooms set_gameRooms].
  all: rewrite map_get_delete_ne by congruence.
  all: destruct (gracePeriodTimeout room), (timerInterval room); reflexivity.
Qed.

(** C2, at the failing input: after the match [Demo.midA] has been
    finalized (match-ended was sent) its id no longer resolves, but its join
    code still does, to the same room object; a join-match by that code is
    answered MATCH_UNAVAILABLE, not MATCH_NOT_FOUND, and a reconnect-match
    by that code is not refused. *)
Theorem C2_code_resolves_after_finalize :
  List.existsb
    (fun e =>
       match snd e with
       | MMatchEnded m (Some winner) _ _ _ =>
           String.eqb m Demo.midA && String.eqb winner Demo.bob
       | _ => false
       end) (outbox Demo.finalized) = true /\
  get_room Demo.midA Demo.finalized = None /\
  map_get Demo.codeA (gameRooms Demo.finalized) = Some 0%nat /\
  (exists room,
     resolve None (Some Demo.codeA) Demo.finalized
     = Some (0%nat, room, Some Demo.midA)) /\
  emitted Demo.finalized
    (join_match "s3" None (Some Demo.codeA) Demo.carol Demo.finalized)
  = [(ToSocket "s3", MError "MATCH_UNAVAILABLE")] /\
  emitted Demo.finalized
    (reconnect_match "s3" Demo.codeA Demo.carol Demo.finalized)
  <> [(ToSocket "s3", MError "MATCH_NOT_FOUND")].
Proof.
  split; [vm_compute; reflexivity|].
  split; [vm_compute; reflexivity|]. split; [vm_compute; reflexivity|].
  split; [eexists; vm_compute; reflexivity|].
  split; [vm_compute; reflexivity|]. vm_compute. discriminate.
Qed.

(** ** Sampling of questions *)

Lemma sample_length {A} (seed : list nat) (n : nat) (pool : list A) :
  length (sample seed n pool) = Nat.min n (length pool).
Proof.
  revert seed pool. induction n as [|n IH]; intros seed pool; [reflexivity|].
  cbn [sample].
  destruct (pool !! (List.hd 0%nat seed mod length pool)%nat) as [x|] eqn:E.
  - cbn [length]. rewrite IH.
    rewrite length_delete by (rewrite E; eauto).
    apply lookup_lt_Some in E. lia.
  - apply lookup_ge_None in E. destruct pool as [|y pool]; [simpl; lia|].
    pose proof (Nat.mod_upper_bound (List.hd 0%nat seed) (length (y :: pool))) as Hb.
    cbn [length] in *. lia.
Qed.

Lemma sample_from_pool {A} (seed : list nat) (n : nat) (pool : list A) (x : A) :
  In x (sample seed n pool) -> In x pool.
Proof.
  revert seed pool. induction n as [|n IH]; intros seed pool; [intros []|].
  cbn [sample].
  destruct (pool !! (List.hd 0%nat seed mod length pool)%nat) as [y|] eqn:E;
    [|intros []].
  intros [->|H].
  - apply list_elem_of_In. eapply list_elem_of_lookup_2. exact E.
  - apply IH in H. apply list_elem_of_In in H. apply list_elem_of_In.
    eapply list_elem_of_delete_inv. exact H.
Qed.

(** What create-match does: it answers with one error and changes nothing
    else, or it allocates a room whose snapshots are exactly
    [questionsCount] questions of the category that the store does not hold
    as inactive.  Approval plays no part. *)
Lemma create_match_outcome (sid cid uid : string) (n t : jsval)
    (newId : string) (seed : list nat) (w : World) :
  let w' := create_match sid cid uid n t newId seed w in
  (exists code, w' = emit (ToSocket sid) (MError code) w) \/
  (exists room questionsCount,
     js_or n (JNum QUESTIONS_PER_MATCH) = JNum questionsCount /\
     heap w' = heap w ++ [room] /\
     get_room newId w' = Some (length (heap w), room) /\
     Z.of_nat (length (questionsData room)) = questionsCount /\
     Forall
       (fun q => exists d, In d (db_questions w) /\ qd_question d = q
                           /\ match_stage cid d = true)
       (questionsData room)).
Proof.
  intros w'. subst w'. unfold create_match.
  destruct (js_lt (js_or n (JNum QUESTIONS_PER_MATCH)) 3
            || js_gt (js_or n (JNum QUESTIONS_PER_MATCH)) 20) eqn:Hc;
    [left; eauto|].
  destruct (js_lt _ 15 || js_gt _ 300); [left; eauto|].
  destruct (negb (isObjectId cid)); [left; eauto|].
  destruct (find_category cid (db_categories w)) as [category|];
    [|left; eauto].
  destruct (js_or n (JNum QUESTIONS_PER_MATCH)) as [| | |qc|] eqn:Hn;
    try (left; eauto; fail).
  rewrite js_lt_num in Hc.
  repeat match goal with
  | |- context [if ?b then _ else _] => destruct b eqn:?; [left; eauto|]
  end.
  right. wsimpl. rewrite map_get_set_eq. wsimpl.
  eexists. exists qc. split; [reflexivity|]. split; [reflexivity|].
  assert (Hq : Z.of_nat (length (aggregate_questions cid qc seed (db_questions w))) = qc).
  { apply orb_false_elim in Hc as [Hlo Hhi].
    apply Z.ltb_ge in Hlo. apply Z.ltb_ge in Heqb0.
    unfold aggregate_questions in *. rewrite List.length_map in *.
    rewrite sample_length in *. lia. }
  split; [|split; [exact Hq|]].
  - apply get_room_inv. wsimpl. split.
    + destruct (String.eqb_spec (toUpperCase (substring0 12 newId)) newId) as [E|E].
      * rewrite E. now rewrite map_get_set_eq.
      * rewrite map_get_set_ne by exact E. apply map_get_set_eq.
    + rewrite lookup_app_r by lia. now rewrite Nat.sub_diag.
  - cbn [questionsData]. unfold aggregate_questions.
    apply List.Forall_forall. intros q Hin. apply List.in_map_iff in Hin as (d & <- & Hd).
    apply sample_from_pool in Hd. apply List.filter_In in Hd as [Hd1 Hd2]. eauto.
Qed.

(** C5, at the failing input: the category has three active questions,
    none of them approved, so no active and approved question exists (the
    filter of the REST controller selects nothing); create-match for three
    questions nevertheless succeeds, registers a room holding the three
    unapproved questions and creates the match document. *)
Theorem C5_unapproved_questions_sampled :
  List.filter (match_stage_controller Demo.cidA) Demo.unapproved_questions = [] /\
  List.map qd_question (List.filter (match_stage Demo.cidA) Demo.unapproved_questions)
  = [Demo.question "q1" 1; Demo.question "q2" 2; Demo.question "q3" 3] /\
  (exists room,
     get_room Demo.midA Demo.created_unapproved = Some (0%nat, room) /\
     length (questionsData room) = 3%nat /\
     Forall (fun q => In (mkQuestionDoc q (Some true) false) Demo.unapproved_questions)
       (questionsData room)) /\
  List.map m_id (db_matches Demo.created_unapproved) = [Demo.midA] /\
  outbox Demo.created_unapproved
  = [(ToSocket "s1", MMatchCreated Demo.midA Demo.codeA);
     (ToAll, MMatchAvailable Demo.midA)].
Proof.
  split; [vm_compute; reflexivity|]. split; [vm_compute; reflexivity|].
  split.
  - eexists. split; [vm_compute; reflexivity|]. split; [reflexivity|].
    do 3 (constructor; [simpl; auto 6|]). constructor.
  - split; vm_compute; reflexivity.
Qed.

(** * Further properties *)

(** ** Rank tiers (utils/calculateXP.js) *)

(** X1: The rank is the name of the tier with the highest threshold that the
    XP reaches: the lower bound of a tier is inclusive, and an XP below 100
    (negative ones included) is a Novice. *)
Theorem calculateRank_tiers (xp : Z) :
  calculateRank xp =
    if xp <? 100 then "Novice"
    else if xp <? 500 then "Bronze"
    else if xp <? 1000 then "Silver"
    else if xp <? 2500 then "Gold"
    else if xp <? 5000 then "Platinum"
    else if xp <? 10000 then "Diamond"
    else if xp <? 20000 then "Master"
    else "Grandmaster".
Proof.
  unfold calculateRank, rankTiers. cbn [List.fold_left fst snd].
  repeat match goal with
         | |- context [?a >=? ?b] =>
             let H := fresh in
             destruct (Z.geb_spec a b) as [H|H]
         | |- context [?a <? ?b] =>
             let H := fresh in
             destruct (Z.ltb_spec a b) as [H|H]
         end; try reflexivity; lia.
Qed.

(** ** Winner and leaderboard of [endMatch] *)

Lemma insert_desc_perm (x : string * Z) (l : list (string * Z)) :
  Permutation (insert_desc x l) (x :: l).
Proof.
  induction l as [|y l IH]; simpl; [reflexivity|].
  destruct (snd x >=? snd y); [reflexivity|].
  rewrite IH. apply perm_swap.
Qed.

Lemma sort_desc_perm (l : list (string * Z)) : Permutation (sort_desc l) l.
Proof.
  induction l as [|x l IH]; simpl; [reflexivity|].
  unfold sort_desc in *. simpl. rewrite insert_desc_perm. now rewrite IH.
Qed.

Lemma insert_desc_descending (x : string * Z) (l : list (string * Z)) :
  descending l -> descending (insert_desc x l).
Proof.
  induction l as [|y l IH]; simpl; [intros _; split; [intros y []|exact I]|].
  intros [Hy Hl]. destruct (snd x >=? snd y) eqn:H;
    [apply Z.geb_le in H | rewrite Z.geb_leb in H; apply Z.leb_gt in H]; simpl.
  - split; [|auto]. intros z [<-|Hz]; [lia|]. specialize (Hy z Hz). lia.
  - split; [|auto]. intros z Hz.
    apply (Permutation_in _ (insert_desc_perm x l)) in Hz.
    destruct Hz as [<-|Hz]; [lia | auto].
Qed.

Lemma sort_desc_descending (l : list (string * Z)) : descending (sort_desc l).
Proof.
  induction l as [|x l IH]; simpl; [exact I|].
  now apply insert_desc_descending.
Qed.

(** The head of the sorted entries is the first entry of maximal score. *)
Lemma sort_desc_head (l : list (string * Z)) :
  match sort_desc l with
  | [] => l = []
  | e :: _ =>
      exists l1 l2,
        l = l1 ++ e :: l2 /\
        (forall y, In y l1 -> snd y < snd e) /\
        (forall y, In y l2 -> snd y <= snd e)
  end.
Proof.
  induction l as [|x l IH]; [reflexivity|].
  change (sort_desc (x :: l)) with (insert_desc x (sort_desc l)).
  destruct (sort_desc l) as [|e r].
  - subst l. simpl. exists [], []. repeat split; intros y [].
  - destruct IH as (l1 & l2 & -> & H1 & H2). simpl.
    destruct (snd x >=? snd e) eqn:H;
      [apply Z.geb_le in H | rewrite Z.geb_leb in H; apply Z.leb_gt in H].
    + exists [], (l1 ++ e :: l2). split; [reflexivity|]. split; [intros y []|].
      intros y Hy. apply List.in_app_or in Hy as [Hy|[<-|Hy]].
      * specialize (H1 y Hy). lia.
      * lia.
      * specialize (H2 y Hy). lia.
    + exists (x :: l1), l2. split; [reflexivity|]. split; [|exact H2].
      intros y [<-|Hy]; [lia | auto].
Qed.

(** X2: Without a forfeiter the winner of [endMatch] is the holder of the
    highest final score, and among equal highest scores the one whose
    entry was inserted first in [room.scores]; with no score at all there
    is no winner. *)
Theorem winner_has_first_highest_score (room : Room) :
  match pick_winner None room with
  | None => scores room = []
  | Some k =>
      exists s l1 l2,
        scores room = l1 ++ (k, s) :: l2 /\
        (forall y, In y l1 -> snd y < s) /\
        (forall y, In y l2 -> snd y <= s)
  end.
Proof.
  unfold pick_winner. cbn [truthy_ostr].
  pose proof (sort_desc_head (scores room)) as H.
  destruct (sort_desc (scores room)) as [|[k s] r]; [exact H|].
  destruct H as (l1 & l2 & H & H1 & H2). exists s, l1, l2. auto.
Qed.

(** X3: The leaderboard of match-ended lists, in descending order of score,
    exactly the score entries whose key is the id of a player of the room. *)
Theorem leaderboard_sorted_participants (room : Room) :
  descending (build_leaderboard room) /\
  Permutation (build_leaderboard room)
    (List.filter
       (fun e => List.existsb (fun p => String.eqb (userId p) (fst e)) (players room))
       (scores room)).
Proof.
  unfold build_leaderboard. split; [apply sort_desc_descending | apply sort_desc_perm].
Qed.

(** ** Well-formed worlds *)

Lemma map_set_entry {V} (k k0 : string) (v x : V) (m : JsMap V) :
  In (k0, x) (map_set k v m) -> (k0 = k /\ x = v) \/ In (k0, x) m.
Proof.
  induction m as [|[k' v'] r IH]; simpl.
  - intros [H|[]]. inversion H. now left.
  - destruct (String.eqb k' k); simpl.
    + intros [H|H]; [inversion H; now left | right; now right].
    + intros [H|H]; [right; now left|].
      destruct (IH H) as [?|?]; [now left | right; now right].
Qed.

Lemma map_delete_entry {V} (k k0 : string) (x : V) (m : JsMap V) :
  In (k0, x) (map_delete k m) -> In (k0, x) m.
Proof.
  induction m as [|[k' v'] r IH]; simpl; [auto|].
  destruct (String.eqb k' k); simpl; [auto|].
  intros [H|H]; auto.
Qed.

Lemma map_get_in {V} (k : string) (m : JsMap V) (x : V) :
  map_get k m = Some x -> In k (List.map fst m).
Proof.
  induction m as [|[k' v'] r IH]; simpl; [discriminate|].
  destruct (String.eqb_spec k' k) as [->|Hne]; [now left | right; auto].
Qed.

Lemma map_set_keys {V} (k : string) (v : V) (m : JsMap V) :
  List.map fst (map_set k v m) =
    match map_get k m with
    | Some _ => List.map fst m
    | None => List.map fst m ++ [k]
    end.
Proof.
  induction m as [|[k' v'] r IH]; simpl; [reflexivity|].
  destruct (String.eqb_spec k' k) as [->|Hne]; simpl; [reflexivity|].
  rewrite IH. now destruct (map_get k r).
Qed.

Lemma map_set_nodup {V} (k : string) (v : V) (m : JsMap V) :
  List.NoDup (List.map fst m) -> List.NoDup (List.map fst (map_set k v m)).
Proof.
  intros H. rewrite map_set_keys. destruct (map_get k m) eqn:E; [exact H|].
  apply NoDup_ListNoDup, NoDup_app. apply NoDup_ListNoDup in H.
  split; [exact H|]. split; [|apply NoDup_singleton].
  intros x Hx Hk. apply list_elem_of_singleton in Hk. subst x.
  apply list_elem_of_In in Hx. apply List.in_map_iff in Hx as ([k' v'] & <- & Hin).
  clear -E Hin. induction m as [|[k0 v0] r IH]; [destruct Hin|].
  simpl in *. destruct (String.eqb_spec k0 k') as [->|Hne]; [discriminate|].
  destruct Hin as [Hin|Hin]; [inversion Hin; congruence | auto].
Qed.

Lemma length_mark_first {A} (f : A -> bool) (g : A -> A) (l : list A) :
  length (mark_first f g l) = length l.
Proof. unfold mark_first. destruct (find_index f l); [apply length_alter | reflexivity]. Qed.

Section WellFormed.

Lemma wf_same (x y : World) :
  gameRooms y = gameRooms x -> heap y = heap x ->
  timers y = timers x -> nextTimer y = nextTimer x ->
  well_formed x -> well_formed y.
Proof.
  intros E1 E2 E3 E4. unfold well_formed, registry_ok, timers_ok.
  now rewrite E1, E2, E3, E4.
Qed.

(** A room update that keeps the identity of the room and its shape. *)
Lemma wf_update_room_at (x : World) (a : nat) (f : Room -> Room) :
  (forall r, heap x !! a = Some r -> room_ok r ->
             room_ok (f r) /\ matchId (f r) = matchId r
             /\ matchCode (f r) = matchCode r) ->
  well_formed x -> well_formed (update_room a f x).
Proof.
  intros Hf (Hreg & Hrooms & Htim). split; [|split; [|exact Htim]].
  - intros key a0 Hk. cbn [gameRooms update_room set_heap] in Hk.
    destruct (Hreg key a0 Hk) as (room & Hh & Hid).
    cbn [heap update_room set_heap]. destruct (decide (a = a0)) as [->|Hne].
    + exists (f room). rewrite list_lookup_alter_eq, Hh. split; [reflexivity|].
      destruct (Hf room Hh (Hrooms _ _ Hh)) as (_ & -> & ->). exact Hid.
    + exists room. now rewrite list_lookup_alter_ne.
  - intros a0 r. cbn [heap update_room set_heap].
    destruct (decide (a = a0)) as [->|Hne].
    + rewrite list_lookup_alter_eq. destruct (heap x !! a0) as [r0|] eqn:E; [|discriminate].
      intros H. inversion H; subst. apply (Hf r0 eq_refl (Hrooms _ _ E)).
    + rewrite list_lookup_alter_ne by exact Hne. apply Hrooms.
Qed.

Lemma wf_update_room (x : World) (a : nat) (f : Room -> Room) :
  (forall r, room_ok r ->
             room_ok (f r) /\ matchId (f r) = matchId r
             /\ matchCode (f r) = matchCode r) ->
  well_formed x -> well_formed (update_room a f x).
Proof. intros Hf. apply wf_update_room_at. intros r _. apply Hf. Qed.

Lemma wf_arm (x : World) (c : Timer) :
  well_formed x ->
  well_formed (set_timers (timers x ++ [(nextTimer x, c)]) (S (nextTimer x)) x).
Proof.
  intros (Hreg & Hrooms & Hlt & Hnd). split; [exact Hreg|]. split; [exact Hrooms|].
  split; cbn [timers nextTimer set_timers].
  - intros id cb Hin. apply List.in_app_or in Hin as [Hin|[Hin|[]]].
    + specialize (Hlt _ _ Hin). lia.
    + inversion Hin. lia.
  - rewrite List.map_app. cbn [List.map fst].
    apply NoDup_ListNoDup, NoDup_app. apply NoDup_ListNoDup in Hnd.
    split; [exact Hnd|]. split; [|apply NoDup_singleton].
    intros id Hid Hk. apply list_elem_of_singleton in Hk. subst id.
    apply list_elem_of_In in Hid. apply List.in_map_iff in Hid as ([id cb] & E & Hin).
    simpl in E. subst id. specialize (Hlt _ _ Hin). lia.
Qed.

Lemma drop_timer_in (j id : nat) (cb : Timer) (l : list (nat * Timer)) :
  In (id, cb) (drop_timer j l) -> In (id, cb) l.
Proof. unfold drop_timer. intros H. now apply List.filter_In in H as [H _]. Qed.

Lemma drop_timer_nodup (j : nat) (l : list (nat * Timer)) :
  List.NoDup (List.map fst l) -> List.NoDup (List.map fst (drop_timer j l)).
Proof.
  unfold drop_timer. induction l as [|[n t] l IH]; simpl; [auto|].
  intros H. inversion H as [|? ? Hn Hl]; subst.
  destruct (negb (Nat.eqb n j)); simpl; [|auto].
  constructor; [|auto]. intros Hin. apply Hn.
  apply List.in_map_iff in Hin as ([n' t'] & E & Hin'). simpl in E. subst n'.
  apply List.filter_In in Hin' as [Hin' _].
  apply List.in_map_iff. exists (n, t'). auto.
Qed.

Lemma wf_drop (x : World) (j : nat) :
  well_formed x ->
  well_formed (set_timers (drop_timer j (timers x)) (nextTimer x) x).
Proof.
  intros (Hreg & Hrooms & Hlt & Hnd). split; [exact Hreg|]. split; [exact Hrooms|].
  split; cbn [timers nextTimer set_timers].
  - intros id cb Hin. apply drop_timer_in in Hin. eauto.
  - now apply drop_timer_nodup.
Qed.

Lemma wf_clearTimeout (x : World) (h : option nat) :
  well_formed x -> well_formed (clearTimeout h x).
Proof. destruct h; [apply wf_drop | auto]. Qed.

Lemma wf_delete (x : World) (k : string) :
  well_formed x -> well_formed (set_gameRooms (map_delete k (gameRooms x)) x).
Proof.
  intros (Hreg & Hrooms & Htim). split; [|split; [exact Hrooms | exact Htim]].
  intros key a Hk. cbn [gameRooms set_gameRooms] in Hk.
  apply map_delete_entry in Hk. exact (Hreg key a Hk).
Qed.

End WellFormed.

Lemma scan_matchCode_sound (cu : string) (h : list Room) (entries : JsMap nat)
    (a : nat) (room : Room) :
  scan_matchCode cu h entries = Some (a, room) ->
  h !! a = Some room /\ matchCode room = cu /\ In a (List.map snd entries).
Proof.
  induction entries as [|[k a0] r IH]; simpl; [discriminate|].
  destruct (h !! a0) as [room0|] eqn:E.
  - destruct (String.eqb_spec (matchCode room0) cu) as [Hc|Hc].
    + intros H. inversion H; subst. auto.
    + intros H. destruct (IH H) as (? & ? & ?). auto.
  - intros H. destruct (IH H) as (? & ? & ?). auto.
Qed.

Lemma scan_prefix_sound (cu : string) (h : list Room) (entries : JsMap nat)
    (a : nat) (room : Room) (t : string) :
  scan_prefix cu h entries = Some (a, room, t) ->
  h !! a = Some room /\ In a (List.map snd entries).
Proof.
  induction entries as [|[k a0] r IH]; simpl; [discriminate|].
  destruct (truthy_str k && startsWith (toUpperCase k) cu).
  - destruct (h !! a0) as [room0|] eqn:E.
    + intros H. inversion H; subst. auto.
    + intros H. destruct (IH H). auto.
  - intros H. destruct (IH H). auto.
Qed.

(** Whatever way join-match finds a room, it is an allocated room object. *)
Lemma resolve_sound (mid code : option string) (w : World) (a : nat)
    (room : Room) (t : option string) :
  resolve mid code w = Some (a, room, t) -> heap w !! a = Some room.
Proof.
  unfold resolve.
  assert (Hg : forall k a room, get_room k w = Some (a, room) -> heap w !! a = Some room)
    by (intros k a0 r0 H; now apply get_room_inv in H).
  destruct mid as [m|]; [destruct (truthy_str m);
    [destruct (get_room m w) as [[a0 r0]|] eqn:E1|]|].
  1: { intros H. inversion H; subst. eauto. }
  all: destruct code as [c|]; [destruct (truthy_str c)|]; try discriminate.
  all: destruct (get_room (toUpperCase c) w) as [[a1 r1]|] eqn:E2;
    [intros H; inversion H; subst; eauto|].
  all: destruct (scan_matchCode (toUpperCase c) (heap w) (gameRooms w))
         as [[a2 r2]|] eqn:E3;
    [intros H; inversion H; subst; now apply scan_matchCode_sound in E3|].
  all: destruct (Nat.leb 8 (String.length (toUpperCase c))); [|discriminate].
  all: destruct (scan_prefix (toUpperCase c) (heap w) (gameRooms w))
         as [[[a3 r3] t3]|] eqn:E4; [|discriminate].
  all: intros H; inversion H; subst; now apply scan_prefix_sound in E4.
Qed.

Lemma wf_alloc (x : World) (room : Room) :
  room_ok room -> well_formed x -> well_formed (set_heap (heap x ++ [room]) x).
Proof.
  intros Hr (Hreg & Hrooms & Htim). split; [|split; [|exact Htim]].
  - intros key a Hk. destruct (Hreg key a Hk) as (r & Hh & Hid).
    exists r. split; [|exact Hid]. cbn [heap set_heap].
    now apply lookup_app_l_Some.
  - intros a r. cbn [heap set_heap]. intros H.
    apply lookup_app_Some in H as [H|[_ H]]; [eauto|].
    apply list_lookup_singleton_Some in H as [_ <-]. exact Hr.
Qed.

Lemma wf_register (x : World) (k : string) (a : nat) (room : Room) :
  heap x !! a = Some room -> matchId room = k \/ matchCode room = k ->
  well_formed x -> well_formed (set_gameRooms (map_set k a (gameRooms x)) x).
Proof.
  intros Hh Hid (Hreg & Hrooms & Htim). split; [|split; [exact Hrooms | exact Htim]].
  intros key a0 Hk. cbn [gameRooms set_gameRooms heap] in *.
  apply map_set_entry in Hk as [[-> ->]|Hk]; [eauto | exact (Hreg _ _ Hk)].
Qed.

Ltac room_side :=
  let r := fresh "r" in
  intros r (? & ? & ? & ?);
  cbn [players scores state matchId matchCode set_players
       set_currentQuestionIndex set_scores set_answers set_state set_startTime
       set_timerInterval set_gracePeriodTimeout];
  rewrite ?List.length_map, ?length_mark_first, ?length_alter;
  unfold room_ok;
  cbn [players scores state matchId matchCode set_players
       set_currentQuestionIndex set_scores set_answers set_state set_startTime
       set_timerInterval set_gracePeriodTimeout];
  rewrite ?List.length_map, ?length_mark_first, ?length_alter;
  repeat split; auto using map_set_nodup; try discriminate; try lia.

Ltac wf_step :=
  first
    [ assumption
    | apply wf_clearTimeout
    | match goal with
      | |- well_formed (emit _ _ ?x) => apply (wf_same x); [reflexivity..|]
      | |- well_formed (set_sockets _ ?x) => apply (wf_same x); [reflexivity..|]
      | |- well_formed (put_socket _ _ ?x) => apply (wf_same x); [reflexivity..|]
      | |- well_formed (set_db_matches _ ?x) => apply (wf_same x); [reflexivity..|]
      | |- well_formed (set_db_users _ ?x) => apply (wf_same x); [reflexivity..|]
      | |- well_formed (set_clock _ ?x) => apply (wf_same x); [reflexivity..|]
      | |- well_formed (set_crashed ?x) => apply (wf_same x); [reflexivity..|]
      | |- well_formed (set_gameRooms (map_delete _ _) _) => apply wf_delete
      | |- well_formed (update_room _ _ _) => apply wf_update_room; [solve [room_side]|]
      | |- well_formed (snd (setTimeout _ _)) => apply wf_arm
      | |- well_formed (set_timers (timers ?x ++ _) _ ?x) => apply wf_arm
      | |- well_formed (set_timers (drop_timer _ _) _ _) => apply wf_drop
      | |- well_formed (let _ := _ in _) => cbv zeta
      | |- context [setTimeout] => progress cbn [setTimeout]
      | |- well_formed (match ?x with _ => _ end) => destruct x eqn:?
      | |- well_formed (if ?x then _ else _) => destruct x eqn:?
      end ].

Lemma wf_endMatch (x : World) (mid : string) (f r : option string) (ok : StoreRun) :
  well_formed x -> well_formed (endMatch mid f r ok x).
Proof. intros H. unfold endMatch. repeat wf_step. Qed.

Lemma wf_startMatch (x : World) (mid : string) :
  well_formed x -> well_formed (startMatch mid x).
Proof. intros H. unfold startMatch. repeat wf_step. Qed.

Lemma wf_deliverQuestion (x : World) (mid : string) (qi : Z) :
  well_formed x -> well_formed (deliverQuestion mid qi x).
Proof. intros H. unfold deliverQuestion. repeat wf_step. Qed.

Lemma wf_displayQuestionResults (x y : World) (mid : string) (qi : jsval) :
  displayQuestionResults mid qi x = Some y ->
  well_formed x -> well_formed y.
Proof.
  intros Hd H.
  apply displayQuestionResults_inv in Hd as [->|(a' & room & q & _ & _ & ->)];
    [exact H | repeat wf_step].
Qed.

Lemma wf_create_match (sid cid uid : string) (n t : jsval) (newId : string)
    (seed : list nat) (w : World) :
  well_formed w -> well_formed (create_match sid cid uid n t newId seed w).
Proof.
  intros H. unfold create_match. cbv zeta.
  repeat match goal with
  | |- well_formed (if ?x then _ else _) => destruct x eqn:?
  | |- well_formed (match find_category ?c ?l with _ => _ end) =>
      destruct (find_category c l) eqn:?
  | |- well_formed (match js_or ?a ?b with _ => _ end) =>
      destruct (js_or a b) eqn:?
  | |- well_formed (emit _ _ ?x) => apply (wf_same x); [reflexivity..|]
  | |- well_formed (put_socket _ _ ?x) => apply (wf_same x); [reflexivity..|]
  end; try assumption.
  cbn [gameRooms set_gameRooms]. rewrite map_get_set_eq.
  match goal with
  | |- well_formed (set_gameRooms (map_set ?k2 ?a _)
                      (set_gameRooms (map_set ?k1 _ _)
                         (set_heap (heap ?x ++ [?room]) ?x))) =>
      apply (wf_register (set_gameRooms (map_set k1 a (gameRooms x))
                            (set_heap (heap x ++ [room]) x)) k2 a room);
      [ cbn [heap set_gameRooms set_heap]; rewrite lookup_app_r by reflexivity;
        now rewrite Nat.sub_diag
      | now right
      | apply (wf_register (set_heap (heap x ++ [room]) x) k1 a room);
        [ cbn [heap set_heap]; rewrite lookup_app_r by reflexivity;
          now rewrite Nat.sub_diag
        | now left
        | apply wf_alloc;
          [ unfold room_ok; cbn; repeat split;
            [lia | discriminate | intros; lia | repeat constructor; intros [] ]
          | apply (wf_same w); [reflexivity..|assumption] ] ] ]
  end.
Qed.

Lemma wf_join_match (sid : string) (mid code : option string) (uid : string)
    (w : World) :
  well_formed w -> well_formed (join_match sid mid code uid w).
Proof.
  intros H. unfold join_match.
  destruct (negb (truthy_ostr mid) && negb (truthy_ostr code)); [repeat wf_step|].
  destruct (resolve mid code w) as [[[a room] target]|] eqn:Hr; [|repeat wf_step].
  destruct (negb (MatchState_eqb (state room) Waiting)
            || Nat.leb 2 (length (players room))) eqn:Hs; [repeat wf_step|].
  apply orb_false_iff in Hs as [_ Hlen]. apply Nat.leb_gt in Hlen.
  apply resolve_sound in Hr.
  destruct target as [tm|]; [|repeat wf_step].
  destruct (negb (isObjectId tm)); [repeat wf_step|].
  destruct (find_match tm (db_matches w)); [|repeat wf_step].
  destruct (_ || _); [repeat wf_step|].
  destruct (negb (isObjectId uid)); [repeat wf_step|].
  cbv zeta. apply wf_arm. repeat wf_step.
  apply wf_update_room_at; [|repeat wf_step].
  intros r Hh (Hl & Hf & Ha & Hn). cbn [heap set_db_matches] in Hh.
  rewrite Hr in Hh. inversion Hh; subst r.
  unfold room_ok.
  cbn [players scores state matchId matchCode set_players set_state].
  rewrite List.length_app. cbn [length].
  repeat split; auto; try discriminate; lia.
Qed.

Lemma wf_step_event (w : World) (e : Event) :
  well_formed w -> well_formed (step w e).
Proof.
  intros H. unfold step. destruct (crashed w); [exact H|].
  destruct e.
  - unfold user_join. repeat wf_step.
  - now apply wf_create_match.
  - now apply wf_join_match.
  - unfold submit_answer. repeat wf_step.
    all: eapply wf_displayQuestionResults; [eassumption|]; repeat wf_step.
  - unfold finish_quiz. repeat (wf_step || apply wf_endMatch).
  - unfold next_question.
    repeat (wf_step || apply wf_endMatch || apply wf_deliverQuestion).
  - unfold forfeit_match. apply wf_endMatch. repeat wf_step.
  - unfold reconnect_match. repeat wf_step.
  - unfold disconnect. repeat wf_step.
  - unfold fire_timer, run_timer.
    repeat (wf_step || apply wf_endMatch || apply wf_deliverQuestion
            || apply wf_startMatch).
    all: eapply wf_displayQuestionResults; [eassumption|]; repeat wf_step.
  - apply (wf_same w); auto.
Qed.

Lemma wf_run (w : World) (es : list Event) :
  well_formed w -> well_formed (run w es).
Proof.
  revert w. induction es as [|e es IH]; intros w H; [exact H|].
  apply IH. now apply wf_step_event.
Qed.

Lemma wf_boot (cats : list CategoryDoc) (qs : list QuestionDoc) (us : list UserDoc) :
  well_formed (boot cats qs us).
Proof.
  split; [|split; [|split]].
  - intros key a [].
  - intros a r H. discriminate H.
  - intros id cb [].
  - constructor.
Qed.

(** ** How a room object changes over time *)

Lemma room_evolves_refl (r : Room) : room_evolves 0 r r.
Proof.
  unfold room_evolves. repeat split; auto using List.incl_refl; try lia.
  exists []. now rewrite List.app_nil_r.
Qed.

Lemma room_evolves_trans (n m : Z) (r1 r2 r3 : Room) :
  room_evolves n r1 r2 -> room_evolves m r2 r3 -> room_evolves (n + m) r1 r3.
Proof.
  unfold room_evolves.
  intros (A1 & A2 & A3 & A4 & A5 & A6 & A7 & A8 & A9 & (k1 & A10) & A11 & A12)
         (B1 & B2 & B3 & B4 & B5 & B6 & B7 & B8 & B9 & (k2 & B10) & B11 & B12).
  split; [congruence|]. split; [congruence|]. split; [congruence|].
  split; [congruence|]. split; [congruence|]. split; [congruence|].
  split; [congruence|]. split; [congruence|]. split; [lia|].
  split; [exists (k1 ++ k2); now rewrite B10, A10, List.app_assoc|].
  split; [auto | exact (List.incl_tran A12 B12)].
Qed.

Lemma room_evolves_weaken (n m : Z) (r r' : Room) :
  n <= m -> room_evolves n r r' -> room_evolves m r r'.
Proof.
  unfold room_evolves.
  intros Hnm (A1 & A2 & A3 & A4 & A5 & A6 & A7 & A8 & A9 & A10 & A11 & A12).
  split; [auto|]. split; [auto|]. split; [auto|]. split; [auto|].
  split; [auto|]. split; [auto|]. split; [auto|]. split; [auto|].
  split; [lia|]. auto.
Qed.

Lemma map_set_keys_incl {V} (k : string) (v : V) (m : JsMap V) :
  incl (List.map fst m) (List.map fst (map_set k v m)).
Proof.
  rewrite map_set_keys. destruct (map_get k m); [apply List.incl_refl|].
  apply List.incl_appl, List.incl_refl.
Qed.

Lemma map_userId_mark_first (f : Player -> bool) (g : Player -> Player)
    (l : list Player) :
  (forall p, userId (g p) = userId p) ->
  List.map userId (mark_first f g l) = List.map userId l.
Proof.
  intros Hg. unfold mark_first.
  destruct (find_index f l); [now apply map_userId_alter | reflexivity].
Qed.

Lemma heap_evolves_refl (w : World) : heap_evolves 0 w w.
Proof. intros a r H. exists r. split; [exact H | apply room_evolves_refl]. Qed.

Lemma heap_evolves_trans (n m : Z) (w x y : World) :
  heap_evolves n w x -> heap_evolves m x y -> heap_evolves (n + m) w y.
Proof.
  intros H1 H2 a r Hr. destruct (H1 a r Hr) as (r1 & Hr1 & E1).
  destruct (H2 a r1 Hr1) as (r2 & Hr2 & E2).
  exists r2. split; [exact Hr2 | exact (room_evolves_trans _ _ _ _ _ E1 E2)].
Qed.

Lemma heap_evolves_weaken (n m : Z) (w x : World) :
  n <= m -> heap_evolves n w x -> heap_evolves m w x.
Proof.
  intros Hnm H a r Hr. destruct (H a r Hr) as (r1 & Hr1 & E1).
  exists r1. split; [exact Hr1 | exact (room_evolves_weaken _ _ _ _ Hnm E1)].
Qed.

Lemma he_same (n : Z) (w x y : World) :
  heap y = heap x -> heap_evolves n w x -> heap_evolves n w y.
Proof. intros E H a r Hr. rewrite E. exact (H a r Hr). Qed.

Lemma he_update_room_at (n m : Z) (w x : World) (a : nat) (f : Room -> Room) :
  0 <= m ->
  (forall r, heap x !! a = Some r -> room_evolves m r (f r)) ->
  heap_evolves n w x -> heap_evolves (n + m) w (update_room a f x).
Proof.
  intros Hm Hf H a0 r Hr. destruct (H a0 r Hr) as (r1 & Hr1 & E1).
  cbn [heap update_room set_heap]. destruct (decide (a = a0)) as [->|Hne].
  - exists (f r1). rewrite list_lookup_alter_eq, Hr1. split; [reflexivity|].
    exact (room_evolves_trans _ _ _ _ _ E1 (Hf r1 Hr1)).
  - exists r1. rewrite list_lookup_alter_ne by exact Hne. split; [exact Hr1|].
    apply (room_evolves_weaken n); [lia | exact E1].
Qed.

Lemma he_update_room (n : Z) (w x : World) (a : nat) (f : Room -> Room) :
  (forall r, room_evolves 0 r (f r)) ->
  heap_evolves n w x -> heap_evolves n w (update_room a f x).
Proof.
  intros Hf H. replace n with (n + 0) by lia.
  apply he_update_room_at; [lia | intros r _; apply Hf | exact H].
Qed.

Lemma he_alloc (n : Z) (w x : World) (room : Room) :
  heap_evolves n w x -> heap_evolves n w (set_heap (heap x ++ [room]) x).
Proof.
  intros H a r Hr. destruct (H a r Hr) as (r1 & Hr1 & E1).
  exists r1. split; [|exact E1]. cbn [heap set_heap]. now apply lookup_app_l_Some.
Qed.

Lemma he_clearTimeout (n : Z) (w x : World) (h : option nat) :
  heap_evolves n w x -> heap_evolves n w (clearTimeout h x).
Proof. destruct h; [apply he_same; reflexivity | auto]. Qed.

Ltac evolves_side :=
  let r := fresh "r" in
  intros r; unfold room_evolves;
  cbn [players scores state matchId matchCode categoryId categoryName
       numberOfQuestions questionTimeLimit questionsData createdAt
       currentQuestionIndex set_players
       set_currentQuestionIndex set_scores set_answers set_state set_startTime
       set_timerInterval set_gracePeriodTimeout];
  (split; [reflexivity|]); (split; [reflexivity|]); (split; [reflexivity|]);
  (split; [reflexivity|]); (split; [reflexivity|]); (split; [reflexivity|]);
  (split; [reflexivity|]); (split; [reflexivity|]); (split; [lia|]);
  split;
  [ exists [];
    rewrite List.app_nil_r;
    first
      [ reflexivity
      | rewrite List.map_map; reflexivity
      | apply map_userId_mark_first; intros []; reflexivity
      | apply map_userId_alter; intros []; reflexivity ]
  | split; [auto | first [apply List.incl_refl | apply map_set_keys_incl]] ].

Ltac he_step :=
  first
    [ assumption
    | apply he_clearTimeout
    | match goal with
      | |- heap_evolves _ _ (emit _ _ ?x) => apply (he_same _ _ x); [reflexivity|]
      | |- heap_evolves _ _ (set_gameRooms _ ?x) => apply (he_same _ _ x); [reflexivity|]
      | |- heap_evolves _ _ (set_sockets _ ?x) => apply (he_same _ _ x); [reflexivity|]
      | |- heap_evolves _ _ (put_socket _ _ ?x) => apply (he_same _ _ x); [reflexivity|]
      | |- heap_evolves _ _ (set_db_matches _ ?x) => apply (he_same _ _ x); [reflexivity|]
      | |- heap_evolves _ _ (set_db_users _ ?x) => apply (he_same _ _ x); [reflexivity|]
      | |- heap_evolves _ _ (set_timers _ _ ?x) => apply (he_same _ _ x); [reflexivity|]
      | |- heap_evolves _ _ (set_clock _ ?x) => apply (he_same _ _ x); [reflexivity|]
      | |- heap_evolves _ _ (set_crashed ?x) => apply (he_same _ _ x); [reflexivity|]
      | |- heap_evolves _ _ (snd (setTimeout _ ?x)) => apply (he_same _ _ x); [reflexivity|]
      | |- heap_evolves _ _ (set_heap (heap ?x ++ _) ?x) => apply he_alloc
      | |- heap_evolves _ _ (update_room _ _ _) => apply he_update_room; [solve [evolves_side]|]
      | |- heap_evolves _ _ (let _ := _ in _) => cbv zeta
      | |- context [setTimeout] => progress cbn [setTimeout]
      | |- heap_evolves _ _ (match ?x with _ => _ end) => destruct x eqn:?
      | |- heap_evolves _ _ (if ?x then _ else _) => destruct x eqn:?
      end ].

Lemma he_endMatch (n : Z) (w x : World) (mid : string) (f r : option string) (ok : StoreRun) :
  heap_evolves n w x -> heap_evolves n w (endMatch mid f r ok x).
Proof. intros H. unfold endMatch. repeat he_step. Qed.

Lemma he_startMatch (n : Z) (w x : World) (mid : string) :
  heap_evolves n w x -> heap_evolves n w (startMatch mid x).
Proof. intros H. unfold startMatch. repeat he_step. Qed.

Lemma he_deliverQuestion (n : Z) (w x : World) (mid : string) (qi : Z) :
  heap_evolves n w x -> heap_evolves n w (deliverQuestion mid qi x).
Proof. intros H. unfold deliverQuestion. repeat he_step. Qed.

Lemma he_displayQuestionResults (n : Z) (w x y : World) (mid : string)
    (qi : jsval) :
  displayQuestionResults mid qi x = Some y ->
  heap_evolves n w x -> heap_evolves n w y.
Proof.
  intros Hd H.
  apply displayQuestionResults_inv in Hd as [->|(a' & room & q & _ & _ & ->)];
    [exact H | repeat he_step].
Qed.

Lemma he_step_event (w : World) (e : Event) :
  heap_evolves (if is_next_question e then 1 else 0) w (step w e).
Proof.
  unfold step. destruct (crashed w).
  { apply (heap_evolves_weaken 0); [destruct (is_next_question e); lia|].
    apply heap_evolves_refl. }
  pose proof (H := heap_evolves_refl w).
  destruct e; cbn [is_next_question].
  - unfold user_join. repeat he_step.
  - unfold create_match. repeat he_step.
  - unfold join_match. repeat he_step.
    apply he_update_room; [|repeat he_step].
    intros r'. unfold room_evolves. cbn.
    repeat split; auto using List.incl_refl; try lia.
    eexists. rewrite List.map_app. reflexivity.
  - unfold submit_answer. repeat he_step.
    all: eapply he_displayQuestionResults; [eassumption|]; repeat he_step.
  - unfold finish_quiz. repeat (he_step || apply he_endMatch).
  - unfold next_question.
    destruct (get_room mid w) as [[a room]|] eqn:Hg;
      [|apply (heap_evolves_weaken 0); [lia | repeat he_step]].
    apply get_room_inv in Hg as [_ Hh].
    assert (Hn : heap_evolves 1 w
              (update_room a (set_currentQuestionIndex (currentQuestionIndex room + 1)) w)).
    { apply (he_update_room_at 0 1); [lia| |exact H].
      intros r Hr. rewrite Hh in Hr. inversion Hr; subst r.
      unfold room_evolves. cbn. repeat split; auto using List.incl_refl; try lia.
      exists []. now rewrite List.app_nil_r. }
    cbv zeta. destruct (_ >=? _); [now apply he_endMatch | now apply he_deliverQuestion].
  - unfold forfeit_match. apply he_endMatch. repeat he_step.
  - unfold reconnect_match. repeat he_step.
  - unfold disconnect. repeat he_step.
  - unfold fire_timer, run_timer.
    repeat (he_step || apply he_endMatch || apply he_deliverQuestion
            || apply he_startMatch).
    all: eapply he_displayQuestionResults; [eassumption|]; repeat he_step.
  - apply (he_same _ _ w); auto.
Qed.

Lemma he_run (w : World) (es : list Event) :
  heap_evolves (Z.of_nat (length (List.filter is_next_question es))) w (run w es).
Proof.
  revert w. induction es as [|e es IH]; intros w; [apply heap_evolves_refl|].
  cbn [run List.fold_left List.filter]. fold (run (step w e) es).
  pose proof (H1 := he_step_event w e). pose proof (H2 := IH (step w e)).
  pose proof (H := heap_evolves_trans _ _ _ _ _ H1 H2).
  destruct (is_next_question e); cbn [length]; [|exact H].
  rewrite Nat2Z.inj_succ. replace (Z.succ _) with (1 + Z.of_nat (length (List.filter is_next_question es))) by lia.
  exact H.
Qed.

(** ** What holds in every world the server can reach *)

(** X5: Rooms of a running server (socketHandler.js, all handlers): whatever
    events have been handled since start-up, every room object has at least
    one player (players are never removed), is never in state [Finished]
    (only the stored match document is), and is [Active] as soon as it has
    a second player (lines 401-409 push the player and set the state in one
    synchronous step).  No upper bound on the number of players is stated:
    join-match tests it before its store calls and pushes after them. *)
Theorem reachable_rooms_shape (cats : list CategoryDoc) (qs : list QuestionDoc)
    (us : list UserDoc) (es : list Event) :
  Forall
    (fun r =>
       (1 <= length (players r))%nat /\
       state r <> Finished /\
       ((2 <= length (players r))%nat -> state r = Active))
    (heap (run (boot cats qs us) es)).
Proof.
  apply Forall_lookup_2. intros a r Hr.
  destruct (wf_run _ es (wf_boot cats qs us)) as (_ & Hrooms & _).
  destruct (Hrooms a r Hr) as (H1 & H2 & H3 & _). auto.
Qed.

(** X6: The registry of a running server: every entry of [gameRooms] holds an
    allocated room object, and its key is the match id or the match code of
    that room. *)
Theorem reachable_registry (cats : list CategoryDoc) (qs : list QuestionDoc)
    (us : list UserDoc) (es : list Event) :
  let w := run (boot cats qs us) es in
  Forall
    (fun entry =>
       exists room, heap w !! snd entry = Some room /\
                    (matchId room = fst entry \/ matchCode room = fst entry))
    (gameRooms w).
Proof.
  intros w. destruct (wf_run _ es (wf_boot cats qs us)) as (Hreg & _).
  fold w in Hreg. apply List.Forall_forall. intros [k a] Hin. exact (Hreg k a Hin).
Qed.

(** X8: Room objects over time (socketHandler.js, all handlers): a room object
    stays allocated whatever events are handled, and its match id, match
    code, category, question count, time limit, question snapshot and
    creation time never change; players are only ever appended (none is
    removed or replaced by another user), an active room stays active, and
    no key is ever removed from its score object. *)
Theorem room_constants_preserved (w : World) (es : list Event) (a : nat) (r : Room) :
  heap w !! a = Some r ->
  exists r',
    heap (run w es) !! a = Some r' /\
    matchId r' = matchId r /\ matchCode r' = matchCode r /\
    categoryId r' = categoryId r /\ categoryName r' = categoryName r /\
    numberOfQuestions r' = numberOfQuestions r /\
    questionTimeLimit r' = questionTimeLimit r /\
    questionsData r' = questionsData r /\ createdAt r' = createdAt r /\
    (exists more,
       List.map userId (players r') = List.map userId (players r) ++ more) /\
    (state r = Active -> state r' = Active) /\
    incl (List.map fst (scores r)) (List.map fst (scores r')).
Proof.
  intros Hr. destruct (he_run w es a r Hr) as (r' & Hr' & E).
  exists r'. split; [exact Hr'|].
  destruct E as (A1 & A2 & A3 & A4 & A5 & A6 & A7 & A8 & _ & A10 & A11 & A12).
  repeat split; assumption.
Qed.

Lemma room_constants_preserved_witness :
  heap Demo.started !! 0%nat = Some Demo.room0 /\
  exists r',
    heap (run Demo.started [EvNextQuestion "s1" Demo.midA AllSucceed]) !! 0%nat
    = Some r' /\
    matchId r' = matchId Demo.room0 /\ matchCode r' = matchCode Demo.room0 /\
    categoryId r' = categoryId Demo.room0 /\
    categoryName r' = categoryName Demo.room0 /\
    numberOfQuestions r' = numberOfQuestions Demo.room0 /\
    questionTimeLimit r' = questionTimeLimit Demo.room0 /\
    questionsData r' = questionsData Demo.room0 /\
    createdAt r' = createdAt Demo.room0 /\
    (exists more,
       List.map userId (players r') = List.map userId (players Demo.room0) ++ more) /\
    (state Demo.room0 = Active -> state r' = Active) /\
    incl (List.map fst (scores Demo.room0)) (List.map fst (scores r')).
Proof.
  split; [reflexivity|].
  exact (room_constants_preserved Demo.started
           [EvNextQuestion "s1" Demo.midA AllSucceed] 0%nat Demo.room0 eq_refl).
Defined.

(** X9: The current question index of a room (next-question, lines 617-650, is
    the only writer): over any sequence of events it never decreases, and it
    grows by at most the number of next-question events handled; in
    particular no other event moves it. *)
Theorem question_index_moves_with_next_question (w : World) (es : list Event)
    (a : nat) (r : Room) :
  heap w !! a = Some r ->
  exists r',
    heap (run w es) !! a = Some r' /\
    currentQuestionIndex r <= currentQuestionIndex r'
      <= currentQuestionIndex r
         + Z.of_nat (length (List.filter is_next_question es)).
Proof.
  intros Hr. destruct (he_run w es a r Hr) as (r' & Hr' & E).
  exists r'. split; [exact Hr'|].
  destruct E as (_ & _ & _ & _ & _ & _ & _ & _ & A9 & _). exact A9.
Qed.

Lemma question_index_moves_with_next_question_witness :
  heap Demo.started !! 0%nat = Some Demo.room0 /\
  exists r',
    heap (run Demo.started
            [EvSubmitAnswer "s1" Demo.midA (JNum 0) (JNum 1);
             EvNextQuestion "s1" Demo.midA AllSucceed]) !! 0%nat = Some r' /\
    currentQuestionIndex Demo.room0 <= currentQuestionIndex r'
      <= currentQuestionIndex Demo.room0
         + Z.of_nat (length (List.filter is_next_question
              [EvSubmitAnswer "s1" Demo.midA (JNum 0) (JNum 1);
               EvNextQuestion "s1" Demo.midA AllSucceed])).
Proof.
  split; [reflexivity|].
  exact (question_index_moves_with_next_question Demo.started
           [EvSubmitAnswer "s1" Demo.midA (JNum 0) (JNum 1);
            EvNextQuestion "s1" Demo.midA AllSucceed] 0%nat Demo.room0 eq_refl).
Defined.

(** ** Profiles after a match *)


Lemma includes_In (b : string) (l : list string) :
  includes b l = true <-> In b l.
Proof.
  unfold includes. rewrite List.existsb_exists. split.
  - intros (x & Hin & E). apply String.eqb_eq in E. now subst.
  - intros H. exists b. split; [exact H | apply String.eqb_refl].
Qed.


Lemma award_user_id (s : Z) (u : UserDoc) : u_id (award_user s u) = u_id u.
Proof. reflexivity. Qed.

Lemma update_profiles_map (fs : JsMap Z) (us : list UserDoc) :
  update_profiles fs us = List.map (profile_after fs) us.
Proof.
  unfold update_profiles. revert us.
  induction fs as [|[k s] fs IH]; intros us.
  - simpl. unfold profile_after. simpl. now rewrite List.map_id.
  - cbn [List.fold_left]. rewrite IH, List.map_map. apply List.map_ext.
    intros u. cbn [fst snd]. unfold profile_after, entries_of.
    cbn [List.filter fst].
    destruct (oid_eqb (u_id u) k); [|reflexivity].
    cbn [List.fold_left snd]. now rewrite award_user_id.
Qed.




(** ** Creating, finding and joining a match *)

Lemma resolve_by_id (w : World) (mid : string) (code : option string)
    (a : nat) (room : Room) :
  truthy_str mid = true -> get_room mid w = Some (a, room) ->
  resolve (Some mid) code w = Some (a, room, Some mid).
Proof. intros Ht Hg. unfold resolve. now rewrite Ht, Hg. Qed.

Lemma resolve_by_code (w : World) (c : string) (a : nat) (room : Room) :
  truthy_str c = true -> get_room (toUpperCase c) w = Some (a, room) ->
  resolve None (Some c) w
  = Some (a, room, if truthy_str (matchId room) then Some (matchId room) else None).
Proof. intros Ht Hg. unfold resolve. now rewrite Ht, Hg. Qed.

(** X10: create-match followed by the room lookup of join-match (lines 94-290
    and 297-360).  Either create-match answers with one error event and
    nothing else, or it allocates a room in state [Waiting] with the creator
    as only player, a score of 0 for the creator and question index 0, and
    registers it under the new match id and under the match code (the first
    twelve characters of the id in upper case) -- taking the code key over
    from whatever room held it before.  From then on the lookup finds this
    room by its id, and by its code written in any letter case, and the
    match it targets is the new id. *)
Theorem create_match_then_resolve (sid cid uid : string) (n t : jsval)
    (newId : string) (seed : list nat) (w : World) :
  let w' := create_match sid cid uid n t newId seed w in
  let a := length (heap w) in
  (exists code, w' = emit (ToSocket sid) (MError code) w) \/
  (exists room,
     heap w' = heap w ++ [room] /\
     matchId room = newId /\
     matchCode room = toUpperCase (substring0 12 newId) /\
     List.map userId (players room) = [uid] /\
     state room = Waiting /\ scores room = [(uid, 0)] /\
     currentQuestionIndex room = 0 /\
     get_room newId w' = Some (a, room) /\
     get_room (matchCode room) w' = Some (a, room) /\
     (forall code, truthy_str newId = true ->
        resolve (Some newId) code w' = Some (a, room, Some newId)) /\
     (forall c, truthy_str c = true -> toUpperCase c = matchCode room ->
        resolve None (Some c) w'
        = Some (a, room, if truthy_str newId then Some newId else None))).
Proof.
  intros w' a. subst w' a. unfold create_match. cbv zeta.
  destruct (find_category cid (db_categories w)) as [category|];
    [|left;
      repeat match goal with
             | |- context [if ?b then emit _ _ _ else _] => destruct b
             end; eauto].
  destruct (js_or n (JNum QUESTIONS_PER_MATCH)) as [| | |size|];
    try (left;
         repeat match goal with
                | |- context [if ?b then emit _ _ _ else _] => destruct b
                end; eauto; fail).
  repeat match goal with
  | |- context [if ?b then emit _ _ _ else _] =>
      destruct b eqn:?; [left; eexists; reflexivity|]
  end.
  right. cbn [gameRooms set_gameRooms]. rewrite map_get_set_eq.
  match goal with
  | |- exists room, heap ?W = _ /\ _ => set (w' := W)
  end.
  eexists. split; [reflexivity|].
  do 6 (split; [reflexivity|]).
  cbn [matchCode].
  match goal with
  | |- get_room _ _ = Some (_, ?r) /\ _ => set (room := r)
  end.
  assert (Hh : heap w' !! length (heap w) = Some room).
  { subst w'. wsimpl. rewrite lookup_app_r by lia. now rewrite Nat.sub_diag. }
  assert (Hid : get_room newId w' = Some (length (heap w), room)).
  { apply get_room_inv. split; [|exact Hh]. subst w'. wsimpl.
    destruct (String.eqb_spec (toUpperCase (substring0 12 newId)) newId) as [E|E].
    - rewrite E. now rewrite map_get_set_eq.
    - rewrite map_get_set_ne by exact E. apply map_get_set_eq. }
  assert (Hcode : get_room (toUpperCase (substring0 12 newId)) w'
                  = Some (length (heap w), room)).
  { apply get_room_inv. split; [|exact Hh]. subst w'. wsimpl.
    apply map_get_set_eq. }
  split; [exact Hid|]. split; [exact Hcode|]. split.
  - intros code Ht. now apply resolve_by_id.
  - intros c Ht Hc. rewrite <- Hc in Hcode.
    now rewrite (resolve_by_code w' c _ room Ht Hcode).
Qed.

(** X11: join-match (lines 297-453).  Either the request is answered with one
    error event to the caller and nothing else changes, or the room found
    was waiting with fewer than two players and the caller is appended to it
    as a new player, whoever the caller is (the creator included) and
    without a score entry of their own; the room becomes active, no other
    room and no registry key changes, the three notifications are sent and
    the start timer is armed with a fresh handle. *)
Theorem join_match_outcome (sid : string) (mid code : option string)
    (uid : string) (w : World) :
  let w' := join_match sid mid code uid w in
  (exists c, w' = emit (ToSocket sid) (MError c) w) \/
  (exists a room t,
     resolve mid code w = Some (a, room, Some t) /\
     state room = Waiting /\ (length (players room) < 2)%nat /\
     isObjectId t = true /\ isObjectId uid = true /\
     let joiner :=
       mkPlayer uid sid (s_username (get_socket sid w)) false false false in
     let room' := set_state Active (set_players (players room ++ [joiner]) room) in
     heap w' = alter (fun _ => room') a (heap w) /\
     heap w' !! a = Some room' /\
     scores room' = scores room /\
     gameRooms w' = gameRooms w /\
     emitted w w' =
       [(ToRoom t, MMatchReady t (List.map userId (players room) ++ [uid]));
        (ToSocket sid, MMatchJoined t (List.map userId (players room) ++ [uid]));
        (ToAll, MMatchRemovedFromLobby t)] /\
     timers w' = timers w ++ [(nextTimer w, TStartMatch t)] /\
     s_matchId (get_socket sid w') = Some t).
Proof.
  intros w'. subst w'. unfold join_match.
  destruct (negb (truthy_ostr mid) && negb (truthy_ostr code));
    [left; eexists; reflexivity|].
  destruct (resolve mid code w) as [[[a room] target]|] eqn:Hr;
    [|left; eexists; reflexivity].
  destruct (negb (MatchState_eqb (state room) Waiting)
            || Nat.leb 2 (length (players room))) eqn:Hs;
    [left; eexists; reflexivity|].
  apply orb_false_iff in Hs as [Hst Hlen]. apply Nat.leb_gt in Hlen.
  apply negb_false_iff in Hst.
  assert (Hw : state room = Waiting) by (destruct (state room); now try discriminate).
  destruct target as [t|]; [|left; eexists; reflexivity].
  destruct (isObjectId t) eqn:Ht; cbn [negb]; [|left; eexists; reflexivity].
  destruct (find_match t (db_matches w)) as [m|]; [|left; eexists; reflexivity].
  destruct (_ || _); [left; eexists; reflexivity|].
  destruct (isObjectId uid) eqn:Hu; cbn [negb]; [|left; eexists; reflexivity].
  right. exists a, room, t.
  pose proof (Hh := resolve_sound _ _ _ _ _ _ Hr).
  split; [reflexivity|]. split; [exact Hw|]. split; [exact Hlen|].
  split; [exact Ht|]. split; [reflexivity|].
  cbv zeta.
  change (get_socket sid (set_db_matches ?x w)) with (get_socket sid w).
  wsimpl.
  assert (Ha : alter
            (fun r => set_state Active
               (set_players
                  (players r ++
                   [mkPlayer uid sid (s_username (get_socket sid w)) false false false])
                  r)) a (heap w) !! a
          = Some (set_state Active
               (set_players
                  (players room ++
                   [mkPlayer uid sid (s_username (get_socket sid w)) false false false])
                  room))).
  { rewrite list_lookup_alter_eq, Hh. reflexivity. }
  split.
  { apply list_eq. intros i. destruct (decide (a = i)) as [->|Hne].
    - now rewrite !list_lookup_alter_eq, Hh.
    - now rewrite !list_lookup_alter_ne. }
  split; [exact Ha|]. split; [reflexivity|]. split; [reflexivity|].
  split.
  { emitted_norm. rewrite Ha. cbn [players set_state set_players].
    now rewrite List.map_app. }
  split; [reflexivity|].
  unfold get_socket. wsimpl. now rewrite map_get_set_eq.
Qed.

(** ** Finalization *)

Lemma find_match_update (mid : string) (f : MatchDoc -> MatchDoc)
    (ms : list MatchDoc) :
  (forall m, m_id (f m) = m_id m) ->
  find_match mid (update_match mid f ms) = option_map f (find_match mid ms).
Proof.
  intros Hf. unfold find_match, update_match.
  induction ms as [|m ms IH]; [reflexivity|]. simpl.
  destruct (oid_eqb (m_id m) mid) eqn:E.
  - now rewrite Hf, E.
  - now rewrite E.
Qed.

Lemma timer_get_drop_other (id j : nat) (l : list (nat * Timer)) :
  j <> id -> timer_get id (drop_timer j l) = timer_get id l.
Proof.
  intros Hne. unfold timer_get, drop_timer.
  induction l as [|[n t] l IH]; simpl; [reflexivity|].
  destruct (Nat.eqb_spec n j) as [->|Hn]; simpl.
  - destruct (Nat.eqb_spec j id); [contradiction | exact IH].
  - destruct (Nat.eqb n id); [reflexivity | exact IH].
Qed.

Lemma clearTimeout_timers_get (id : nat) (h : option nat) (x : World) :
  h = Some id -> timer_get id (timers (clearTimeout h x)) = None.
Proof. intros ->. cbn. apply timer_get_drop. now right. Qed.

(** X12: What a finalization that succeeds leaves behind ([endMatch], lines
    943-1072).  The stored match is finished with the final scores of the
    room.  The two handles the room holds, [timerInterval] (the deadline
    armed last) and [gracePeriodTimeout] (the grace timer armed last), are
    disarmed, so that their expiry does nothing; timers armed earlier, whose
    handles the room no longer holds, are not touched.  The match id no
    longer resolves, so a call of [endMatch] for it that starts once this
    one has completed finds no room and does nothing, whatever its reason
    and whether or not the store answers: no second match-ended, no second
    award. *)
Theorem endMatch_finalizes_once (mid : string) (forfeiter reason : option string)
    (w : World) (a : nat) (room : Room) :
  get_room mid w = Some (a, room) ->
  isObjectId mid = true ->
  List.forallb (fun e => isObjectId (fst e)) (scores room) = true ->
  let w1 := endMatch mid forfeiter reason AllSucceed w in
  (forall m, find_match mid (db_matches w) = Some m ->
     exists m', find_match mid (db_matches w1) = Some m' /\
                m_state m' = Finished /\ m_scores m' = scores room) /\
  (forall id ok,
     gracePeriodTimeout room = Some id \/ timerInterval room = Some id ->
     timer_get id (timers w1) = None /\ fire_timer id ok w1 = w1) /\
  (forall id,
     gracePeriodTimeout room <> Some id -> timerInterval room <> Some id ->
     timer_get id (timers w1) = timer_get id (timers w)) /\
  get_room mid w1 = None /\
  (forall forfeiter' reason' ok', endMatch mid forfeiter' reason' ok' w1 = w1).
Proof.
  intros Hg Hm Hs w1.
  destruct (endMatch_ok mid forfeiter reason w a room Hg Hm Hs) as (_ & _ & _ & Hnone).
  fold w1 in Hnone. split; [|split; [|split; [|split; [exact Hnone|]]]].
  - intros m Hf. subst w1. unfold endMatch. rewrite Hg, Hm, Hs.
    cbn [andb failing_entry].
    assert (Hdb : forall h1 h2 x,
              db_matches (clearTimeout h1 (clearTimeout h2 x)) = db_matches x).
    { intros [?|] [?|] x; reflexivity. }
    cbn [db_matches set_gameRooms]. rewrite Hdb. wsimpl.
    rewrite find_match_update by reflexivity. rewrite Hf. cbn [option_map].
    eexists. split; [reflexivity|]. split; reflexivity.
  - intros id ok Hid.
    assert (Ht : timer_get id (timers w1) = None).
    { subst w1. unfold endMatch. rewrite Hg, Hm, Hs.
      cbn [andb failing_entry timers set_gameRooms]. destruct Hid as [Hid|Hid].
      - apply timer_get_clearTimeout. now apply clearTimeout_timers_get.
      - now apply clearTimeout_timers_get. }
    split; [exact Ht|]. unfold fire_timer. now rewrite Ht.
  - intros id Hgp Hti. subst w1. unfold endMatch. rewrite Hg, Hm, Hs.
    cbn [andb failing_entry timers set_gameRooms].
    assert (Hkeep : forall h x, h <> Some id ->
              timer_get id (timers (clearTimeout h x)) = timer_get id (timers x)).
    { intros [j|] x Hj; [|reflexivity]. cbn.
      apply timer_get_drop_other. congruence. }
    rewrite !Hkeep by assumption. reflexivity.
  - intros f' r' ok'. unfold endMatch at 1. now rewrite Hnone.
Qed.

Lemma endMatch_finalizes_once_witness :
  get_room Demo.midA Demo.started = Some (0%nat, Demo.room0) /\
  forall forfeiter' reason' ok',
    endMatch Demo.midA forfeiter' reason' ok'
      (endMatch Demo.midA None None AllSucceed Demo.started)
    = endMatch Demo.midA None None AllSucceed Demo.started.
Proof.
  split; [reflexivity|].
  exact (proj2 (proj2 (proj2 (proj2
           (endMatch_finalizes_once Demo.midA None None Demo.started
              0%nat Demo.room0 eq_refl eq_refl eq_refl))))).
Defined.

(** X13: A finalization that fails ([endMatch], lines 971-1019 and the
    [catch] branch).  The store calls are made one after the other, and what
    a call has written stays written when a later one rejects.  When the
    match id or a score key is not an object id, or the update of the match
    document rejects, the store is as it was.  When a call made for the
    score entry number [i] rejects, the match document is already finished
    and the users of the entries before [i] already have their award.  In
    every case the rest is the same: one END_MATCH_ERROR event to the room,
    no match-ended, the room stays registered with its scores and no timer
    is cleared.  So a later call for which the store answers finalizes the
    match as the first would have done, and awards the users of the entries
    before [i] a second time. *)
Theorem endMatch_failure_keeps_match (mid : string) (forfeiter reason : option string)
    (store : StoreRun) (w : World) (a : nat) (room : Room) :
  get_room mid w = Some (a, room) ->
  let casts :=
    List.forallb (fun e => isObjectId (fst e)) (scores room) && isObjectId mid in
  negb casts || store_fails store (length (scores room)) = true ->
  let w1 := endMatch mid forfeiter reason store w in
  let finished :=
    update_match mid
      (fun m =>
         mkMatchDoc (m_id m) (m_players m) (m_category m) (m_questions m)
           (scores room) Finished) (db_matches w) in
  emitted w w1 = [(ToRoom mid, MError "END_MATCH_ERROR")] /\
  get_room mid w1 = Some (a, room) /\
  gameRooms w1 = gameRooms w /\ heap w1 = heap w /\ timers w1 = timers w /\
  (casts = false \/ store = FailsAtMatch ->
     db_matches w1 = db_matches w /\ db_users w1 = db_users w) /\
  (forall i, casts = true -> store = FailsAtEntry i ->
     db_matches w1 = finished /\
     db_users w1
     = List.map (profile_after (List.firstn i (scores room))) (db_users w)) /\
  (casts = true ->
   let w2 := endMatch mid forfeiter reason AllSucceed w1 in
   emitted w1 w2 = emitted w (endMatch mid forfeiter reason AllSucceed w) /\
   db_users w2 = List.map (profile_after (scores room)) (db_users w1)).
Proof.
  intros Hg casts Hfail w1 finished.
  assert (E : exists dm du,
            w1 = emit (ToRoom mid) (MError "END_MATCH_ERROR")
                   (set_db_users du (set_db_matches dm w)) /\
            (casts = false \/ store = FailsAtMatch ->
               dm = db_matches w /\ du = db_users w) /\
            (forall i, casts = true -> store = FailsAtEntry i ->
               dm = finished /\
               du = List.map (profile_after (List.firstn i (scores room)))
                      (db_users w))).
  { subst w1. unfold endMatch. rewrite Hg. fold casts.
    destruct casts eqn:Ec.
    - cbn [negb orb] in Hfail. destruct store as [| |i]; cbn [store_fails] in Hfail.
      + discriminate.
      + exists (db_matches w), (db_users w). split; [|split].
        * now destruct w.
        * auto.
        * intros i _ Hi. discriminate Hi.
      + cbn [failing_entry]. rewrite Hfail.
        exists finished,
          (List.map (profile_after (List.firstn i (scores room))) (db_users w)).
        split; [|split].
        * wsimpl. now rewrite update_profiles_map.
        * intros [H|H]; discriminate H.
        * intros j _ Hj. inversion Hj; subst j. auto.
    - exists (db_matches w), (db_users w). split; [|split].
      + now destruct w.
      + auto.
      + intros i Hi. discriminate Hi. }
  destruct E as (dm & du & E & Hnone & Hpart).
  assert (Hg1 : get_room mid w1 = Some (a, room)) by (rewrite E; exact Hg).
  split; [rewrite E; now apply emitted_app|]. split; [exact Hg1|].
  split; [now rewrite E|]. split; [now rewrite E|]. split; [now rewrite E|].
  split; [intros H; destruct (Hnone H) as [-> ->]; now rewrite E|].
  split; [intros i Hc Hi; destruct (Hpart i Hc Hi) as [-> ->]; now rewrite E|].
  intros Hc w2. subst casts. apply andb_true_iff in Hc as [Hs Hm].
  destruct (endMatch_ok mid forfeiter reason w a room Hg Hm Hs) as (-> & _).
  destruct (endMatch_ok mid forfeiter reason w1 a room Hg1 Hm Hs) as (He & _).
  fold w2 in He. split; [exact He|].
  subst w2. unfold endMatch. rewrite Hg1, Hm, Hs. cbn [andb failing_entry].
  destruct (gracePeriodTimeout room), (timerInterval room);
    cbn [clearTimeout db_users set_gameRooms set_timers emit set_db_users];
    now apply update_profiles_map.
Qed.

Lemma endMatch_failure_keeps_match_witness :
  get_room Demo.midA Demo.both_answered = Some (0%nat, Demo.room_answered) /\
  emitted Demo.both_answered
    (endMatch Demo.midA None None (FailsAtEntry 1) Demo.both_answered)
  = [(ToRoom Demo.midA, MError "END_MATCH_ERROR")].
Proof.
  split; [reflexivity|].
  exact (proj1 (endMatch_failure_keeps_match Demo.midA None None
                  (FailsAtEntry 1) Demo.both_answered 0%nat
                  Demo.room_answered eq_refl eq_refl)).
Defined.

(** ** Callers that are not checked *)

Lemma forallb_key_false {V} (P : string -> bool) (k : string) (m : JsMap V) :
  In k (List.map fst m) -> P k = false ->
  List.forallb (fun e => P (fst e)) m = false.
Proof.
  intros Hin Hk. induction m as [|[k' v] m IH]; [destruct Hin|].
  simpl in *. destruct Hin as [->|Hin].
  - now rewrite Hk.
  - rewrite (IH Hin). apply andb_false_r.
Qed.

(** X14: submit-answer from a socket that never sent user-join (lines 465-568
    read [socket.userId], which is then undefined).  The answer is scored
    under the key ["undefined"] of the room's score object.  That key is
    never removed, and it is not an object id: whatever events follow, every
    later [endMatch] that reaches this room fails with END_MATCH_ERROR and
    changes nothing else, so the match can no longer be finalized. *)
Theorem anonymous_answer_blocks_finalization (sid mid : string) (qi : jsval)
    (sel : jsval) (w : World) (a : nat) (room : Room) (q : Question)
    (es : list Event) :
  get_room mid w = Some (a, room) ->
  s_userId (get_socket sid w) = None ->
  js_index (questionsData room) qi = Elem q ->
  let w2 := run (submit_answer sid mid qi sel w) es in
  (exists room2,
     heap w2 !! a = Some room2 /\ In "undefined" (List.map fst (scores room2))) /\
  (forall key room2 forfeiter reason ok,
     get_room key w2 = Some (a, room2) ->
     endMatch key forfeiter reason ok w2
     = emit (ToRoom key) (MError "END_MATCH_ERROR") w2).
Proof.
  intros Hg Hu Hq w2.
  destruct (submit_answer_room sid mid qi sel w a room q Hg Hq)
    as (_ & _ & (room1 & Hh1 & _ & Hs1) & _).
  rewrite Hu in Hs1. cbn [uid_key] in Hs1.
  destruct (he_run _ es a room1 Hh1) as (room2 & Hh2 & E). fold w2 in Hh2.
  destruct E as (_ & _ & _ & _ & _ & _ & _ & _ & _ & _ & _ & Hkeys).
  assert (Hin : In "undefined" (List.map fst (scores room2))).
  { apply Hkeys. rewrite Hs1, map_set_keys.
    destruct (map_get "undefined" (scores room)) eqn:E.
    - now apply map_get_in in E.
    - apply List.in_or_app. right. now left. }
  split; [exists room2; auto|].
  intros key room2' f r ok Hg2. unfold endMatch. rewrite Hg2.
  apply get_room_inv in Hg2 as [_ Hh2']. rewrite Hh2 in Hh2'.
  inversion Hh2'; subst room2'.
  rewrite (forallb_key_false isObjectId "undefined" _ Hin eq_refl).
  reflexivity.
Qed.

Lemma anonymous_answer_blocks_finalization_witness :
  get_room Demo.midA Demo.started = Some (0%nat, Demo.room0) /\
  s_userId (get_socket "s9" Demo.started) = None /\
  exists room2,
    heap (run (submit_answer "s9" Demo.midA (JNum 0) (JNum 1) Demo.started)
            [EvNextQuestion "s1" Demo.midA AllSucceed]) !! 0%nat = Some room2 /\
    In "undefined" (List.map fst (scores room2)).
Proof.
  split; [reflexivity|]. split; [reflexivity|].
  exact (proj1 (anonymous_answer_blocks_finalization "s9" Demo.midA (JNum 0)
                  (JNum 1) Demo.started 0%nat Demo.room0 Demo.first_question
                  [EvNextQuestion "s1" Demo.midA AllSucceed]
                  eq_refl eq_refl eq_refl)).
Defined.

(** X15: forfeit-match does not ask that the caller plays in the match (lines
    690-714).  Sent by a socket whose user is none of the players, it gives
    the first player of the room the bonus of 50 and finalizes the match in
    the same turn with that player as winner; the key stops resolving. *)
Theorem forfeit_match_by_outsider (sid mid u : string) (w : World) (a : nat)
    (room : Room) (p1 : Player) (rest : list Player) :
  get_room mid w = Some (a, room) ->
  players room = p1 :: rest ->
  s_userId (get_socket sid w) = Some u ->
  truthy_str u = true ->
  Forall (fun p => userId p <> u) (players room) ->
  isObjectId mid = true ->
  isObjectId (userId p1) = true ->
  List.forallb (fun e => isObjectId (fst e)) (scores room) = true ->
  let w' := forfeit_match sid mid AllSucceed w in
  let finalScores :=
    map_set (userId p1) (score_of (userId p1) (scores room) + 50) (scores room) in
  get_room mid w' = None /\
  exists leaderboard,
    emitted w w' =
      [(ToRoom mid,
        MMatchEnded mid (Some (userId p1)) finalScores leaderboard
          "Player forfeited")].
Proof.
  intros Hg Hp Hu Ht Hout Hm H1 Hs w' finalScores.
  subst w'. unfold forfeit_match. rewrite Hu, Hg, Hp.
  rewrite Hp in Hout. inversion Hout as [|? ? Hp1 Hrest]; subst.
  assert (E1 : String.eqb (userId p1) u = false) by now apply String.eqb_neq.
  cbn [List.find uid_is]. rewrite E1. cbn [negb].
  set (bonus := fun r : Room => set_scores _ r).
  pose proof (get_room_update mid w a room bonus Hg) as Hg1.
  assert (Hs1 : List.forallb (fun e => isObjectId (fst e)) (scores (bonus room)) = true).
  { subst bonus. cbn [scores set_scores]. now apply forallb_map_set. }
  destruct (endMatch_ok mid (Some u) (Some "Player forfeited") _ a _ Hg1 Hm Hs1)
    as (Hem & _ & _ & Hnone).
  split; [exact Hnone|].
  exists (build_leaderboard (bonus room)).
  assert (Hout1 : emitted w (update_room a bonus w) = [])
    by (unfold emitted; cbn [outbox update_room set_heap]; apply List.skipn_all).
  assert (Hob : outbox (update_room a bonus w) = outbox w) by reflexivity.
  unfold emitted in *. rewrite Hob in Hem. rewrite Hem.
  rewrite pick_winner_forfeit by exact Ht.
  subst bonus. cbn [players set_scores scores]. rewrite Hp.
  cbn [List.map List.find]. rewrite E1. reflexivity.
Qed.

Lemma forfeit_match_by_outsider_witness :
  let w := put_socket "s3" (mkSocket (Some Demo.carol) None None) Demo.started in
  get_room Demo.midA w = Some (0%nat, Demo.room0) /\
  s_userId (get_socket "s3" w) = Some Demo.carol /\
  get_room Demo.midA (forfeit_match "s3" Demo.midA AllSucceed w) = None.
Proof.
  intros w. split; [reflexivity|]. split; [reflexivity|].
  refine (proj1 (forfeit_match_by_outsider "s3" Demo.midA Demo.carol w 0%nat
                   Demo.room0 _ _ eq_refl eq_refl eq_refl eq_refl _
                   eq_refl eq_refl eq_refl)).
  repeat constructor; discriminate.
Defined.

(** ** A question without the option named as correct *)

Lemma run_crashed (w : World) (es : list Event) :
  crashed w = true -> run w es = w.
Proof.
  intros H. induction es as [|e es IH]; [reflexivity|].
  cbn [run List.fold_left]. unfold step at 2. rewrite H. exact IH.
Qed.

(** X16: The deadline of a question none of whose options carries
    [correctOptionId] (timer callback of [deliverQuestion], lines 891-902,
    and [displayQuestionResults], lines 910-937).  When the timer fires
    while the question is current, question-timeout is sent, then reading
    [correctOption.text] throws outside any [try]: no question-results is
    sent and the server process exits, after which no event has any effect. *)
Theorem deadline_without_correct_option_crashes (mid : string) (w : World)
    (a : nat) (room : Room) (id : nat) (qi : Z) (q : Question) (ok : StoreRun) :
  crashed w = false ->
  get_room mid w = Some (a, room) ->
  timer_get id (timers w) = Some (TQuestionTimeout mid a qi) ->
  currentQuestionIndex room = qi ->
  at_index (questionsData room) qi = Some q ->
  correctOption q = None ->
  let w' := step w (EvTimer id ok) in
  crashed w' = true /\
  emitted w w' = [(ToRoom mid, MQuestionTimeout qi)] /\
  heap w' = heap w /\
  forall es, run w' es = w'.
Proof.
  intros Hc Hg Ht Hi Hq Hno w'.
  assert (E : w' = set_crashed (emit (ToRoom mid) (MQuestionTimeout qi)
                      (set_timers (drop_timer id (timers w)) (nextTimer w) w))).
  { subst w'. unfold step. rewrite Hc. unfold fire_timer. rewrite Ht.
    cbn [run_timer]. pose proof Hg as Hg'. apply get_room_inv in Hg' as [Hk Hh].
    cbn [heap set_timers]. rewrite Hh, Hi, Z.eqb_refl.
    unfold displayQuestionResults.
    assert (Hg2 : get_room mid
              (emit (ToRoom mid) (MQuestionTimeout qi)
                 (set_timers (drop_timer id (timers w)) (nextTimer w) w))
              = Some (a, room)) by exact Hg.
    rewrite Hg2. cbn [js_index]. rewrite Hq, Hno. reflexivity. }
  rewrite E. split; [reflexivity|]. split; [|split; [reflexivity|]].
  - emitted_norm. reflexivity.
  - intros es. now apply run_crashed.
Qed.

Lemma deadline_without_correct_option_crashes_witness :
  get_room Demo.midA Lacking.started = Some (0%nat, Lacking.room0) /\
  timer_get 2 (timers Lacking.started)
  = Some (TQuestionTimeout Demo.midA 0 0) /\
  crashed (step Lacking.started (EvTimer 2 AllSucceed)) = true.
Proof.
  split; [reflexivity|]. split; [reflexivity|].
  exact (proj1 (deadline_without_correct_option_crashes Demo.midA Lacking.started
                  0%nat Lacking.room0 2%nat 0 (Lacking.question "q1") AllSucceed
                  eq_refl eq_refl eq_refl eq_refl eq_refl eq_refl)).
Defined.

(** ** Finishing and advancing *)

(** X17: finish-quiz for the two players of a match (lines 574-610).  The first
    request marks its player and only tells the others; the request for the
    second player finalizes the match in the same turn, the winner being
    decided by score.  The user id comes from the payload: the sockets that
    send the two requests are not looked at. *)
Theorem finish_quiz_both_players (sid1 sid2 mid : string) (ok1 : StoreRun) (w : World)
    (a : nat) (room : Room) (p1 p2 : Player) :
  get_room mid w = Some (a, room) ->
  players room = [p1; p2] ->
  userId p1 <> userId p2 ->
  finishReady p2 = false ->
  isObjectId mid = true ->
  List.forallb (fun e => isObjectId (fst e)) (scores room) = true ->
  let w1 := finish_quiz sid1 mid (userId p1) ok1 w in
  let w2 := finish_quiz sid2 mid (userId p2) AllSucceed w1 in
  emitted w w1 = [(ToRoomExcept mid sid1, MOpponentFinishReady)] /\
  get_room mid w1
  = Some (a, set_players [set_finishReady true p1; p2] room) /\
  emitted w1 w2 =
    [(ToRoom mid,
      MMatchEnded mid (pick_winner None room) (scores room)
        (build_leaderboard room) "Both players finished quiz")] /\
  get_room mid w2 = None.
Proof.
  intros Hg Hp Hne Hf2 Hm Hs w1 w2.
  pose proof Hg as Hg'. apply get_room_inv in Hg' as [Hk Hh].
  set (mark1 := fun r : Room =>
         set_players
           (mark_first (fun p => String.eqb (userId p) (userId p1))
              (set_finishReady true) (players r)) r).
  assert (E1 : w1 = emit (ToRoomExcept mid sid1) MOpponentFinishReady
                      (update_room a mark1 w)).
  { subst w1. unfold finish_quiz. rewrite Hg. cbv zeta. fold mark1.
    cbn [heap update_room set_heap]. rewrite list_lookup_alter_eq, Hh.
    cbn [option_map fmap option_fmap]. subst mark1. cbn [players set_players].
    rewrite Hp, mark_first_cons, String.eqb_refl.
    cbn [length Nat.leb List.forallb finishReady set_finishReady andb].
    rewrite Hf2. reflexivity. }
  assert (Hroom1 : mark1 room = set_players [set_finishReady true p1; p2] room).
  { subst mark1. cbn beta. now rewrite Hp, mark_first_cons, String.eqb_refl. }
  assert (Hg1 : get_room mid w1
                = Some (a, set_players [set_finishReady true p1; p2] room)).
  { rewrite E1, <- Hroom1. exact (get_room_update mid w a room mark1 Hg). }
  split; [rewrite E1; emitted_norm; reflexivity|]. split; [exact Hg1|].
  set (room1 := set_players [set_finishReady true p1; p2] room) in *.
  set (mark2 := fun r : Room =>
         set_players
           (mark_first (fun p => String.eqb (userId p) (userId p2))
              (set_finishReady true) (players r)) r).
  assert (Hg2 : get_room mid (update_room a mark2 w1) = Some (a, mark2 room1))
    by exact (get_room_update mid w1 a room1 mark2 Hg1).
  assert (E12 : String.eqb (userId p1) (userId p2) = false)
    by now apply String.eqb_neq.
  assert (Hroom2 : mark2 room1
                   = set_players [set_finishReady true p1; set_finishReady true p2] room).
  { subst mark2 room1. cbn beta. cbn [players set_players].
    rewrite mark_first_cons. cbn [userId set_finishReady]. rewrite E12.
    rewrite mark_first_cons, String.eqb_refl. reflexivity. }
  assert (E2 : w2 = endMatch mid None (Some "Both players finished quiz") AllSucceed
                      (update_room a mark2 w1)).
  { subst w2. unfold finish_quiz. rewrite Hg1. cbv zeta. fold mark2.
    pose proof Hg2 as Hg2'. apply get_room_inv in Hg2' as [_ Hh2].
    rewrite Hh2, Hroom2. reflexivity. }
  assert (Hs2 : List.forallb (fun e => isObjectId (fst e)) (scores (mark2 room1)) = true)
    by (rewrite Hroom2; exact Hs).
  destruct (endMatch_ok mid None (Some "Both players finished quiz") _ a _ Hg2 Hm Hs2)
    as (Hem & _ & _ & Hnone).
  rewrite <- E2 in Hem, Hnone. split; [|exact Hnone].
  assert (Hob : outbox (update_room a mark2 w1) = outbox w1) by reflexivity.
  unfold emitted in *. rewrite Hob in Hem. rewrite Hem, Hroom2.
  unfold pick_winner, build_leaderboard. cbn [truthy_ostr scores set_players players].
  rewrite Hp. reflexivity.
Qed.

Lemma finish_quiz_both_players_witness :
  get_room Demo.midA Demo.started = Some (0%nat, Demo.room0) /\
  get_room Demo.midA
    (finish_quiz "s2" Demo.midA Demo.bob AllSucceed
       (finish_quiz "s1" Demo.midA Demo.alice AllSucceed Demo.started)) = None.
Proof.
  split; [reflexivity|].
  refine (proj2 (proj2 (proj2
            (finish_quiz_both_players "s1" "s2" Demo.midA AllSucceed Demo.started 0%nat
               Demo.room0 _ _ eq_refl eq_refl _ eq_refl eq_refl eq_refl)))).
  discriminate.
Defined.

Lemma at_index_in_range {A} (l : list A) (i : Z) :
  0 <= i < Z.of_nat (length l) -> exists x, at_index l i = Some x.
Proof.
  intros H. unfold at_index.
  destruct (Z.ltb_spec i 0) as [Hlt|_]; [lia|].
  destruct (l !! Z.to_nat i) eqn:E; [eauto|].
  apply lookup_ge_None in E. lia.
Qed.

(** One next-question that stays within the questions of the room. *)
Lemma next_question_delivers (sid mid : string) (ok : StoreRun) (w : World)
    (a : nat) (room : Room) :
  get_room mid w = Some (a, room) ->
  0 <= currentQuestionIndex room + 1 < Z.of_nat (length (questionsData room)) ->
  let i := currentQuestionIndex room + 1 in
  let w' := next_question sid mid ok w in
  let room' :=
    set_timerInterval (Some (nextTimer w))
      (set_startTime (Some (clock w))
         (set_players (List.map (set_answered false) (players room))
            (set_currentQuestionIndex i room))) in
  get_room mid w' = Some (a, room') /\
  outbox w' = outbox w ++ display_of mid room i /\
  timers w' = timers w ++ [(nextTimer w, TQuestionTimeout mid a i)] /\
  crashed w' = crashed w.
Proof.
  intros Hg Hi i w' room'.
  destruct (at_index_in_range (questionsData room) i Hi) as (q & Hq).
  set (w1 := update_room a (set_currentQuestionIndex i) w).
  assert (Hg1 : get_room mid w1 = Some (a, set_currentQuestionIndex i room))
    by exact (get_room_update mid w a room _ Hg).
  set (reset := fun r : Room =>
         set_startTime (Some (clock w))
           (set_players (List.map (set_answered false) (players r)) r)).
  assert (E : w' = update_room a (set_timerInterval (Some (nextTimer w)))
                     (set_timers (timers w ++ [(nextTimer w, TQuestionTimeout mid a i)])
                        (S (nextTimer w))
                        (emit (ToRoom mid)
                           (MQuestionDisplay i q
                              (js_or (questionTimeLimit room) (JNum QUESTION_TIME_LIMIT))
                              (length (questionsData room)))
                           (update_room a reset w1)))).
  { subst w'. unfold next_question. rewrite Hg. cbv zeta. fold i.
    destruct (Z.geb_spec i (Z.of_nat (length (questionsData room)))) as [Hge|_];
      [lia|].
    fold w1. unfold deliverQuestion. rewrite Hg1.
    cbn [questionsData set_currentQuestionIndex questionTimeLimit]. rewrite Hq.
    reflexivity. }
  rewrite E. split; [|split; [|split; reflexivity]].
  - pose proof (get_room_update mid w1 a _ reset Hg1) as Hg2.
    pose proof (get_room_update mid (update_room a reset w1) a _
                  (set_timerInterval (Some (nextTimer w))) Hg2) as Hg3.
    exact Hg3.
  - wsimpl. unfold display_of. now rewrite Hq.
Qed.

Lemma next_question_outbox_walk (sid mid : string) (ok : StoreRun) (a : nat) (k : nat) :
  forall (w : World) (room : Room),
  crashed w = false ->
  get_room mid w = Some (a, room) ->
  0 <= currentQuestionIndex room ->
  currentQuestionIndex room + Z.of_nat k < Z.of_nat (length (questionsData room)) ->
  let w' := run w (List.repeat (EvNextQuestion sid mid ok) k) in
  exists room',
    get_room mid w' = Some (a, room') /\
    crashed w' = false /\
    currentQuestionIndex room' = currentQuestionIndex room + Z.of_nat k /\
    questionsData room' = questionsData room /\
    questionTimeLimit room' = questionTimeLimit room /\
    outbox w' = outbox w ++
      List.flat_map (display_of mid room)
        (List.map (fun j => currentQuestionIndex room + Z.of_nat j) (List.seq 1 k)).
Proof.
  induction k as [|k IH]; intros w room Hc Hg H0 Hk w'.
  - exists room. subst w'. cbn. rewrite List.app_nil_r.
    repeat split; auto; lia.
  - subst w'. cbn [List.repeat run List.fold_left].
    fold (run (step w (EvNextQuestion sid mid ok))
            (List.repeat (EvNextQuestion sid mid ok) k)).
    assert (Es : step w (EvNextQuestion sid mid ok) = next_question sid mid ok w)
      by (unfold step; now rewrite Hc).
    rewrite Es.
    destruct (next_question_delivers sid mid ok w a room Hg ltac:(lia))
      as (Hg1 & Ho1 & _ & Hc1).
    set (w1 := next_question sid mid ok w) in *.
    set (room1 := set_timerInterval _ _) in Hg1.
    rewrite Hc in Hc1.
    destruct (IH w1 room1 Hc1 Hg1) as (room' & Hg' & Hc' & Hi' & Hq' & Ht' & Ho');
      [subst room1; cbn; lia | subst room1; cbn; lia |].
    exists room'. split; [exact Hg'|]. split; [exact Hc'|].
    split; [rewrite Hi'; subst room1; cbn; lia|].
    split; [rewrite Hq'; reflexivity|]. split; [rewrite Ht'; reflexivity|].
    rewrite Ho', Ho1, <- List.app_assoc. f_equal.
    cbn [List.seq List.map List.flat_map]. rewrite Nat2Z.inj_succ at 1.
    replace (currentQuestionIndex room + Z.succ (Z.of_nat 0))
      with (currentQuestionIndex room + 1) by lia.
    f_equal. rewrite <- (List.seq_shift k 1), List.map_map.
    rewrite !List.flat_map_concat_map, !List.map_map. f_equal.
    apply List.map_ext. intros j. subst room1.
    cbn [currentQuestionIndex set_timerInterval set_startTime set_players
         set_currentQuestionIndex].
    replace (currentQuestionIndex room + 1 + Z.of_nat j)
      with (currentQuestionIndex room + Z.of_nat (S j)) by lia.
    reflexivity.
Qed.

(** X18: next-question sent [k] times in a row (lines 617-650), while the index
    stays within the questions of the room: the index has moved forward by
    exactly [k], and the events sent are the question-display events of the
    [k] following questions, in order, each with its own question.  Any
    socket may send the request. *)
Theorem next_question_walk (sid mid : string) (ok : StoreRun) (w : World) (a : nat)
    (room : Room) (k : nat) :
  crashed w = false ->
  get_room mid w = Some (a, room) ->
  0 <= currentQuestionIndex room ->
  currentQuestionIndex room + Z.of_nat k < Z.of_nat (length (questionsData room)) ->
  let w' := run w (List.repeat (EvNextQuestion sid mid ok) k) in
  (exists room',
     get_room mid w' = Some (a, room') /\
     currentQuestionIndex room' = currentQuestionIndex room + Z.of_nat k /\
     questionsData room' = questionsData room) /\
  emitted w w' =
    List.flat_map (display_of mid room)
      (List.map (fun j => currentQuestionIndex room + Z.of_nat j) (List.seq 1 k)) /\
  length (emitted w w') = k.
Proof.
  intros Hc Hg H0 Hk w'.
  destruct (next_question_outbox_walk sid mid ok a k w room Hc Hg H0 Hk)
    as (room' & Hg' & _ & Hi' & Hq' & _ & Ho').
  fold w' in Hg', Ho'.
  split; [exists room'; auto|].
  pose proof (emitted_app w w' _ Ho') as He. split; [exact He|].
  rewrite He. clear -H0 Hk.
  assert (H : forall l, Forall (fun j => 0 <= j < Z.of_nat (length (questionsData room))) l ->
            length (List.flat_map (display_of mid room) l) = length l).
  { induction l as [|j l IH]; intros Hl; [reflexivity|].
    inversion Hl as [|? ? Hj Hl']; subst. cbn [List.flat_map].
    rewrite List.length_app, (IH Hl'). unfold display_of.
    destruct (at_index_in_range _ j Hj) as (q & ->). reflexivity. }
  rewrite H, List.length_map, List.length_seq; [reflexivity|].
  apply List.Forall_forall. intros j Hj.
  apply List.in_map_iff in Hj as (i & <- & Hi). apply List.in_seq in Hi. lia.
Qed.

Lemma next_question_walk_witness :
  get_room Demo.midA Demo.started = Some (0%nat, Demo.room0) /\
  length (emitted Demo.started
            (run Demo.started
               (List.repeat (EvNextQuestion "s1" Demo.midA AllSucceed) 2)))
  = 2%nat.
Proof.
  split; [reflexivity|].
  refine (proj2 (proj2 (next_question_walk "s1" Demo.midA AllSucceed Demo.started 0%nat
                          Demo.room0 2 eq_refl eq_refl _ _))).
  - discriminate.
  - reflexivity.
Defined.

(** X19: next-question on the last question (lines 617-650): the index moves
    past the end and the match is finalized in the same turn, by score,
    with the default reason. *)
Theorem next_question_past_last (sid mid : string) (w : World) (a : nat)
    (room : Room) :
  get_room mid w = Some (a, room) ->
  currentQuestionIndex room + 1 >= Z.of_nat (length (questionsData room)) ->
  isObjectId mid = true ->
  List.forallb (fun e => isObjectId (fst e)) (scores room) = true ->
  let w' := next_question sid mid AllSucceed w in
  emitted w w' =
    [(ToRoom mid,
      MMatchEnded mid (pick_winner None room) (scores room)
        (build_leaderboard room) "Match completed")] /\
  get_room mid w' = None /\
  (exists room',
     heap w' !! a = Some room' /\
     currentQuestionIndex room' = currentQuestionIndex room + 1).
Proof.
  intros Hg Hi Hm Hs w'.
  set (i := currentQuestionIndex room + 1) in *.
  set (w1 := update_room a (set_currentQuestionIndex i) w).
  assert (Hg1 : get_room mid w1 = Some (a, set_currentQuestionIndex i room))
    by exact (get_room_update mid w a room _ Hg).
  assert (E : w' = endMatch mid None None AllSucceed w1).
  { subst w'. unfold next_question. rewrite Hg. cbv zeta. fold i.
    destruct (Z.geb_spec i (Z.of_nat (length (questionsData room)))) as [_|Hlt];
      [reflexivity | lia]. }
  destruct (endMatch_ok mid None None w1 a _ Hg1 Hm Hs) as (Hem & _ & Hheap & Hnone).
  rewrite <- E in Hem, Hnone, Hheap.
  assert (Hob : outbox w1 = outbox w) by reflexivity.
  split; [|split; [exact Hnone|]].
  - unfold emitted in *. rewrite Hob in Hem. exact Hem.
  - exists (set_currentQuestionIndex i room). split; [|reflexivity].
    rewrite Hheap. now apply get_room_inv in Hg1.
Qed.

Lemma next_question_past_last_witness :
  get_room Demo.midA LastQuestion.reached = Some (0%nat, LastQuestion.room2) /\
  get_room Demo.midA
    (next_question "s1" Demo.midA AllSucceed LastQuestion.reached) = None.
Proof.
  split; [reflexivity|].
  refine (proj1 (proj2 (next_question_past_last "s1" Demo.midA LastQuestion.reached
                          0%nat LastQuestion.room2 eq_refl _ eq_refl eq_refl))).
  discriminate.
Defined.

(** ** Reconnection and the old socket *)

Lemma find_index_none {A} (f : A -> bool) (l : list A) :
  Forall (fun x => f x = false) l -> find_index f l = None.
Proof.
  induction 1 as [|x l Hx _ IH]; [reflexivity|].
  simpl. now rewrite Hx, IH.
Qed.

Lemma rebound_sockets (sid_old sid_new uid : string) (l : list Player) :
  sid_new <> sid_old ->
  List.NoDup (List.map userId l) ->
  (forall p, In p l -> socketId p = sid_old -> userId p = uid) ->
  Forall (fun p => String.eqb (socketId p) sid_old = false)
    (mark_first (fun p => String.eqb (userId p) uid)
       (fun p => set_socketId sid_new (set_disconnected false p)) l).
Proof.
  intros Hne. induction l as [|p l IH]; intros Hnd Hs; [constructor|].
  rewrite mark_first_cons. inversion Hnd as [|? ? Hp Hl]; subst.
  destruct (String.eqb_spec (userId p) uid) as [E|E].
  - constructor.
    + cbn [socketId set_socketId]. now apply String.eqb_neq.
    + apply List.Forall_forall. intros q Hq. apply String.eqb_neq. intros Hsq.
      apply Hp. apply List.in_map_iff. exists q. split; [|exact Hq].
      rewrite E. apply Hs; [now right | exact Hsq].
  - constructor.
    + apply String.eqb_neq. intros Hsp. apply E. apply Hs; [now left | exact Hsp].
    + apply IH; [exact Hl|]. intros q Hq. apply Hs. now right.
Qed.

(** X20: reconnect-match followed by the disconnect of the socket it replaces
    (lines 720-771 and 777-824).  Once a player has reconnected on a new
    socket, no player of the room is bound to the old socket any more, so
    the disconnect event of the old socket changes nothing: nobody is marked
    disconnected and no grace timer is armed. *)
Theorem stale_disconnect_after_reconnect (sid_old sid_new mid uid : string)
    (w : World) (a : nat) (room : Room) :
  get_room mid w = Some (a, room) ->
  s_matchId (get_socket sid_old w) = Some mid ->
  sid_new <> sid_old ->
  List.NoDup (List.map userId (players room)) ->
  (forall p, In p (players room) -> socketId p = sid_old -> userId p = uid) ->
  let w1 := reconnect_match sid_new mid uid w in
  disconnect sid_old w1 = w1.
Proof.
  intros Hg Hm Hne Hnd Hs w1.
  set (rebind := fun r : Room =>
         set_players
           (mark_first (fun p => String.eqb (userId p) uid)
              (fun p => set_socketId sid_new (set_disconnected false p))
              (players r)) r).
  set (w0 := put_socket sid_new
               (mkSocket (Some uid) (s_username (get_socket sid_new w)) (Some mid)) w).
  assert (Hg0 : get_room mid w0 = Some (a, room)) by exact Hg.
  pose proof (get_room_update mid w0 a room rebind Hg0) as Hg1.
  assert (Hsock : get_socket sid_old w1 = get_socket sid_old w).
  { subst w1. unfold reconnect_match. rewrite Hg. cbv zeta.
    fold w0. fold rebind.
    assert (get_socket sid_old (update_room a rebind w0) = get_socket sid_old w).
    { unfold get_socket. subst w0. wsimpl. now rewrite map_get_set_ne. }
    destruct (heap _ !! a); exact H. }
  assert (Hroom : get_room mid w1 = Some (a, rebind room)).
  { subst w1. unfold reconnect_match. rewrite Hg. cbv zeta.
    fold w0. fold rebind.
    destruct (heap _ !! a); exact Hg1. }
  unfold disconnect. rewrite Hsock, Hm.
  destruct (negb (truthy_str mid)); [reflexivity|].
  rewrite Hroom. subst rebind. cbn [players set_players].
  rewrite find_index_none; [reflexivity|].
  now apply rebound_sockets.
Qed.

Lemma stale_disconnect_after_reconnect_witness :
  get_room Demo.midA Demo.started = Some (0%nat, Demo.room0) /\
  s_matchId (get_socket "s1" Demo.started) = Some Demo.midA /\
  disconnect "s1" (reconnect_match "s1b" Demo.midA Demo.alice Demo.started)
  = reconnect_match "s1b" Demo.midA Demo.alice Demo.started.
Proof.
  split; [reflexivity|]. split; [reflexivity|].
  refine (stale_disconnect_after_reconnect "s1" "s1b" Demo.midA Demo.alice
            Demo.started 0%nat Demo.room0 eq_refl eq_refl _ _ _).
  - discriminate.
  - repeat constructor; simpl; intuition discriminate.
  - intros p [<-|[<-|[]]]; [reflexivity | discriminate].
Defined.

(** ** Levels and badges *)

(** X21: [calculateLevel] (calculateXP.js, lines 136-140) on integer XP: level
    [l] below the cap is held exactly on the band of 500 XP that starts at
    [500 * (l - 1)], the cap 100 from 49500 XP on.  A negative XP gives a
    level below 1. *)
Theorem calculateLevel_bands (xp l : Z) :
  calculateLevel (Some xp) = l <->
  (l < 100 /\ 500 * (l - 1) <= xp < 500 * l) \/ (l = 100 /\ 49500 <= xp).
Proof.
  unfold calculateLevel. cbn [param_default]. cbv zeta.
  pose proof (Z.div_mod xp 500 ltac:(lia)) as Hd.
  pose proof (Z.mod_pos_bound xp 500 ltac:(lia)) as Hm.
  split.
  - intros <-. destruct (Z.min_spec (xp / 500 + 1) 100) as [[H ->]|[H ->]].
    + left. split; lia.
    + right. split; lia.
  - intros [[Hl H]|[-> H]].
    + rewrite Z.min_l by nia. nia.
    + rewrite Z.min_r by nia. reflexivity.
Qed.

Lemma dedupe_acc_nodup (l acc : list string) :
  List.NoDup (acc ++ l) ->
  List.fold_left (fun acc b => if includes b acc then acc else acc ++ [b]) l acc
  = acc ++ l.
Proof.
  revert acc. induction l as [|b l IH]; intros acc H; simpl.
  - now rewrite List.app_nil_r.
  - assert (Hb : includes b acc = false).
    { destruct (includes b acc) eqn:E; [|reflexivity].
      apply includes_In in E. apply List.NoDup_remove_2 in H.
      exfalso. apply H. apply List.in_or_app. now left. }
    rewrite Hb. rewrite IH; rewrite <- List.app_assoc; [reflexivity | exact H].
Qed.

Lemma push_if_app (c : bool) (b : string) (l : list string) :
  push_if c b l = l ++ (if c then [b] else []).
Proof. destruct c; simpl; [reflexivity | now rewrite List.app_nil_r]. Qed.

Lemma collected_badges_table (xp score streak : Z) :
  collected_badges xp score streak = held_badges (badge_table xp score streak).
Proof.
  unfold collected_badges, held_badges, badge_table. cbv zeta.
  rewrite !push_if_app. cbn [List.flat_map fst snd].
  rewrite <- !List.app_assoc. cbn [List.app]. now rewrite List.app_nil_r.
Qed.

Lemma held_badges_In (t : list (bool * string)) (name : string) :
  In name (held_badges t) <-> In (true, name) t.
Proof.
  unfold held_badges. induction t as [|[c b] t IH]; [reflexivity|].
  cbn [List.flat_map fst snd]. rewrite List.in_app_iff, IH. cbn [In].
  destruct c; cbn [In]; split.
  - intros [[<-|[]]|H]; auto.
  - intros [H|H]; [inversion H; auto | auto].
  - intros [[]|H]; auto.
  - intros [H|H]; [discriminate H | auto].
Qed.

Lemma held_badges_nodup (t : list (bool * string)) :
  List.NoDup (List.map snd t) -> List.NoDup (held_badges t).
Proof.
  induction t as [|[c b] t IH]; intros H; [constructor|].
  inversion H as [|? ? Hb Ht]; subst. unfold held_badges. cbn [List.flat_map fst snd].
  destruct c; cbn [List.app]; [|now apply IH].
  constructor; [|now apply IH].
  intros Hin. apply held_badges_In in Hin. apply Hb.
  apply List.in_map_iff. exists (true, b). auto.
Qed.

(** X22: [checkBadges] (calculateXP.js, lines 62-84) on integers: no badge is
    collected twice, so removing duplicates changes nothing; a badge held
    for some XP and streak is held for any greater XP and streak at the same
    score; the badge of the perfect score is held at score 100 only, and
    then the two lower score badges are held too. *)
Theorem checkBadges_facts (xp score streak : Z) :
  let badges := checkBadges (Some xp) (Some score) (Some streak) in
  List.NoDup badges /\
  badges = collected_badges xp score streak /\
  (forall xp' streak', xp <= xp' -> streak <= streak' ->
     incl badges (checkBadges (Some xp') (Some score) (Some streak'))) /\
  (In "Perfect Match" badges <-> score = 100) /\
  (In "Perfect Match" badges -> In "Expert" badges /\ In "Skilled" badges).
Proof.
  intros badges.
  assert (Hnd : forall x s k, List.NoDup (collected_badges x s k)).
  { intros x s k. rewrite collected_badges_table. apply held_badges_nodup.
    unfold badge_table. cbn [List.map snd].
    repeat (constructor;
            [cbn [In]; intros H;
             repeat (destruct H as [H|H]; [discriminate H|]); exact H|]).
    constructor. }
  assert (Heq : forall x s k,
            checkBadges (Some x) (Some s) (Some k) = collected_badges x s k).
  { intros x s k. unfold checkBadges, dedupe. cbn [param_default].
    apply (dedupe_acc_nodup _ []). apply Hnd. }
  subst badges. rewrite Heq.
  split; [apply Hnd|]. split; [reflexivity|].
  assert (Hin : forall x s k name,
            In name (collected_badges x s k) <-> In (true, name) (badge_table x s k)).
  { intros. rewrite collected_badges_table. apply held_badges_In. }
  assert (Hperfect : In "Perfect Match" (collected_badges xp score streak)
                     <-> score = 100).
  { rewrite Hin. unfold badge_table. cbn [In]. split.
    - intros H.
      repeat (destruct H as [H|H]; [try discriminate H|]); try contradiction.
      inversion H as [Hs]. now apply Z.eqb_eq.
    - intros ->. do 5 right. left. reflexivity. }
  split; [|split; [exact Hperfect|]].
  - intros xp' streak' Hx Hk name Hn. rewrite Heq. apply Hin. apply Hin in Hn.
    unfold badge_table in *. cbn [In] in *.
    repeat (destruct Hn as [Hn|Hn];
            [injection Hn as Hc Hname; subst name;
             first [apply Z.geb_le in Hc | apply Z.eqb_eq in Hc];
             repeat (first
                       [ solve [left; apply pair_equal_spec; split;
                                [first [apply Z.geb_le; lia | apply Z.eqb_eq; lia]
                                |reflexivity]]
                       | right ])|]).
    contradiction.
  - intros H. apply Hperfect in H. subst score.
    split; apply Hin; unfold badge_table; cbn [In].
    + do 6 right. left. reflexivity.
    + do 7 right. left. reflexivity.
Qed.

(** ** From the join to the first question *)

Lemma timer_get_fresh (id : nat) (l : list (nat * Timer)) :
  (forall j cb, In (j, cb) l -> (j < id)%nat) -> timer_get id l = None.
Proof.
  unfold timer_get. induction l as [|[j t] l IH]; intros H; [reflexivity|].
  simpl. destruct (Nat.eqb_spec j id) as [->|Hne].
  - specialize (H id t (or_introl eq_refl)). lia.
  - apply IH. intros j' cb Hin. apply (H j' cb). now right.
Qed.

Lemma timer_get_below (id : nat) (l : list (nat * Timer)) :
  Forall (fun t => (fst t < id)%nat) l -> timer_get id l = None.
Proof.
  intros H. apply timer_get_fresh. intros j cb Hin.
  rewrite List.Forall_forall in H. exact (H (j, cb) Hin).
Qed.

Lemma drop_timer_below (j id : nat) (l : list (nat * Timer)) :
  Forall (fun t => (fst t < id)%nat) l ->
  Forall (fun t => (fst t < id)%nat) (drop_timer j l).
Proof.
  intros H. apply List.Forall_forall. intros [i cb] Hin.
  apply drop_timer_in in Hin. rewrite List.Forall_forall in H. exact (H _ Hin).
Qed.

(** X23: The start of a match ([startMatch], lines 837-856, and
    [deliverQuestion], lines 862-905, as timer callbacks).  When the start
    timer armed by join-match fires, the room is told start-battle and a
    second timer is armed; when that one fires, question 0 is sent to the
    room, every player is marked as not having answered, and the deadline of
    question 0 is armed under a fresh handle that the room remembers. *)
Theorem match_start_sequence (mid : string) (w : World) (a : nat) (room : Room)
    (id : nat) (q : Question) (ok1 ok2 : StoreRun) :
  crashed w = false ->
  get_room mid w = Some (a, room) ->
  timer_get id (timers w) = Some (TStartMatch mid) ->
  Forall (fun t => (fst t < nextTimer w)%nat) (timers w) ->
  at_index (questionsData room) 0 = Some q ->
  let n := nextTimer w in
  let w1 := step w (EvTimer id ok1) in
  let w2 := step w1 (EvTimer n ok2) in
  emitted w w1 =
    [(ToRoom mid,
      MStartBattle mid (length (questionsData room))
        (js_or (questionTimeLimit room) (JNum QUESTION_TIME_LIMIT)))] /\
  timer_get n (timers w1) = Some (TDeliverFirst mid) /\
  emitted w1 w2 = display_of mid room 0 /\
  get_room mid w2
  = Some (a,
          set_timerInterval (Some (S n))
            (set_startTime (Some (clock w))
               (set_players (List.map (set_answered false) (players room))
                  (set_state Active room)))) /\
  timer_get (S n) (timers w2) = Some (TQuestionTimeout mid a 0).
Proof.
  intros Hc Hg Ht Hlt Hq n w1 w2.
  set (w0 := set_timers (drop_timer id (timers w)) n w).
  assert (Hg0 : get_room mid w0 = Some (a, room)) by exact Hg.
  set (t1 := drop_timer id (timers w) ++ [(n, TDeliverFirst mid)]).
  assert (E1 : w1 = set_timers t1 (S n)
                      (emit (ToRoom mid)
                         (MStartBattle mid (length (questionsData room))
                            (js_or (questionTimeLimit room)
                               (JNum QUESTION_TIME_LIMIT)))
                         (update_room a (set_state Active) w0))).
  { subst w1. unfold step. rewrite Hc. unfold fire_timer. rewrite Ht.
    cbn [run_timer]. fold n. fold w0. unfold startMatch. rewrite Hg0. reflexivity. }
  assert (Hlt0 : Forall (fun t => (fst t < n)%nat) (drop_timer id (timers w)))
    by now apply drop_timer_below.
  assert (Ht1 : timer_get n t1 = Some (TDeliverFirst mid)).
  { subst t1. apply timer_get_app_fresh. now apply timer_get_below. }
  assert (Hg1 : get_room mid w1 = Some (a, set_state Active room)).
  { rewrite E1. exact (get_room_update mid w0 a room (set_state Active) Hg0). }
  split; [rewrite E1; emitted_norm; reflexivity|].
  split; [rewrite E1; exact Ht1|].
  set (w1' := set_timers (drop_timer n (timers w1)) (nextTimer w1) w1).
  assert (Hg1' : get_room mid w1' = Some (a, set_state Active room)) by exact Hg1.
  set (reset := fun r : Room =>
         set_startTime (Some (clock w))
           (set_players (List.map (set_answered false) (players r)) r)).
  set (t2 := drop_timer n t1 ++ [(S n, TQuestionTimeout mid a 0)]).
  assert (E2 : w2 = update_room a (set_timerInterval (Some (S n)))
                      (set_timers t2 (S (S n))
                         (emit (ToRoom mid)
                            (MQuestionDisplay 0 q
                               (js_or (questionTimeLimit room)
                                  (JNum QUESTION_TIME_LIMIT))
                               (length (questionsData room)))
                            (update_room a reset w1')))).
  { subst w2. unfold step.
    assert (Hc1 : crashed w1 = false) by (rewrite E1; exact Hc).
    rewrite Hc1. unfold fire_timer.
    assert (Ht1' : timer_get n (timers w1) = Some (TDeliverFirst mid))
      by (rewrite E1; exact Ht1).
    rewrite Ht1'. cbn [run_timer]. fold w1'.
    unfold deliverQuestion. rewrite Hg1'.
    cbn [questionsData questionTimeLimit set_state]. rewrite Hq.
    subst w1' t2. rewrite E1. reflexivity. }
  split; [|split].
  - apply emitted_app. rewrite E2. unfold display_of. rewrite Hq. reflexivity.
  - rewrite E2.
    pose proof (get_room_update mid w1' a _ reset Hg1') as Hg2.
    exact (get_room_update mid (update_room a reset w1') a _
             (set_timerInterval (Some (S n))) Hg2).
  - rewrite E2. cbn [timers update_room set_heap set_timers]. subst t2.
    apply timer_get_app_fresh. apply timer_get_below.
    apply drop_timer_below. subst t1. apply List.Forall_app. split.
    + apply List.Forall_forall. intros t Hin.
      rewrite List.Forall_forall in Hlt0. specialize (Hlt0 t Hin). lia.
    + constructor; [cbn; lia | constructor].
Qed.

Lemma match_start_sequence_witness :
  timer_get 0 (timers Joined.reached) = Some (TStartMatch Demo.midA) /\
  timer_get 2
    (timers (step (step Joined.reached (EvTimer 0 AllSucceed))
               (EvTimer 1 AllSucceed)))
  = Some (TQuestionTimeout Demo.midA 0 0).
Proof.
  split; [reflexivity|].
  refine (proj2 (proj2 (proj2 (proj2
            (match_start_sequence Demo.midA Joined.reached 0%nat Joined.room 0%nat
               Demo.first_question AllSucceed AllSucceed
               eq_refl eq_refl eq_refl _ eq_refl))))).
  repeat constructor.
Defined.

(** ** The last question of a match *)

(** X24: The round of the last question, answered by both players (submit-answer,
    lines 465-568, with [displayQuestionResults] and the timer that calls
    [endMatch]).  The first answer sends no results; the second one, which
    leaves every player answered, sends question-results once, carrying the
    scores with both awards added, and arms the end timer; when that timer
    fires the match is finalized with exactly those scores and the reason
    "All questions answered", and its id stops resolving. *)
Theorem last_question_round (sid1 sid2 mid : string) (qi : Z) (sel1 sel2 : jsval)
    (w : World) (a : nat) (room : Room) (p1 p2 : Player) (q : Question)
    (o : QOption) :
  crashed w = false ->
  get_room mid w = Some (a, room) ->
  players room = [p1; p2] ->
  userId p1 <> userId p2 ->
  answered p2 = false ->
  s_userId (get_socket sid1 w) = Some (userId p1) ->
  s_userId (get_socket sid2 w) = Some (userId p2) ->
  at_index (questionsData room) qi = Some q ->
  correctOption q = Some o ->
  qi + 1 >= Z.of_nat (length (questionsData room)) ->
  isObjectId mid = true ->
  isObjectId (userId p1) = true ->
  isObjectId (userId p2) = true ->
  List.forallb (fun e => isObjectId (fst e)) (scores room) = true ->
  Forall (fun t => (fst t < nextTimer w)%nat) (timers w) ->
  let u1 := userId p1 in
  let u2 := userId p2 in
  let s1 := map_set u1 (score_of u1 (scores room) + awarded sel1 q) (scores room) in
  let s2 := map_set u2 (score_of u2 s1 + awarded sel2 q) s1 in
  let n := nextTimer w in
  let w1 := step w (EvSubmitAnswer sid1 mid (JNum qi) sel1) in
  let w2 := step w1 (EvSubmitAnswer sid2 mid (JNum qi) sel2) in
  let w3 := step w2 (EvTimer n AllSucceed) in
  List.filter is_results (emitted w w1) = [] /\
  (exists answers,
     List.filter is_results (emitted w1 w2)
     = [(ToRoom mid, MQuestionResults (JNum qi) (correctOptionId q) s2 answers)]) /\
  timer_get n (timers w2) = Some (TEndAllAnswered mid) /\
  (exists leaderboard,
     emitted w2 w3 =
       [(ToRoom mid,
         MMatchEnded mid (pick_winner None (set_scores s2 room)) s2 leaderboard
           "All questions answered")]) /\
  get_room mid w3 = None.
Proof.
  intros Hc Hg Hp Hne Ha2 Hu1 Hu2 Hq Hco Hlast Hm Hi1 Hi2 Hs Hlt
         u1 u2 s1 s2 n w1 w2 w3.
  pose proof Hg as Hg'. apply get_room_inv in Hg' as [Hk Hh].
  assert (E12 : String.eqb u1 u2 = false) by now apply String.eqb_neq.
  (* the first answer *)
  set (c1 := strict_eq sel1 (JNum (correctOptionId q))).
  set (ans1 := mkAnswer (JNum qi) sel1 c1 (awarded sel1 q)).
  set (score1 := fun r : Room =>
         set_answers (map_set u1 ans1 (answers r))
           (set_scores
              (map_set u1 (score_of u1 (scores room) + awarded sel1 q) (scores r)) r)).
  set (mark1 := fun r : Room =>
         set_players
           (mark_first (fun p => uid_is (Some u1) (userId p)) (set_answered true)
              (players r)) r).
  set (room1 := set_players [set_answered true p1; p2] (score1 room)).
  assert (Hroom1 : mark1 (score1 room) = room1).
  { subst mark1 room1 score1. cbn beta. cbn [players set_answers set_scores].
    rewrite Hp, mark_first_cons. cbn [uid_is]. subst u1.
    now rewrite String.eqb_refl. }
  set (v1 := MAnswerValidated (JNum qi) sel1 c1 (correctOptionId q) (awarded sel1 q)
               (score_of u1 (scores room) + awarded sel1 q)).
  assert (E1 : w1 = emit (ToRoomExcept mid sid1)
                      (MOpponentAnswered (Some u1) (JNum qi))
                      (update_room a mark1
                         (emit (ToSocket sid1) v1 (update_room a score1 w)))).
  { subst w1. unfold step. rewrite Hc. unfold submit_answer.
    rewrite Hu1, Hg. cbn [js_index]. rewrite Hq, Hco.
    cbv zeta. cbn [uid_key]. fold u1. fold c1.
    change (if c1 then XP_PER_CORRECT else 0) with (awarded sel1 q).
    fold ans1. fold score1. fold v1. fold mark1.
    cbn [heap update_room set_heap emit].
    rewrite !list_lookup_alter_eq, Hh. cbn [option_map fmap option_fmap].
    rewrite Hroom1. subst room1. cbn [players set_players].
    cbn [List.forallb answered set_answered andb]. rewrite Ha2. reflexivity. }
  assert (Hg1 : get_room mid w1 = Some (a, room1)).
  { rewrite E1, <- Hroom1.
    pose proof (get_room_update mid w a room score1 Hg) as H1.
    exact (get_room_update mid (emit (ToSocket sid1) v1 (update_room a score1 w))
             a _ mark1 H1). }
  assert (Hc1 : crashed w1 = false) by (rewrite E1; exact Hc).
  assert (Hu2' : s_userId (get_socket sid2 w1) = Some u2) by (rewrite E1; exact Hu2).
  split; [rewrite E1; emitted_norm; reflexivity|].
  (* the second answer *)
  pose proof Hg1 as Hg1'. apply get_room_inv in Hg1' as [Hk1 Hh1].
  assert (Hsc1 : scores room1 = s1) by reflexivity.
  set (c2 := strict_eq sel2 (JNum (correctOptionId q))).
  set (ans2 := mkAnswer (JNum qi) sel2 c2 (awarded sel2 q)).
  set (score2 := fun r : Room =>
         set_answers (map_set u2 ans2 (answers r))
           (set_scores
              (map_set u2 (score_of u2 s1 + awarded sel2 q) (scores r)) r)).
  set (mark2 := fun r : Room =>
         set_players
           (mark_first (fun p => uid_is (Some u2) (userId p)) (set_answered true)
              (players r)) r).
  set (room2 := set_players [set_answered true p1; set_answered true p2]
                  (score2 room1)).
  assert (Hroom2 : mark2 (score2 room1) = room2).
  { subst mark2 room2 score2 room1. cbn beta.
    cbn [players set_answers set_scores set_players].
    rewrite mark_first_cons. cbn [uid_is userId set_answered]. fold u1.
    rewrite E12, mark_first_cons. cbn [uid_is]. subst u2.
    now rewrite String.eqb_refl. }
  set (v2 := MAnswerValidated (JNum qi) sel2 c2 (correctOptionId q) (awarded sel2 q)
               (score_of u2 s1 + awarded sel2 q)).
  set (x2 := emit (ToRoomExcept mid sid2) (MOpponentAnswered (Some u2) (JNum qi))
               (update_room a mark2
                  (emit (ToSocket sid2) v2 (update_room a score2 w1)))).
  assert (Hgx : get_room mid x2 = Some (a, room2)).
  { rewrite <- Hroom2.
    pose proof (get_room_update mid w1 a room1 score2 Hg1) as H1.
    exact (get_room_update mid (emit (ToSocket sid2) v2 (update_room a score2 w1))
             a _ mark2 H1). }
  set (res := MQuestionResults (JNum qi) (correctOptionId q) (scores room2)
                (answers room2)).
  assert (E2 : w2 = set_timers (timers w ++ [(n, TEndAllAnswered mid)]) (S n)
                      (update_room a (set_answers []) (emit (ToRoom mid) res x2))).
  { subst w2. unfold step. rewrite Hc1. unfold submit_answer.
    rewrite Hu2', Hg1. change (questionsData room1) with (questionsData room).
    cbn [js_index]. rewrite Hq, Hco. cbv zeta. cbn [uid_key]. fold c2.
    change (if c2 then XP_PER_CORRECT else 0) with (awarded sel2 q).
    rewrite Hsc1. fold ans2. fold score2. fold v2. fold mark2. fold x2.
    pose proof Hgx as Hgx'. apply get_room_inv in Hgx' as [_ Hhx].
    rewrite Hhx. subst room2. cbn [players set_players].
    cbn [List.forallb answered set_answered andb].
    unfold displayQuestionResults. rewrite Hgx.
    change (questionsData (set_players _ (score2 room1))) with (questionsData room).
    cbn [js_index]. rewrite Hq, Hco. cbn [js_succ_ge].
    destruct (Z.geb_spec (qi + 1) (Z.of_nat (length (questionsData room))))
      as [_|Hlt']; [|lia].
    subst x2. rewrite E1. reflexivity. }
  assert (Hsc2 : scores room2 = s2) by reflexivity.
  split.
  { exists (answers room2). rewrite E2. subst x2.
    unfold emitted. cbn [outbox set_timers update_room set_heap emit].
    rewrite <- !List.app_assoc, List.skipn_app, List.skipn_all, Nat.sub_diag.
    cbn [List.skipn List.app List.filter is_results snd]. subst res v2.
    now rewrite Hsc2. }
  assert (Ht2 : timer_get n (timers w2) = Some (TEndAllAnswered mid)).
  { rewrite E2. cbn [timers set_timers]. apply timer_get_app_fresh.
    now apply timer_get_below. }
  split; [exact Ht2|].
  (* the end timer *)
  set (room3 := set_answers [] room2).
  set (w2' := set_timers (drop_timer n (timers w2)) (nextTimer w2) w2).
  assert (Hg3 : get_room mid w2' = Some (a, room3)).
  { subst w2'. rewrite E2.
    exact (get_room_update mid (emit (ToRoom mid) res x2) a room2
             (set_answers []) Hgx). }
  assert (Hc2 : crashed w2 = false) by (rewrite E2; subst x2; exact Hc1).
  assert (E3 : w3 = endMatch mid None (Some "All questions answered")
                      AllSucceed w2').
  { subst w3. unfold step. rewrite Hc2. unfold fire_timer. rewrite Ht2.
    reflexivity. }
  assert (Hs3 : List.forallb (fun e => isObjectId (fst e)) (scores room3) = true).
  { change (scores room3) with s2. subst s2 s1.
    apply forallb_map_set; [apply forallb_map_set|]; assumption. }
  destruct (endMatch_ok mid None (Some "All questions answered") w2' a room3
              Hg3 Hm Hs3) as (Hem & _ & _ & Hnone).
  rewrite <- E3 in Hem, Hnone. split; [|exact Hnone].
  exists (build_leaderboard room3).
  assert (Hob : outbox w2' = outbox w2) by reflexivity.
  unfold emitted in *. rewrite Hob in Hem. rewrite Hem. reflexivity.
Qed.

Lemma last_question_round_witness :
  get_room Demo.midA LastQuestion.reached = Some (0%nat, LastQuestion.room2) /\
  get_room Demo.midA
    (step (step (step LastQuestion.reached
                   (EvSubmitAnswer "s1" Demo.midA (JNum 2) (JNum 3)))
             (EvSubmitAnswer "s2" Demo.midA (JNum 2) (JNum 1)))
       (EvTimer (nextTimer LastQuestion.reached) AllSucceed)) = None.
Proof.
  split; [reflexivity|].
  refine (proj2 (proj2 (proj2 (proj2
            (last_question_round "s1" "s2" Demo.midA 2 (JNum 3) (JNum 1)
               LastQuestion.reached 0%nat LastQuestion.room2 _ _
               (Demo.question "q3" 3) (mkOption 3 _)
               eq_refl eq_refl eq_refl _ eq_refl eq_refl eq_refl eq_refl eq_refl _
               eq_refl eq_refl eq_refl eq_refl _))))).
  - discriminate.
  - discriminate.
  - repeat constructor.
Defined.

(** ** Validation of a question payload *)

Lemma first_bad_option_none (options : list QOption) :
  first_bad_option options = None ->
  Forall (fun o => 1 <= opt_id o <= 4 /\ opt_text o <> "") options.
Proof.
  induction options as [|o r IH]; [constructor|]. cbn [first_bad_option].
  destruct (Z.eqb_spec (opt_id o) 0) as [E|E]; [discriminate|].
  destruct (truthy_str (opt_text o)) eqn:Et; [|discriminate]. cbn [negb orb].
  destruct (Z.ltb_spec (opt_id o) 1) as [H1|H1]; [discriminate|].
  destruct (Z.gtb_spec (opt_id o) 4) as [H4|H4]; [discriminate|].
  cbn [orb]. intros H. constructor; [|exact (IH H)].
  split; [lia|]. intros Ee. rewrite Ee in Et. discriminate Et.
Qed.

(** X25: What [validateQuestion] accepts (validationMiddleware.js, lines 51-103).
    An accepted body has exactly four options, each with an id from 1 to 4
    and a text, and a correct option id from 1 to 4.  The check never
    relates the correct id to the ids of the options: with the same options
    every correct id from 1 to 4 is accepted.  An option with the correct id
    is certain to exist only if the four option ids are pairwise distinct,
    which is not checked. *)
Theorem validateQuestion_correct_option (text : string) (options : list QOption)
    (cid : Z) (difficulty : option string) (id d cat : string) :
  validateQuestion text options cid difficulty = None ->
  length options = 4%nat /\
  Forall (fun o => 1 <= opt_id o <= 4 /\ opt_text o <> "") options /\
  1 <= cid <= 4 /\
  (forall cid', 1 <= cid' <= 4 ->
     validateQuestion text options cid' difficulty = None) /\
  (List.NoDup (List.map opt_id options) ->
   exists o, correctOption (mkQuestion id text options cid d cat) = Some o).
Proof.
  unfold validateQuestion.
  destruct (negb (truthy_str text) || Nat.ltb (String.length text) 10);
    [discriminate|].
  destruct (Nat.eqb_spec (length options) 4) as [Hlen|Hlen]; [|discriminate].
  cbn [negb]. destruct (first_bad_option options) eqn:Hbad; [discriminate|].
  destruct (Z.eqb_spec cid 0) as [E0|E0]; [discriminate|].
  destruct (Z.ltb_spec cid 1) as [E1|E1]; [discriminate|].
  destruct (Z.gtb_spec cid 4) as [E4|E4]; [discriminate|]. cbn [orb].
  destruct (match difficulty with Some _ => _ | None => _ end) eqn:Hd;
    [discriminate|].
  intros _. pose proof (first_bad_option_none options Hbad) as Hopts.
  split; [exact Hlen|]. split; [exact Hopts|]. split; [lia|]. split.
  - intros cid' Hc.
    destruct (Z.eqb_spec cid' 0); [lia|].
    destruct (Z.ltb_spec cid' 1); [lia|].
    destruct (Z.gtb_spec cid' 4); [lia|]. reflexivity.
  - intros Hnd. unfold correctOption. cbn [q_options correctOptionId].
    destruct options as [|o1 [|o2 [|o3 [|o4 [|o5 r]]]]]; try discriminate Hlen.
    inversion Hopts as [|? ? [L1 _] Ho2]; subst.
    inversion Ho2 as [|? ? [L2 _] Ho3]; subst.
    inversion Ho3 as [|? ? [L3 _] Ho4]; subst.
    inversion Ho4 as [|? ? [L4 _] _]; subst.
    cbn [List.map] in Hnd.
    inversion Hnd as [|? ? N1 Hnd2]; subst.
    inversion Hnd2 as [|? ? N2 Hnd3]; subst.
    inversion Hnd3 as [|? ? N3 _]; subst.
    cbn [In] in N1, N2, N3. cbn [List.find].
    destruct (Z.eqb_spec (opt_id o1) cid); [eauto|].
    destruct (Z.eqb_spec (opt_id o2) cid); [eauto|].
    destruct (Z.eqb_spec (opt_id o3) cid); [eauto|].
    destruct (Z.eqb_spec (opt_id o4) cid); [eauto|].
    exfalso.
    assert (D12 : opt_id o1 <> opt_id o2) by intuition congruence.
    assert (D13 : opt_id o1 <> opt_id o3) by intuition congruence.
    assert (D14 : opt_id o1 <> opt_id o4) by intuition congruence.
    assert (D23 : opt_id o2 <> opt_id o3) by intuition congruence.
    assert (D24 : opt_id o2 <> opt_id o4) by intuition congruence.
    assert (D34 : opt_id o3 <> opt_id o4) by intuition congruence.
    clear N1 N2 N3 Hnd Hnd2 Hnd3 Hopts Ho2 Ho3 Ho4 Hbad Hd.
    lia.
Qed.

(** An accepted body none of whose options carries the correct id: two
    options share an id. *)
Lemma validateQuestion_correct_option_witness :
  let options := [mkOption 1 "one"; mkOption 1 "uno"; mkOption 2 "two";
                  mkOption 2 "dos"] in
  validateQuestion "Which option is right?" options 3 None = None /\
  correctOption
    (mkQuestion "q" "Which option is right?" options 3 "medium" Demo.cidA) = None /\
  forall cid', 1 <= cid' <= 4 ->
    validateQuestion "Which option is right?" options cid' None = None.
Proof.
  intros options. split; [reflexivity|]. split; [reflexivity|].
  exact (proj1 (proj2 (proj2 (proj2
           (validateQuestion_correct_option "Which option is right?" options 3
              None "q" "medium" Demo.cidA eq_refl))))).
Defined.

(** ** Rank of a user *)






(** End of the development. *)
